(** * CloudPRNT emulator: raster decoder and transport engine

    A shallow embedding of the emulator's JavaScript sources:
    - [lib/starprnt.js]  ([convertStarprntToPng], the StarPRNT raster decoder),
    - the combined entry point (settings discovery, [runHttpPolling],
      [runMqttMode], [handlePrintJob] and the top-level orchestration),
    - [index.js] (the text/plain polling loop with the clientAction
      sub-protocol).

    Pure code is embedded as functions.  Code that talks to the network,
    the file system or the MQTT broker runs in a small state/exception
    monad over an abstract world; every request, publish, file write and
    sleep is appended to a trace.  node-fetch, lodepng, rotate-image-data,
    fs and the MQTT client are parameters ([Env]); each call may complete
    with an exception, and so may the allocation of a typed array.  The
    monad tells what one asynchronous function does when it runs alone.
    While the MQTT client is alive several of them are under way at a
    time: that part of the run is a transition system over resumptions
    ([EventLoop]), driven by the order in which the events of the client
    and the awaited completions arrive.  Command-line parsing,
    [console.log] and the time stamps in file names are left out. *)

From Stdlib Require Import String ZArith List Bool Lia.
From Stdlib.Strings Require Import Byte.
Import ListNotations.
Open Scope string_scope.
Open Scope list_scope.
Open Scope Z_scope.

Set Implicit Arguments.

(* ================================================================== *)
(** * Exceptions *)
(* ================================================================== *)

Inductive Method := GET | POST | DELETE.

(** The values thrown by the sources.  Each [new Error(...)] of the code
    has its own constructor (the interpolated pieces of the message are
    its arguments); [TypeError] is what the engine throws on a property
    access through [undefined] or [null]; [RangeError] is what it throws
    when a typed array cannot be allocated; [External] is an exception
    raised by a collaborator (node-fetch, JSON parsing, lodepng, fs, the
    MQTT client). *)
Inductive Exn :=
| UnimplementedStarPRNT                              (* 'Unimplemented StarPRNT data' *)
| RangeError                                         (* new Uint8Array(n) refused *)
| UnsupportedMediaTypes (mediaTypes : option (list string))
| RequestFailed (m : Method) (status : Z)            (* '<M> request to <url> failed: ...' *)
| TypeError
| TriggerPostUnsupported                             (* 'Server requires Trigger POST mode, ...' *)
| ServerError (status : Z)                           (* 'Server error: ...' *)
| UnexpectedResponse (status : Z)                    (* 'Unexpected response: ...' *)
| UnsupportedJobType (jobType : option string)
| UnsupportedMessageType (title : option string)
| External (what : string).

(** A completion: a thrown exception or a value. *)
Definition result (A : Type) : Type := (Exn + A)%type.

(* ================================================================== *)
(** * The raster decoder ([lib/starprnt.js]) *)
(* ================================================================== *)

Module Starprnt.

(** A [Uint8Array]: every element is a byte. *)
Definition Uint8Array := list byte.

Definition u8 (b : byte) : Z := Z.of_N (Byte.to_N b).

(** [x | 0]: the ToInt32 conversion of an integral number. *)
Definition ToInt32 (z : Z) : Z :=
  let m := z mod 2 ^ 32 in
  if m <? 2 ^ 31 then m else m - 2 ^ 32.

(** [data[i]] for an integer [i]: [None] is [undefined], the value of a
    typed array read outside [0 .. length-1]. *)
Definition index (data : Uint8Array) (i : Z) : option Z :=
  if i <? 0 then None else option_map u8 (nth_error data (Z.to_nat i)).

(** [data[i]] in an int32 operand position ([<<], [>>]), where
    [undefined] converts to 0. *)
Definition int32At (data : Uint8Array) (i : Z) : Z :=
  match index data i with Some b => b | None => 0 end.

(** [data[i] !== c] *)
Definition differs (data : Uint8Array) (i c : Z) : bool :=
  match index data i with
  | Some b => negb (b =? c)
  | None => true
  end.

(** The condition of the first [if]. *)
Definition badHeader (data : Uint8Array) : bool :=
  differs data 0 0x1b || differs data 1 0x1d || differs data 2 0x53
  || differs data 3 0x01 || differs data 8 0x00.

(** [pixelData[i] = v]: a write outside the array is ignored. *)
Fixpoint store (l : list byte) (i : nat) (v : byte) : list byte :=
  match l, i with
  | [], _ => []
  | _ :: t, O => v :: t
  | x :: t, S i' => x :: store t i' v
  end.

(** [(data[(inPtr / 8) | 0] >> (7 - (inPtr % 8))) & 1 ? 0 : 255] *)
Definition pixelOf (data : Uint8Array) (inPtr : Z) : byte :=
  if Z.land (Z.shiftr (int32At data (ToInt32 (inPtr / 8))) (7 - inPtr mod 8)) 1 =? 0
  then xff else x00.

(** The [for] loop.  [fuel] bounds the number of iterations; the loop
    leaves as soon as [outPtr < pixelData.length] fails. *)
Fixpoint decodeLoop (fuel : nat) (data : Uint8Array) (pixelData : list byte)
         (outPtr : nat) (inPtr : Z) : list byte :=
  match fuel with
  | O => pixelData
  | S fuel' =>
      if (outPtr <? length pixelData)%nat then
        let pixel := pixelOf data inPtr in
        let pixelData := store pixelData outPtr pixel in
        let pixelData := store pixelData (outPtr + 1) pixel in
        let pixelData := store pixelData (outPtr + 2) pixel in
        let pixelData := store pixelData (outPtr + 3) xff in
        decodeLoop fuel' data pixelData (outPtr + 4) (inPtr + 1)
      else pixelData
  end.

Record ImageData := mkImageData
  { data : list byte; width : Z; height : Z }.

Section Engine.
(** The engine's answer to [new Uint8Array(n)] for a length [n]: [true]
    when it allocates the array, [false] when it throws a RangeError
    (the length is above what the engine allows for a typed array, or
    the memory is not to be had). *)
Variable allocates : Z -> bool.

(** [new Uint8Array(n)]: zero-filled when it is allocated. *)
Definition newUint8Array (n : Z) : result (list byte) :=
  if allocates n then inr (repeat x00 (Z.to_nat n)) else inl RangeError.

(** [convertStarprntToPng] up to [let imageData = { data: pixelData, width, height }].
    After the header check [data[8]] is defined, hence so are
    [data[4..7]] (lemma [nth_error_defined]), and the additions are
    integer additions. *)
Definition decode (input : Uint8Array) : result ImageData :=
  if badHeader input then inl UnimplementedStarPRNT
  else
    let height := int32At input 6 + Z.shiftl (int32At input 7) 8 in
    let widthBytes := int32At input 4 + Z.shiftl (int32At input 5) 8 in
    let width := widthBytes * 8 in
    match newUint8Array (width * height * 4) with
    | inl e => inl e
    | inr pixelData =>
        let pixelData := decodeLoop (length pixelData) input pixelData 0 (9 * 8) in
        inr {| data := pixelData; width := width; height := height |}
    end.

(** [rotate(imageData, 180)] of rotate-image-data and [lodepng.encode]. *)
Variable rotate180_image : ImageData -> ImageData.
Variable lodepng_encode : ImageData -> result (list byte).

Definition convertStarprntToPng (input : Uint8Array) (rotate180 : bool)
  : result (list byte) :=
  match decode input with
  | inl e => inl e
  | inr imageData =>
      let imageData := if rotate180 then rotate180_image imageData else imageData in
      lodepng_encode imageData
  end.
End Engine.

(** The [p]-th pixel of a pixel buffer, as its four channel bytes. *)
Definition pixel (buf : list byte) (p : nat) : list byte :=
  firstn 4 (skipn (4 * p) buf).

Definition black : list byte := [x00; x00; x00; xff].
Definition white : list byte := [xff; xff; xff; xff].

(** The little-endian 16-bit number stored at offsets [i], [i+1]. *)
Definition le16 (input : Uint8Array) (i : nat) : option Z :=
  match nth_error input i, nth_error input (S i) with
  | Some lo, Some hi => Some (u8 lo + 256 * u8 hi)
  | _, _ => None
  end.

(** The header test, read off the claim: offsets 0,1,2,3,8 hold
    0x1b,0x1d,0x53,0x01,0x00. *)
Definition magic (input : Uint8Array) : Prop :=
  nth_error input 0 = Some x1b /\ nth_error input 1 = Some x1d /\
  nth_error input 2 = Some x53 /\ nth_error input 3 = Some x01 /\
  nth_error input 8 = Some x00.

(** The pixel in column [x] of row [y], rows stored one after the other. *)
Definition pixelAt (img : ImageData) (x y : Z) : list byte :=
  pixel (data img) (Z.to_nat (y * width img + x)).

(** What [k] turns of the loop write, when the first reads bit [inPtr]. *)
Fixpoint rendered (input : Uint8Array) (k : nat) (inPtr : Z) : list byte :=
  match k with
  | O => []
  | S k' =>
      let px := pixelOf input inPtr in
      px :: px :: px :: xff :: rendered input k' (inPtr + 1)
  end.

(** Bit [k] (0 = first, most significant first within each byte) of the
    bit stream that starts at byte 9. *)
Definition streamBit (input : Uint8Array) (k : nat) : option bool :=
  match nth_error input (9 + k / 8) with
  | Some b => Some (Z.testbit (u8 b) (7 - Z.of_nat (k mod 8)))
  | None => None
  end.

End Starprnt.

(* ================================================================== *)
(** * Protocol data *)
(* ================================================================== *)

(** A parsed URL: [pathname] holds the pieces of [url.pathname.split('/')]
    after the leading empty one, [query] the search parameters in order. *)
Record Url := mkUrl
  { origin : string; pathname : list string; query : list (string * string) }.

(** [url.searchParams.append(k, v)] *)
Definition append_param (u : Url) (k v : string) : Url :=
  {| origin := origin u; pathname := pathname u; query := query u ++ [(k, v)] |}.

(** The answer to one clientAction request: [result] is a number for
    GetPollInterval and a string for the others. *)
Inductive ActionValue := NumberValue (n : Z) | StringValue (s : string).

Record ClientActionResult := mkActionResult
  { answered : string; value : ActionValue }.

(** One element of [status.clientAction]: [request] may be missing. *)
Record ClientActionRequest := mkActionRequest
  { request : option string }.

(** A field that the code tests with [typeof]: missing ([undefined]),
    [null], or present. *)
Inductive Field (A : Type) := Missing | Null | Present (a : A).
Arguments Missing {A}.
Arguments Null {A}.

(** The JSON object answered to a status POST.  [jobReady] is the
    truthiness of the field.  [jobToken] and [mediaTypes] are [None]
    when the field is missing or null: the sources test them for
    truthiness only, and [.includes] through [null] throws the TypeError
    it throws through [undefined].  [clientAction] is tested by index.js
    with [typeof status.clientAction !== "undefined"], which a null
    passes. *)
Record PollStatus := mkPollStatus
  { jobReady : bool;
    jobToken : option string;
    mediaTypes : option (list string);
    clientAction : Field (list ClientActionRequest) }.

(** The JSON body of a status POST.  [printerMAC] and [status] are sent
    by index.js only, [actions] only by its follow-up POST. *)
Record StatusBody := mkStatusBody
  { printingInProgress : bool;
    statusCode : string;
    printerMAC : option string;
    status : option string;
    actions : option (list ClientActionResult) }.

Record Request := mkRequest
  { method : Method;
    url : Url;
    body : option StatusBody;
    authorization : option (string * string);   (* Basic user:pass *)
    timeout : option Z }.

(** cloudprnt-setting.json *)
Record Authentication := mkAuthentication
  { username : option string; password : option string }.

Record MqttConnectionSetting := mkMqttConnectionSetting
  { hostName : option string;
    portNumber : option Z;
    useTls : bool;
    authenticationSetting : option Authentication }.

Record SettingForMQTT := mkSettingForMQTT
  { useTriggerPOST : option bool;
    mqttConnectionSetting : option MqttConnectionSetting }.

Record Settings := mkSettings
  { serverSupportProtocol : option (list string);
    settingForMQTT : option SettingForMQTT }.

(** The value returned by [parseServerSettings]. *)
Record ServerSettings := mkServerSettings
  { useMQTT : bool; mqttSettings : option MqttConnectionSetting }.

(** The payload of an MQTT message after [JSON.parse]. *)
Record Payload := mkPayload
  { title : option string;
    jobTokenOf : option string;
    jobType : option string;
    mediaTypesOf : option (list string);
    printData : option string }.

(** What the emulator publishes. *)
Inductive Message :=
| ClientStatus (inProgress : bool)       (* title 'client-status', statusCode '200%20OK' *)
| PrintResult (token : option string) (printSucceeded : bool) (code : string).

Record ConnectOptions := mkConnectOptions
  { host : option string; port : Z; protocol : string;
    user : option string; pass : option string;
    clientId : string; protocolVersion : Z; clean : bool;
    willTopic : string }.

(** Everything the emulator does to the outside, in order. *)
Inductive Event :=
| Fetch (r : Request)
| WriteFile (prefix : string) (contents : list byte)
| Sleep (ms : Z)
| ConsoleError (e : Exn)
| MqttConnect (o : ConnectOptions)
| Subscribe (topic : string)
| Publish (topic : string) (m : Message).

(** A response of node-fetch; [Body] is whatever the body stream holds. *)
Record Response (Body : Type) := mkResponse
  { statusOf : Z; bodyOf : Body }.

(** [response.ok] *)
Definition ok {Body} (r : Response Body) : bool :=
  (200 <=? statusOf r) && (statusOf r <=? 299).

(** [array.includes(s)] on an array of strings. *)
Definition includes (l : list string) (s : string) : bool :=
  existsb (String.eqb s) l.

(** Truthiness of an optional string: [undefined] and [''] are falsy. *)
Definition truthy (o : option string) : bool :=
  match o with
  | Some s => negb (String.eqb s "")
  | None => false
  end.

Definition starprntType : string := "application/vnd.star.starprnt".
Definition pngType : string := "image/png".
Definition textType : string := "text/plain".

(* ================================================================== *)
(** * The effect monad *)
(* ================================================================== *)

(** The collaborators.  The world is the state of everything outside the
    process (server, broker, disk); a call that reaches it returns the
    new world together with its completion, which may be an exception. *)
Record Env (World Body : Type) := mkEnv
  { fetch : Request -> World -> result (Response Body) * World;
    (* response.json(), and text ? JSON.parse(text) : {} in index.js *)
    json_status : Body -> result PollStatus;
    json_settings : Body -> result Settings;
    (* response.buffer(), response.arrayBuffer() *)
    buffer : Body -> result (list byte);
    writeFileSync : string -> list byte -> World -> result unit * World;
    lodepng_decode : list byte -> result Starprnt.ImageData;
    lodepng_encode : Starprnt.ImageData -> result (list byte);
    rotate180_image : Starprnt.ImageData -> Starprnt.ImageData;
    (* whether new Uint8Array(n) is allocated (else it throws a RangeError) *)
    allocates : Z -> bool;
    publishAsync : string -> Message -> World -> result unit * World;
    (* Buffer.from(s, 'base64') *)
    base64 : string -> list byte }.

(** The machine state: the world and the local variable that holds the
    acknowledgment code ([code] in the polling loops, [statusCode] in
    [handlePrintJob]). *)
Record St (World : Type) := mkSt { world : World; code : string }.

(** A computation returns its completion, the new state and the events
    it produced, oldest first. *)
Definition M (World A : Type) : Type :=
  St World -> result A * St World * list Event.

Definition ret {World A} (a : A) : M World A :=
  fun s => (inr a, s, []).

Definition throw {World A} (e : Exn) : M World A :=
  fun s => (inl e, s, []).

Definition bind {World A B} (m : M World A) (f : A -> M World B) : M World B :=
  fun s =>
    match m s with
    | (inl e, s1, t1) => (inl e, s1, t1)
    | (inr a, s1, t1) =>
        match f a s1 with
        | (r, s2, t2) => (r, s2, t1 ++ t2)
        end
    end.

(** [try { m } catch (error) { h error }] *)
Definition try_catch {World A} (m : M World A) (h : Exn -> M World A) : M World A :=
  fun s =>
    match m s with
    | (inl e, s1, t1) =>
        match h e s1 with
        | (r, s2, t2) => (r, s2, t1 ++ t2)
        end
    | (inr a, s1, t1) => (inr a, s1, t1)
    end.

(** [try { m } finally { fin }]: the completion of [m] is kept unless
    [fin] itself throws. *)
Definition try_finally {World A} (m : M World A) (fin : M World unit) : M World A :=
  fun s =>
    match m s with
    | (r, s1, t1) =>
        match fin s1 with
        | (inl e, s2, t2) => (inl e, s2, t1 ++ t2)
        | (inr _, s2, t2) => (r, s2, t1 ++ t2)
        end
    end.

Definition emit {World} (e : Event) : M World unit :=
  fun s => (inr tt, s, [e]).

Definition lift {World A} (r : result A) : M World A :=
  fun s => (r, s, []).

Definition set_code {World} (c : string) : M World unit :=
  fun s => (inr tt, {| world := world s; code := c |}, []).

Definition get_code {World} : M World string :=
  fun s => (inr (code s), s, []).

(** A call of a collaborator that reaches the world. *)
Definition call {World A} (e : Event) (f : World -> result A * World) : M World A :=
  fun s =>
    match f (world s) with
    | (r, w) => (r, {| world := w; code := code s |}, [e])
    end.

(** [await setTimeout(ms)] *)
Definition sleep {World} (ms : Z) : M World unit := emit (Sleep ms).

Notation "x <- m ;; k" := (bind m (fun x => k))
  (at level 61, m at next level, right associativity).
Notation "m ;;; k" := (bind m (fun _ => k))
  (at level 61, right associativity).

Definition trace_of {World A} (x : result A * St World * list Event) : list Event :=
  snd x.
Definition completion_of {World A} (x : result A * St World * list Event) : result A :=
  fst (fst x).
Definition state_of {World A} (x : result A * St World * list Event) : St World :=
  snd (fst x).

(** How far the top-level code got on its own. *)
Inductive Running :=
| InHttpPolling      (* inside the [while (true)] of the polling loop *)
| AwaitingMqtt       (* suspended at [await runMqttMode(...)], the promise pending *)
| Exited (exitCode : Z).

(* ================================================================== *)
(** * The combined entry point (settings discovery, HTTP polling, MQTT) *)
(* ================================================================== *)

Module Combined.

Definition PRINTER_MAC : string := "00:00:00:00:00:00".

(** [parseServerSettings] *)
Definition parseServerSettings (settings : Settings) : result ServerSettings :=
  let serverSupportProtocol :=
    match serverSupportProtocol settings with Some l => l | None => [] end in
  let settingForMQTT :=
    match settingForMQTT settings with
    | Some s => s
    | None => {| useTriggerPOST := None; mqttConnectionSetting := None |}
    end in
  if negb (includes serverSupportProtocol "MQTT") then
    inr {| useMQTT := false; mqttSettings := None |}
  else
    match useTriggerPOST settingForMQTT with
    | Some true => inl TriggerPostUnsupported
    | _ => inr {| useMQTT := true;
                  mqttSettings := mqttConnectionSetting settingForMQTT |}
    end.

(** The URL of cloudprnt-setting.json, derived as in [getServerSettings].
    With no path segment the assignment to index -1 leaves the array
    empty and [originalLastSegment] is [undefined]. *)
Definition settingsUrlOf (pollUrl : Url) : Url :=
  let pathSegments := filter (fun s => negb (String.eqb s "")) (pathname pollUrl) in
  let originalLastSegment :=
    match pathSegments with [] => "undefined" | _ => last pathSegments "" end in
  let pathSegments :=
    match pathSegments with
    | [] => [""]
    | _ => removelast pathSegments ++ ["cloudprnt-setting.json"]
    end in
  let settingsUrl :=
    {| origin := origin pollUrl; pathname := pathSegments; query := query pollUrl |} in
  append_param (append_param settingsUrl "mac" PRINTER_MAC)
               "replaced_path" originalLastSegment.

(** The request to the settings endpoint, with its 15 second timeout. *)
Definition settingsRequest (settingsUrl : Url) : Request :=
  {| method := GET; url := settingsUrl; body := None;
     authorization := None; timeout := Some 15000 |}.

(** How one turn of the [for] loop of [getServerSettings] ends. *)
Inductive Flow (A : Type) := Return (a : A) | Continue.
Arguments Continue {A}.

(** What the MQTT client reports to the handlers installed by
    [runMqttMode].  [SubscribeCallback] is the call of the callback given
    to [client.subscribe]; [OnMessage] carries the completion of
    [JSON.parse(message.toString())]. *)
Inductive ClientEvent :=
| OnConnect
| SubscribeCallback (err : option Exn)
| OnMessage (topic : string) (parsed : result Payload)
| OnError (err : Exn)
| OnClose.

Definition deviceTopic : string :=
  ("star/cloudprnt/to-device/" ++ PRINTER_MAC ++ "/#")%string.
Definition serverTopicPrefix : string :=
  ("star/cloudprnt/to-server/" ++ PRINTER_MAC)%string.
Definition clientStatusTopic : string := (serverTopicPrefix ++ "/client-status")%string.
Definition printResultTopic : string := (serverTopicPrefix ++ "/print-result")%string.

Definition statusRequest (u : Url) : Request :=
  {| method := POST; url := u;
     body := Some {| printingInProgress := false; statusCode := "200%20OK";
                     printerMAC := None; status := None; actions := None |};
     authorization := None; timeout := None |}.

Definition withToken (u : Url) (jobToken : option string) : Url :=
  match jobToken with
  | Some t => if truthy jobToken then append_param u "token" t else u
  | None => u
  end.

Definition jobRequest (u : Url) (jobToken : option string) (type : string) : Request :=
  {| method := GET;
     url := withToken (append_param (append_param u "type" type) "mac" PRINTER_MAC) jobToken;
     body := None; authorization := None; timeout := None |}.

Definition ackRequest (u : Url) (code : string) (jobToken : option string) : Request :=
  {| method := DELETE;
     url := withToken (append_param (append_param u "code" code) "mac" PRINTER_MAC) jobToken;
     body := None; authorization := None; timeout := None |}.

(** The options [runMqttMode] hands to [mqtt.connect]. *)
Definition connectOptions (ms : MqttConnectionSetting) : ConnectOptions :=
  let auth := authenticationSetting ms in
  {| host := hostName ms;
     port := match portNumber ms with
             | Some p => if p =? 0 then 1883 else p     (* portNumber || 1883 *)
             | None => 1883
             end;
     protocol := if useTls ms then "mqtts" else "mqtt";
     user := match auth with Some a => username a | None => None end;
     pass := match auth with Some a => password a | None => None end;
     clientId := PRINTER_MAC; protocolVersion := 4; clean := false;
     willTopic := (serverTopicPrefix ++ "/client-will")%string |}.

Section Program.
Variables World Body : Type.
Variable env : Env World Body.

Definition convertStarprntToPng :=
  Starprnt.convertStarprntToPng (allocates env) (rotate180_image env) (lodepng_encode env).

(** The [for (let attempt = 1; attempt <= 3; attempt++)] loop. *)
Fixpoint settingsLoop (fuel : nat) (settingsUrl : Url) (attempt : Z)
  : M World (option ServerSettings) :=
  match fuel with
  | O => ret None
  | S fuel' =>
      if attempt <=? 3 then
        flow <- try_catch
          (let r := settingsRequest settingsUrl in
           response <- call (Fetch r) (fetch env r) ;;
           if statusOf response =? 404 then
             ret (Return {| useMQTT := false; mqttSettings := None |})
           else if statusOf response =? 200 then
             settings <- lift (json_settings env (bodyOf response)) ;;
             parsed <- lift (parseServerSettings settings) ;;
             ret (Return parsed)
           else if statusOf response >=? 500 then
             if attempt <? 3 then
               sleep 5000 ;;; ret Continue
             else throw (ServerError (statusOf response))
           else throw (UnexpectedResponse (statusOf response)))
          (fun error =>
             if attempt =? 3 then throw error
             else sleep 5000 ;;; ret Continue) ;;
        match flow with
        | Return v => ret (Some v)
        | Continue => settingsLoop fuel' settingsUrl (attempt + 1)
        end
      else ret None   (* the function ends without a return: undefined *)
  end.

Definition getServerSettings (pollUrl : Url) : M World (option ServerSettings) :=
  settingsLoop 3 (settingsUrlOf pollUrl) 1.

Definition post (u : Url) : M World PollStatus :=
  let r := statusRequest u in
  response <- call (Fetch r) (fetch env r) ;;
  if negb (ok response) then throw (RequestFailed POST (statusOf response))
  else lift (json_status env (bodyOf response)).

Definition get (u : Url) (jobToken : option string) (type : string)
  : M World (list byte) :=
  let r := jobRequest u jobToken type in
  response <- call (Fetch r) (fetch env r) ;;
  if negb (ok response) then throw (RequestFailed GET (statusOf response))
  else lift (buffer env (bodyOf response)).

Definition delete_ (u : Url) (code : string) (jobToken : option string)
  : M World unit :=
  let r := ackRequest u code jobToken in
  response <- call (Fetch r) (fetch env r) ;;
  if negb (ok response) then throw (RequestFailed DELETE (statusOf response))
  else ret tt.

(** The body of the inner [try] of [runHttpPolling]. *)
Definition serviceBody (u : Url) (rotate180 : bool) (status : PollStatus)
  : M World unit :=
  (match mediaTypes status with
   | Some types =>
       if negb (includes types starprntType || includes types pngType) then
         set_code "510" ;;; throw (UnsupportedMediaTypes (Some types))
       else ret tt
   | None => ret tt
   end) ;;;
  pngData <-
    (match mediaTypes status with
     | None => throw TypeError       (* status.mediaTypes.includes on undefined *)
     | Some types =>
         if includes types starprntType then
           raw <- get u (jobToken status) starprntType ;;
           lift (convertStarprntToPng raw false)
         else get u (jobToken status) pngType
     end) ;;
  pngData <-
    (if rotate180 then
       imageData <- lift (lodepng_decode env pngData) ;;
       lift (lodepng_encode env (rotate180_image env imageData))
     else ret pngData) ;;
  call (WriteFile "img-" pngData) (writeFileSync env "img-" pngData) ;;;
  set_code "200".

(** [let code = '500'; try { ... } finally { await delete_(...) }] *)
Definition service (u : Url) (rotate180 : bool) (status : PollStatus)
  : M World unit :=
  set_code "500" ;;;
  try_finally
    (serviceBody u rotate180 status)
    (code <- get_code ;; delete_ u code (jobToken status)).

(** One turn of the [while (true)] of [runHttpPolling]. *)
Definition pollCycle (u : Url) (delay : Z) (rotate180 : bool) : M World unit :=
  try_catch
    (status <- post u ;;
     if negb (jobReady status) then sleep delay   (* continue *)
     else service u rotate180 status)
    (fun error => emit (ConsoleError error) ;;; sleep delay).

(** [runHttpPolling]; the loop has no exit, [fuel] is the number of
    turns that are observed. *)
Fixpoint runHttpPolling (fuel : nat) (u : Url) (delay : Z) (rotate180 : bool)
  : M World unit :=
  match fuel with
  | O => ret tt
  | S fuel' => pollCycle u delay rotate180 ;;; runHttpPolling fuel' u delay rotate180
  end.

(** The body of the [try] of [handlePrintJob]. *)
Definition printJobBody (payload : Payload) (rotate180 : bool) : M World unit :=
  call (Publish clientStatusTopic (ClientStatus true))
       (publishAsync env clientStatusTopic (ClientStatus true)) ;;;
  (if match jobType payload with
       | Some t => negb (String.eqb t "raw")
       | None => true
       end
   then set_code "500" ;;; throw (UnsupportedJobType (jobType payload))
   else ret tt) ;;;
  (if match mediaTypesOf payload with
       | None => true
       | Some types =>
           negb (Nat.eqb (length types) 1) || negb (includes types starprntType)
       end
   then set_code "510" ;;; throw (UnsupportedMediaTypes (mediaTypesOf payload))
   else ret tt) ;;;
  rawData <-
    (match printData payload with
     | Some s => ret (base64 env s)
     | None => throw TypeError       (* Buffer.from(undefined, 'base64') *)
     end) ;;
  pngData <- lift (convertStarprntToPng rawData rotate180) ;;
  call (WriteFile "img-" pngData) (writeFileSync env "img-" pngData) ;;;
  set_code "200".

(** The [finally] of [handlePrintJob]. *)
Definition printJobFinally (payload : Payload) : M World unit :=
  statusCode <- get_code ;;
  let result := PrintResult (jobTokenOf payload)
                            (String.prefix "200" statusCode) statusCode in
  call (Publish printResultTopic result)
       (publishAsync env printResultTopic result) ;;;
  call (Publish clientStatusTopic (ClientStatus false))
       (publishAsync env clientStatusTopic (ClientStatus false)).

(** [handlePrintJob] *)
Definition handlePrintJob (payload : Payload) (rotate180 : bool) : M World unit :=
  set_code "500" ;;;
  try_finally (printJobBody payload rotate180) (printJobFinally payload).

(** [handleMqttMessage] *)
Definition handleMqttMessage (payload : Payload) (rotate180 : bool) : M World unit :=
  match title payload with
  | Some t =>
      if String.eqb t "print-job" then handlePrintJob payload rotate180
      else throw (UnsupportedMessageType (title payload))
  | None => throw (UnsupportedMessageType (title payload))
  end.

(** One event delivered to the handlers of [runMqttMode], the handler
    running alone and to its end.  The value is [Some err] when the
    handler calls [reject(err)]. *)
Definition deliver (rotate180 : bool) (ev : ClientEvent) : M World (option Exn) :=
  match ev with
  | OnConnect =>
      emit (Subscribe deviceTopic) ;;;
      emit (Publish clientStatusTopic (ClientStatus false)) ;;;
      ret None
  | SubscribeCallback (Some err) => ret (Some err)
  | SubscribeCallback None => ret None
  | OnMessage _ parsed =>
      try_catch
        (payload <- lift parsed ;; handleMqttMessage payload rotate180)
        (fun error => emit (ConsoleError error)) ;;;
      ret None
  | OnError err => emit (ConsoleError err) ;;; ret (Some err)
  | OnClose => ret None     (* console.log only *)
  end.

(** [runMqttMode] up to the promise it returns: the settings are read,
    [mqtt.connect] makes the client and the handlers are installed.  The
    promise is pending then; what the handlers do with the events of
    the client, and when the promise is rejected, is told by the event
    loop ([EventLoop]). *)
Definition runMqttMode (mqttSettings : option MqttConnectionSetting) : M World unit :=
  match mqttSettings with
  | None => throw TypeError        (* mqttSettings.hostName on undefined *)
  | Some ms => emit (MqttConnect (connectOptions ms))
  end.

(** The top-level [try] block, after the command line is parsed and
    the poll interval validated, as far as it runs on its own: into the
    polling loop ([fuel] turns are observed), to its exit, or until it
    is suspended in [await runMqttMode(...)].  From there on the run is
    driven by the events of the MQTT client ([EventLoop.started]). *)
Definition main (fuel : nat) (u : Url) (delay : Z) (rotate180 : bool)
  : M World Running :=
  try_catch
    (serverSettings <- getServerSettings u ;;
     match serverSettings with
     | None => throw TypeError
     | Some serverSettings =>
         if useMQTT serverSettings then
           try_catch
             (runMqttMode (mqttSettings serverSettings) ;;;
              ret AwaitingMqtt)
             (fun error =>
                emit (ConsoleError error) ;;;
                runHttpPolling fuel u delay rotate180 ;;;
                ret InHttpPolling)
         else
           runHttpPolling fuel u delay rotate180 ;;; ret InHttpPolling
     end)
    (fun error => emit (ConsoleError error) ;;; ret (Exited 1)).

End Program.
End Combined.

(* ================================================================== *)
(** * The event loop: the program while the MQTT client is alive *)
(* ================================================================== *)

(** Once [mqtt.connect] has made the client, several asynchronous
    functions are under way at a time: the top-level code, suspended in
    [await runMqttMode(...)] and later in [runHttpPolling], and one call
    of the 'message' handler for every message that arrived.  Each runs
    from one [await] to the next without interruption; which of them
    goes on next, and when the client emits its next event, is not
    decided by the program.  Here the functions are written a second
    time, with their [await]s, as resumptions; run alone and to its end
    each is the function of [Combined] (lemmas [run_pollCycle] and
    [run_handler]). *)
Module EventLoop.

Section Tasks.
Variable World : Type.

(** An asynchronous function in the course of its run. *)
Inductive Task (A : Type) : Type :=
| Done (r : result A)                   (* it has returned or thrown *)
| Emit (e : Event) (k : Task A)         (* an event, at once *)
| Apply (X : Type) (op : World -> result X * World)
        (k : result X -> Task A)        (* a completion read off the world *)
| Yield (k : Task A)                    (* [await]: suspended, [k] is what follows *)
| SetCode (c : string) (k : Task A)     (* the local [code] / [statusCode] *)
| GetCode (k : string -> Task A).

(** [m], then [k] on its completion. *)
Fixpoint andThen {A B} (m : Task A) (k : result A -> Task B) : Task B :=
  match m with
  | Done r => k r
  | Emit e m' => Emit e (andThen m' k)
  | Apply op m' => Apply op (fun r => andThen (m' r) k)
  | Yield m' => Yield (andThen m' k)
  | SetCode c m' => SetCode c (andThen m' k)
  | GetCode m' => GetCode (fun c => andThen (m' c) k)
  end.

Definition ret {A} (a : A) : Task A := Done (inr a).
Definition throw {A} (e : Exn) : Task A := Done (inl e).
Definition lift {A} (r : result A) : Task A := Done r.

Definition bind {A B} (m : Task A) (f : A -> Task B) : Task B :=
  andThen m (fun r => match r with inl e => Done (inl e) | inr a => f a end).

(** [try { m } catch (error) { h error }] *)
Definition try_catch {A} (m : Task A) (h : Exn -> Task A) : Task A :=
  andThen m (fun r => match r with inl e => h e | inr a => Done (inr a) end).

(** [try { m } finally { fin }] *)
Definition try_finally {A} (m : Task A) (fin : Task unit) : Task A :=
  andThen m (fun r =>
    andThen fin (fun r' => match r' with inl e => Done (inl e) | inr _ => Done r end)).

Definition emit (e : Event) : Task unit := Emit e (Done (inr tt)).
Definition set_code (c : string) : Task unit := SetCode c (Done (inr tt)).
Definition get_code : Task string := GetCode (fun c => Done (inr c)).

(** A synchronous call of a collaborator ([writeFileSync]). *)
Definition call {A} (e : Event) (f : World -> result A * World) : Task A :=
  Emit e (Apply f (fun r => Done r)).

(** [await f(...)] for a collaborator [f] (fetch, publishAsync): the
    call is made, the caller is suspended, and the completion is there
    when it is resumed. *)
Definition awaitCall {A} (e : Event) (f : World -> result A * World) : Task A :=
  Emit e (Yield (Apply f (fun r => Done r))).

(** [await m] for an asynchronous function [m] of the program, or for a
    promise made from a value at hand: [m] runs up to its completion,
    then the caller is suspended once before it gets the completion. *)
Definition await {A} (m : Task A) : Task A :=
  andThen m (fun r => Yield (Done r)).

(** [await setTimeout(ms)] *)
Definition sleep (ms : Z) : Task unit := Emit (Sleep ms) (Yield (Done (inr tt))).

(** The function goes on until it is suspended or done: what is left of
    it ([Yield k] when it is suspended, [Done r] when it is done), the
    world, its local code, and the events of this stretch. *)
Fixpoint advance {A} (t : Task A) (w : World) (c : string)
  : Task A * World * string * list Event :=
  match t with
  | Done r => (Done r, w, c, [])
  | Emit e k => let '(t', w', c', l) := advance k w c in (t', w', c', e :: l)
  | Apply op k => let '(r, w') := op w in advance (k r) w' c
  | Yield k => (Yield k, w, c, [])
  | SetCode c' k => advance k w c'
  | GetCode k => advance (k c) w c
  end.

(** A suspended function is resumed: it goes on behind its [await]. *)
Definition resume {A} (t : Task A) (w : World) (c : string)
  : Task A * World * string * list Event :=
  match t with
  | Yield k => advance k w c
  | _ => advance t w c
  end.

(** The function run alone, never interrupted at its [await]s. *)
Fixpoint run {A} (t : Task A) : M World A :=
  match t with
  | Done r => fun s => (r, s, [])
  | Emit e k => fun s => let '(r, s', l) := run k s in (r, s', e :: l)
  | Apply op k =>
      fun s => let '(x, w) := op (world s) in run (k x) {| world := w; code := code s |}
  | Yield k => run k
  | SetCode c k => fun s => run k {| world := world s; code := c |}
  | GetCode k => fun s => run (k (code s)) s
  end.

End Tasks.

Arguments Done {World A} r.
Arguments Emit {World A} e k.
Arguments Apply {World A X} op k.
Arguments Yield {World A} k.
Arguments SetCode {World A} c k.
Arguments GetCode {World A} k.
Arguments ret {World A} a.
Arguments throw {World A} e.
Arguments lift {World A} r.
Arguments emit {World} e.
Arguments set_code {World} c.
Arguments get_code {World}.
Arguments sleep {World} ms.

Declare Scope task_scope.
Delimit Scope task_scope with task.
Notation "x <- m ;; k" := (bind m (fun x => k))
  (at level 61, m at next level, right associativity) : task_scope.
Notation "m ;;; k" := (bind m (fun _ => k))
  (at level 61, right associativity) : task_scope.

Section Program.
Variables World Body : Type.
Variable env : Env World Body.

Definition post (u : Url) : Task World PollStatus :=
  (let r := Combined.statusRequest u in
   response <- awaitCall (Fetch r) (fetch env r) ;;
   if negb (ok response) then throw (RequestFailed POST (statusOf response))
   else await (lift (json_status env (bodyOf response))))%task.

Definition get (u : Url) (jobToken : option string) (type : string)
  : Task World (list byte) :=
  (let r := Combined.jobRequest u jobToken type in
   response <- awaitCall (Fetch r) (fetch env r) ;;
   if negb (ok response) then throw (RequestFailed GET (statusOf response))
   else await (lift (buffer env (bodyOf response))))%task.

Definition delete_ (u : Url) (code : string) (jobToken : option string)
  : Task World unit :=
  (let r := Combined.ackRequest u code jobToken in
   response <- awaitCall (Fetch r) (fetch env r) ;;
   if negb (ok response) then throw (RequestFailed DELETE (statusOf response))
   else ret tt)%task.

(** The body of the inner [try] of [runHttpPolling]. *)
Definition serviceBody (u : Url) (rotate180 : bool) (status : PollStatus)
  : Task World unit :=
  ((match mediaTypes status with
    | Some types =>
        if negb (includes types starprntType || includes types pngType) then
          set_code "510" ;;; throw (UnsupportedMediaTypes (Some types))
        else ret tt
    | None => ret tt
    end) ;;;
   pngData <-
     (match mediaTypes status with
      | None => throw TypeError
      | Some types =>
          if includes types starprntType then
            raw <- await (get u (jobToken status) starprntType) ;;
            lift (Combined.convertStarprntToPng env raw false)
          else await (get u (jobToken status) pngType)
      end) ;;
   pngData <-
     (if rotate180 then
        imageData <- lift (lodepng_decode env pngData) ;;
        lift (lodepng_encode env (rotate180_image env imageData))
      else ret pngData) ;;
   call (WriteFile "img-" pngData) (writeFileSync env "img-" pngData) ;;;
   set_code "200")%task.

Definition service (u : Url) (rotate180 : bool) (status : PollStatus)
  : Task World unit :=
  (set_code "500" ;;;
   try_finally
     (serviceBody u rotate180 status)
     (code <- get_code ;; await (delete_ u code (jobToken status))))%task.

(** One turn of the [while (true)] of [runHttpPolling]. *)
Definition pollCycle (u : Url) (delay : Z) (rotate180 : bool) : Task World unit :=
  (try_catch
     (status <- await (post u) ;;
      if negb (jobReady status) then sleep delay
      else service u rotate180 status)
     (fun error => emit (ConsoleError error) ;;; sleep delay))%task.

(** The body of the [try] of [handlePrintJob]. *)
Definition printJobBody (payload : Payload) (rotate180 : bool) : Task World unit :=
  (awaitCall (Publish Combined.clientStatusTopic (ClientStatus true))
             (publishAsync env Combined.clientStatusTopic (ClientStatus true)) ;;;
   (if match jobType payload with
        | Some t => negb (String.eqb t "raw")
        | None => true
        end
    then set_code "500" ;;; throw (UnsupportedJobType (jobType payload))
    else ret tt) ;;;
   (if match mediaTypesOf payload with
        | None => true
        | Some types =>
            negb (Nat.eqb (length types) 1) || negb (includes types starprntType)
        end
    then set_code "510" ;;; throw (UnsupportedMediaTypes (mediaTypesOf payload))
    else ret tt) ;;;
   rawData <-
     (match printData payload with
      | Some s => ret (base64 env s)
      | None => throw TypeError
      end) ;;
   pngData <- lift (Combined.convertStarprntToPng env rawData rotate180) ;;
   call (WriteFile "img-" pngData) (writeFileSync env "img-" pngData) ;;;
   set_code "200")%task.

(** The [finally] of [handlePrintJob]. *)
Definition printJobFinally (payload : Payload) : Task World unit :=
  (statusCode <- get_code ;;
   let result := PrintResult (jobTokenOf payload)
                             (String.prefix "200" statusCode) statusCode in
   awaitCall (Publish Combined.printResultTopic result)
             (publishAsync env Combined.printResultTopic result) ;;;
   awaitCall (Publish Combined.clientStatusTopic (ClientStatus false))
             (publishAsync env Combined.clientStatusTopic (ClientStatus false)))%task.

Definition handlePrintJob (payload : Payload) (rotate180 : bool) : Task World unit :=
  (set_code "500" ;;;
   try_finally (printJobBody payload rotate180) (printJobFinally payload))%task.

Definition handleMqttMessage (payload : Payload) (rotate180 : bool)
  : Task World unit :=
  match title payload with
  | Some t =>
      if String.eqb t "print-job" then await (handlePrintJob payload rotate180)
      else throw (UnsupportedMessageType (title payload))
  | None => throw (UnsupportedMessageType (title payload))
  end.

(** The handler that [runMqttMode] installs for an event of the client.
    The value is [Some err] when the handler calls [reject(err)]. *)
Definition handler (rotate180 : bool) (ev : Combined.ClientEvent)
  : Task World (option Exn) :=
  (match ev with
   | Combined.OnConnect =>
       emit (Subscribe Combined.deviceTopic) ;;;
       emit (Publish Combined.clientStatusTopic (ClientStatus false)) ;;;
       ret None
   | Combined.SubscribeCallback (Some err) => ret (Some err)
   | Combined.SubscribeCallback None => ret None
   | Combined.OnMessage _ parsed =>
       try_catch
         (payload <- lift parsed ;; await (handleMqttMessage payload rotate180))
         (fun error => emit (ConsoleError error)) ;;;
       ret None
   | Combined.OnError err => emit (ConsoleError err) ;;; ret (Some err)
   | Combined.OnClose => ret None     (* console.log only *)
   end)%task.

(** Where the top-level code is. *)
Inductive Orchestrator :=
| Suspended                     (* in [await runMqttMode(...)], the promise pending *)
| Caught (error : Exn)          (* the promise is rejected, the [catch] not yet entered *)
| Polling (turn : Task World unit) (code : string)
                                (* in the [while (true)] of [runHttpPolling] *)
| Ended (exitCode : Z).         (* after the top-level [catch] *)

(** Who did it: the top-level code, or a handler of the client. *)
Inductive Party := Main | Handlers.

Definition sameParty (a b : Party) : bool :=
  match a, b with
  | Main, Main | Handlers, Handlers => true
  | _, _ => false
  end.

(** The process: the world outside, the top-level code, the calls of
    the handlers so far (oldest first, each with its own [statusCode]),
    and everything done so far, oldest first. *)
Record System := mkSystem
  { outside : World;
    orchestrator : Orchestrator;
    handlers : list (Task World (option Exn) * string);
    history : list (Party * Event) }.

(** What the event loop does next: the client emits an event, the
    [i]-th handler call is resumed, or the top-level code is. *)
Inductive Tick :=
| Arrives (ev : Combined.ClientEvent)
| Resumes (i : nat)
| Wakes.

Definition tag (who : Party) (l : list Event) : list (Party * Event) :=
  map (fun e => (who, e)) l.

(** [reject(err)]: a promise that is settled stays as it is. *)
Definition reject (o : Orchestrator) (err : Exn) : Orchestrator :=
  match o with
  | Suspended => Caught err
  | _ => o
  end.

(** A handler call that has ended in [reject(err)]. *)
Definition rejected (t : Task World (option Exn)) : option Exn :=
  match t with
  | Done (inr (Some err)) => Some err
  | _ => None
  end.

Definition settle (o : Orchestrator) (t : Task World (option Exn)) : Orchestrator :=
  match rejected t with
  | Some err => reject o err
  | None => o
  end.

Fixpoint replace {A} (l : list A) (i : nat) (a : A) : list A :=
  match l, i with
  | [], _ => []
  | _ :: rest, O => a :: rest
  | x :: rest, S i' => x :: replace rest i' a
  end.

Section Run.
Variable u : Url.
Variable delay : Z.
Variable rotate180 : bool.

(** The top-level code goes on: into the [catch] of the MQTT attempt
    (log, then [runHttpPolling] up to its first [await]), or with the
    turn of the polling loop it is suspended in, and from the end of a
    turn straight into the next.  An exception out of [runHttpPolling]
    would reach the top-level [catch]. *)
Definition wake (sys : System) : System :=
  match orchestrator sys with
  | Suspended => sys
  | Caught error =>
      let '(t, w, c, l) := advance (pollCycle u delay rotate180) (outside sys) "" in
      {| outside := w; orchestrator := Polling t c; handlers := handlers sys;
         history := history sys ++ tag Main (ConsoleError error :: l) |}
  | Polling turn c =>
      let '(t, w, c, l) := resume turn (outside sys) c in
      match t with
      | Done (inr _) =>
          let '(t', w', c', l') := advance (pollCycle u delay rotate180) w c in
          {| outside := w'; orchestrator := Polling t' c'; handlers := handlers sys;
             history := history sys ++ tag Main (l ++ l') |}
      | Done (inl e) =>
          {| outside := w; orchestrator := Ended 1; handlers := handlers sys;
             history := history sys ++ tag Main (l ++ [ConsoleError e]) |}
      | _ =>
          {| outside := w; orchestrator := Polling t c; handlers := handlers sys;
             history := history sys ++ tag Main l |}
      end
  | Ended _ => sys
  end.

Definition step (sys : System) (tick : Tick) : System :=
  match tick with
  | Arrives ev =>
      let '(t, w, c, l) := advance (handler rotate180 ev) (outside sys) "" in
      {| outside := w; orchestrator := settle (orchestrator sys) t;
         handlers := handlers sys ++ [(t, c)];
         history := history sys ++ tag Handlers l |}
  | Resumes i =>
      match nth_error (handlers sys) i with
      | None | Some (Done _, _) => sys
      | Some (t, c) =>
          let '(t', w, c', l) := resume t (outside sys) c in
          {| outside := w; orchestrator := settle (orchestrator sys) t';
             handlers := replace (handlers sys) i (t', c');
             history := history sys ++ tag Handlers l |}
      end
  | Wakes => wake sys
  end.

Definition exec (schedule : list Tick) (sys : System) : System :=
  fold_left step schedule sys.

End Run.

(** The process when [runMqttMode] has returned its promise. *)
Definition started (w : World) : System :=
  {| outside := w; orchestrator := Suspended; handlers := []; history := [] |}.

(** What one party did, oldest first. *)
Definition did (who : Party) (sys : System) : list Event :=
  map snd (filter (fun x => sameParty (fst x) who) (history sys)).

End Program.

Arguments Suspended {World}.
Arguments Caught {World} error.
Arguments Ended {World} exitCode.

(** Every event the function can still produce satisfies [P], and every
    completion it can still reach satisfies [Q]. *)
Inductive behaves {World A} (P : Event -> Prop) (Q : result A -> Prop)
  : Task World A -> Prop :=
| behaves_Done r : Q r -> behaves P Q (Done r)
| behaves_Emit e k : P e -> behaves P Q k -> behaves P Q (Emit e k)
| behaves_Apply X (op : World -> result X * World) k :
    (forall r, behaves P Q (k r)) -> behaves P Q (Apply op k)
| behaves_Yield k : behaves P Q k -> behaves P Q (Yield k)
| behaves_SetCode c k : behaves P Q k -> behaves P Q (SetCode c k)
| behaves_GetCode k : (forall c, behaves P Q (k c)) -> behaves P Q (GetCode k).

End EventLoop.

(* ================================================================== *)
(** * index.js (text/plain polling with the clientAction sub-protocol) *)
(* ================================================================== *)

Module IndexJs.

Definition PRINTER_MAC : string := "00:11:62:00:00:00".

(** [if (user && pass)]: the Authorization header, when both are given. *)
Definition basic (user pass : option string) : option (string * string) :=
  match user, pass with
  | Some u, Some p => if truthy user && truthy pass then Some (u, p) else None
  | _, _ => None
  end.

Definition statusRequest (u : Url) (customBody : option (list ClientActionResult))
           (user pass : option string) : Request :=
  {| method := POST; url := u;
     body := Some {| printingInProgress := false; statusCode := "200%20OK";
                     printerMAC := Some PRINTER_MAC;
                     status := Some "21 6 0 0 0 0 0 0 0";
                     actions := customBody |};
     authorization := basic user pass; timeout := None |}.

Definition withToken (u : Url) (jobToken : option string) : Url :=
  match jobToken with
  | Some t => if truthy jobToken then append_param u "token" t else u
  | None => u
  end.

Definition jobRequest (u : Url) (jobToken user pass : option string) : Request :=
  {| method := GET;
     url := withToken (append_param (append_param u "type" textType) "mac" PRINTER_MAC)
                      jobToken;
     body := None; authorization := basic user pass; timeout := None |}.

Definition ackRequest (u : Url) (code : string) (jobToken user pass : option string)
  : Request :=
  {| method := DELETE;
     url := withToken (append_param (append_param u "code" code) "mac" PRINTER_MAC)
                      jobToken;
     body := None; authorization := basic user pass; timeout := None |}.

(** The [switch] on [status.clientAction[i].request]: the element pushed
    on [data.clientAction], if any. *)
Definition answer (delay : Z) (r : ClientActionRequest) : option ClientActionResult :=
  match request r with
  | None => None
  | Some name =>
      if String.eqb name "GetPollInterval" then
        Some {| answered := "GetPollInterval"; value := NumberValue delay |}
      else if String.eqb name "Encodings" then
        Some {| answered := "Encodings"; value := StringValue "text/plain" |}
      else if String.eqb name "ClientType" then
        Some {| answered := "ClientType"; value := StringValue "Star Printer Emulator" |}
      else if String.eqb name "ClientVersion" then
        Some {| answered := "ClientVersion"; value := StringValue "HIX" |}
      else None
  end.

(** The [for] loop over [status.clientAction]; [data] is
    [data.clientAction], [push] appends. *)
Fixpoint answerAll (delay : Z) (requests : list ClientActionRequest)
         (data : list ClientActionResult) : list ClientActionResult :=
  match requests with
  | [] => data
  | r :: rest =>
      answerAll delay rest
                (match answer delay r with
                 | Some a => data ++ [a]
                 | None => data
                 end)
  end.

Section Program.
Variables World Body : Type.
Variable env : Env World Body.
(** [--username] and [--password], [None] when not given. *)
Variables user pass : option string.

Definition post (u : Url) (customBody : option (list ClientActionResult))
  : M World PollStatus :=
  let r := statusRequest u customBody user pass in
  response <- call (Fetch r) (fetch env r) ;;
  if negb (ok response) then throw (RequestFailed POST (statusOf response))
  else lift (json_status env (bodyOf response)).

Definition get (u : Url) (jobToken : option string) : M World (list byte) :=
  let r := jobRequest u jobToken user pass in
  response <- call (Fetch r) (fetch env r) ;;
  if negb (ok response) then throw (RequestFailed GET (statusOf response))
  else lift (buffer env (bodyOf response)).

Definition delete_ (u : Url) (code : string) (jobToken : option string)
  : M World unit :=
  let r := ackRequest u code jobToken user pass in
  response <- call (Fetch r) (fetch env r) ;;
  if negb (ok response) then throw (RequestFailed DELETE (statusOf response))
  else ret tt.

(** The [if (!status.jobReady)] branch, up to [continue]. *)
Definition idle (u : Url) (delay : Z) (status : PollStatus) : M World unit :=
  (match clientAction status with
   | Missing => ret tt
   | Null => throw TypeError       (* status.clientAction.length on null *)
   | Present (r :: rest) =>
       let data := answerAll delay (r :: rest) [] in
       post u (Some data) ;;; ret tt
   | Present [] => ret tt
   end) ;;;
  sleep delay.

Definition serviceBody (u : Url) (status : PollStatus) : M World unit :=
  (match mediaTypes status with
   | Some types =>
       if negb (includes types textType) then
         set_code "510" ;;; throw (UnsupportedMediaTypes (Some types))
       else ret tt
   | None => ret tt
   end) ;;;
  data <- get u (jobToken status) ;;
  call (WriteFile "print-" data) (writeFileSync env "print-" data) ;;;
  set_code "200".

Definition service (u : Url) (status : PollStatus) : M World unit :=
  set_code "500" ;;;
  try_finally
    (serviceBody u status)
    (code <- get_code ;; delete_ u code (jobToken status)).

(** One turn of the [while (true)] loop. *)
Definition pollCycle (u : Url) (delay : Z) : M World unit :=
  try_catch
    (status <- post u None ;;
     if negb (jobReady status) then idle u delay status
     else service u status)
    (fun error => emit (ConsoleError error) ;;; sleep delay).

Fixpoint pollLoop (fuel : nat) (u : Url) (delay : Z) : M World unit :=
  match fuel with
  | O => ret tt
  | S fuel' => pollCycle u delay ;;; pollLoop fuel' u delay
  end.

End Program.
End IndexJs.

(* ================================================================== *)
(** * Observations on traces *)
(* ================================================================== *)

Definition isMethod (m : Method) (e : Event) : bool :=
  match e with
  | Fetch r =>
      match method r, m with
      | GET, GET | POST, POST | DELETE, DELETE => true
      | _, _ => false
      end
  | _ => false
  end.

(** The DELETE, GET and POST requests of a trace, in order. *)
Definition deletes (t : list Event) : list Event := filter (isMethod DELETE) t.
Definition gets (t : list Event) : list Event := filter (isMethod GET) t.
Definition posts (t : list Event) : list Event := filter (isMethod POST) t.

Definition isPrintResult (e : Event) : bool :=
  match e with
  | Publish _ (PrintResult _ _ _) => true
  | _ => false
  end.

Definition isNotPrinting (e : Event) : bool :=
  match e with
  | Publish _ (ClientStatus false) => true
  | _ => false
  end.

Definition printResults (t : list Event) : list Event := filter isPrintResult t.
Definition notPrinting (t : list Event) : list Event := filter isNotPrinting t.

Definition initial {World} (w : World) : St World := {| world := w; code := "" |}.

(** A status that names media types, none of them supported by
    [runHttpPolling] (resp. by index.js). *)
Definition neitherSupported (status : PollStatus) : bool :=
  match mediaTypes status with
  | Some types => negb (includes types starprntType || includes types pngType)
  | None => false
  end.

Definition textUnsupported (status : PollStatus) : bool :=
  match mediaTypes status with
  | Some types => negb (includes types textType)
  | None => false
  end.

(** The clientAction requests the emulator knows, with its answers. *)
Definition knownRequests (delay : Z) : list (string * ActionValue) :=
  [ ("GetPollInterval", NumberValue delay);
    ("Encodings", StringValue "text/plain");
    ("ClientType", StringValue "Star Printer Emulator");
    ("ClientVersion", StringValue "HIX") ].

(** The answers owed to a list of requests: one per recognized request,
    in the order of the requests; the others are passed over. *)
Definition expectedAnswers (delay : Z) (requests : list ClientActionRequest)
  : list ClientActionResult :=
  flat_map
    (fun r =>
       match request r with
       | Some name =>
           match find (fun kv => String.eqb name (fst kv)) (knownRequests delay) with
           | Some (k, v) => [ {| answered := k; value := v |} ]
           | None => []
           end
       | None => []
       end)
    requests.

(** An event of the MQTT client whose handler rejects the promise of
    [runMqttMode], with the error it rejects with. *)
Definition rejection (ev : Combined.ClientEvent) : option Exn :=
  match ev with
  | Combined.OnError err => Some err
  | Combined.SubscribeCallback (Some err) => Some err
  | _ => None
  end.

(** A tick at which a handler calls [reject] as it starts. *)
Definition rejecting (tick : EventLoop.Tick) : bool :=
  match tick with
  | EventLoop.Arrives ev =>
      match rejection ev with Some _ => true | None => false end
  | _ => false
  end.

Definition isFetch (e : Event) : bool :=
  match e with Fetch _ => true | _ => false end.

(** The handler calls under way send no HTTP request and never call
    [reject]: each is done, or can only end without a rejection. *)
Definition calm {World} (sys : EventLoop.System World) : Prop :=
  Forall (fun h => (exists r, fst h = EventLoop.Done r) \/
                   EventLoop.behaves (fun e => isFetch e = false)
                                     (fun r => r = inr None) (fst h))
         (EventLoop.handlers sys).

(* ================================================================== *)
(** * A scripted world, to run the programs on concrete inputs *)
(* ================================================================== *)

Module Script.

(** What a scripted server holds in a response body. *)
Inductive Body :=
| StatusJson (s : PollStatus)
| SettingsJson (s : Settings)
| Bytes (b : list byte)
| Garbage.

(** The scripted world: the completions of the coming [fetch] calls and
    of the coming [publishAsync] calls, in order.  When a script is used
    up the call fails. *)
Record World := mkWorld
  { responses : list (result (Response Body));
    publishes : list (result unit) }.

(** An engine that refuses typed arrays of 2^32 bytes and more. *)
Definition limited (n : Z) : bool := n <? 2 ^ 32.

Definition env : Env World Body :=
  {| fetch := fun _ w =>
       match responses w with
       | r :: rest => (r, {| responses := rest; publishes := publishes w |})
       | [] => (inl (External "network"), w)
       end;
     json_status := fun b =>
       match b with StatusJson s => inr s | _ => inl (External "json") end;
     json_settings := fun b =>
       match b with SettingsJson s => inr s | _ => inl (External "json") end;
     buffer := fun b =>
       match b with Bytes l => inr l | _ => inr [] end;
     writeFileSync := fun _ _ w => (inr tt, w);
     lodepng_decode := fun _ => inl (External "lodepng");
     lodepng_encode := fun img => inr (Starprnt.data img);
     rotate180_image := fun img => img;
     allocates := limited;
     publishAsync := fun _ _ w =>
       match publishes w with
       | r :: rest => (r, {| responses := responses w; publishes := rest |})
       | [] => (inl (External "mqtt"), w)
       end;
     (* the test double reads the text as the bytes themselves *)
     base64 := list_byte_of_string |}.

Definition pollUrl : Url :=
  {| origin := "http://localhost"; pathname := ["cloudprnt"; "poll"]; query := [] |}.

(** An 8 x 2 raster: header, then the rows 0xa5 and 0x0f. *)
Definition raster : Starprnt.Uint8Array :=
  [x1b; x1d; x53; x01; x01; x00; x02; x00; x00; xa5; x0f].

(** A header that declares 8 x 1 pixels, with no pixel data behind it. *)
Definition truncated : Starprnt.Uint8Array :=
  [x1b; x1d; x53; x01; x01; x00; x01; x00; x00].

(** A header alone, which declares 524280 x 65535 pixels. *)
Definition oversized : Starprnt.Uint8Array :=
  [x1b; x1d; x53; x01; xff; xff; xff; xff; x00].

(** An 8 x 1 raster whose only data byte is 0x01. *)
Definition lowBit : Starprnt.Uint8Array :=
  [x1b; x1d; x53; x01; x01; x00; x01; x00; x00; x01].

(** A buffer whose byte 8 is not 0. *)
Definition malformed : Starprnt.Uint8Array :=
  [x1b; x1d; x53; x01; x01; x00; x01; x00; x01; xff].

Definition respond (status : Z) (b : Body) : result (Response Body) :=
  inr {| statusOf := status; bodyOf := b |}.

Definition job (types : option (list string)) : PollStatus :=
  {| jobReady := true; jobToken := Some "abc"; mediaTypes := types;
     clientAction := Missing |}.

Definition asking (names : list (option string)) : PollStatus :=
  {| jobReady := false; jobToken := None; mediaTypes := None;
     clientAction := Present (map mkActionRequest names) |}.

Definition server (l : list (result (Response Body))) : World :=
  {| responses := l; publishes := [] |}.

Definition broker (l : list (result unit)) : World :=
  {| responses := []; publishes := l |}.

(** cloudprnt-setting.json of a server that offers MQTT. *)
Definition mqttOffer (triggerPost : bool) : Body :=
  SettingsJson
    {| serverSupportProtocol := Some ["HTTP"; "MQTT"];
       settingForMQTT :=
         Some {| useTriggerPOST := Some triggerPost;
                 mqttConnectionSetting :=
                   Some {| hostName := Some "broker"; portNumber := None;
                           useTls := false; authenticationSetting := None |} |} |}.

Definition printJob (jobType : string) (types : list string) : Payload :=
  {| title := Some "print-job"; jobTokenOf := Some "abc"; jobType := Some jobType;
     mediaTypesOf := Some types;
     printData := Some (string_of_list_byte raster) |}.

(** The answer that carries the status [s], and a server that gives it
    first and then goes on as [next]. *)
Definition answerOf (s : PollStatus) : Response Body :=
  {| statusOf := 200; bodyOf := StatusJson s |}.

Definition serving (s : PollStatus) (next : World) : World :=
  {| responses := inr (answerOf s) :: responses next; publishes := publishes next |}.

Definition rasterJob : PollStatus := job (Some [starprntType]).
Definition pngJob : PollStatus := job (Some [pngType]).

(** A server that hands out the raster and accepts the DELETE; one that
    accepts a DELETE; one that has nothing to say. *)
Definition handsOutRaster : World :=
  server [respond 200 (Bytes raster); respond 200 Garbage].
Definition acknowledges : World := server [respond 200 Garbage].
Definition quiet : World := server [inr (answerOf (asking []))].

Definition mqttSetting : MqttConnectionSetting :=
  {| hostName := Some "broker"; portNumber := None;
     useTls := false; authenticationSetting := None |}.

(** A server that offers MQTT and then, over HTTP, a raster job. *)
Definition mqttServer : World :=
  server (respond 200 (mqttOffer false) :: responses (serving rasterJob handsOutRaster)).

(** A server that asks for Trigger POST mode, every time; and one that
    asks once and then has no settings endpoint. *)
Definition refusal : result (Response Body) := respond 200 (mqttOffer true).
Definition insists : World := server [refusal; refusal; refusal].
Definition relents : World :=
  server [refusal; respond 404 Garbage; inr (answerOf (asking []))].

(** Brokers: one that takes three publishes, one that fails the second. *)
Definition takesAll : World := broker [inr tt; inr tt; inr tt].
Definition failsSecond : World := broker [inr tt; inl (External "mqtt")].

(** Schedules of the event loop: the client connects and subscribes,
    then the connection fails, resp. is closed; the top-level code is
    woken afterwards. *)
Definition connects : list EventLoop.Tick :=
  [EventLoop.Arrives Combined.OnConnect;
   EventLoop.Arrives (Combined.SubscribeCallback None)].
Definition connectionError : list EventLoop.Tick :=
  connects ++ [EventLoop.Arrives (Combined.OnError (External "ECONNRESET"));
               EventLoop.Wakes].
Definition connectionDropped : list EventLoop.Tick :=
  connects ++ [EventLoop.Arrives Combined.OnClose; EventLoop.Wakes].

End Script.

(* ================================================================== *)
(** * The first entry point (PNG only, HTTP polling only) *)
(* ================================================================== *)

Module PngOnly.

Definition PRINTER_MAC : string := "00:00:00:00:00:00".

Definition statusRequest (u : Url) : Request :=
  {| method := POST; url := u;
     body := Some {| printingInProgress := false; statusCode := "200%20OK";
                     printerMAC := None; status := None; actions := None |};
     authorization := None; timeout := None |}.

Definition withToken (u : Url) (jobToken : option string) : Url :=
  match jobToken with
  | Some t => if truthy jobToken then append_param u "token" t else u
  | None => u
  end.

Definition jobRequest (u : Url) (jobToken : option string) : Request :=
  {| method := GET;
     url := withToken (append_param (append_param u "type" pngType) "mac" PRINTER_MAC)
                      jobToken;
     body := None; authorization := None; timeout := None |}.

Definition ackRequest (u : Url) (code : string) (jobToken : option string) : Request :=
  {| method := DELETE;
     url := withToken (append_param (append_param u "code" code) "mac" PRINTER_MAC) jobToken;
     body := None; authorization := None; timeout := None |}.

Section Program.
Variables World Body : Type.
Variable env : Env World Body.

Definition post (u : Url) : M World PollStatus :=
  let r := statusRequest u in
  response <- call (Fetch r) (fetch env r) ;;
  if negb (ok response) then throw (RequestFailed POST (statusOf response))
  else lift (json_status env (bodyOf response)).

Definition get (u : Url) (jobToken : option string) : M World (list byte) :=
  let r := jobRequest u jobToken in
  response <- call (Fetch r) (fetch env r) ;;
  if negb (ok response) then throw (RequestFailed GET (statusOf response))
  else lift (buffer env (bodyOf response)).

Definition delete_ (u : Url) (code : string) (jobToken : option string)
  : M World unit :=
  let r := ackRequest u code jobToken in
  response <- call (Fetch r) (fetch env r) ;;
  if negb (ok response) then throw (RequestFailed DELETE (statusOf response))
  else ret tt.

(** The body of the inner [try]. *)
Definition serviceBody (u : Url) (rotate180 : bool) (status : PollStatus)
  : M World unit :=
  (match mediaTypes status with
   | Some types =>
       if negb (includes types pngType) then
         set_code "510" ;;; throw (UnsupportedMediaTypes (Some types))
       else ret tt
   | None => ret tt
   end) ;;;
  pngData <- get u (jobToken status) ;;
  pngData <-
    (if rotate180 then
       imageData <- lift (lodepng_decode env pngData) ;;
       lift (lodepng_encode env (rotate180_image env imageData))
     else ret pngData) ;;
  call (WriteFile "img-" pngData) (writeFileSync env "img-" pngData) ;;;
  set_code "200".

Definition service (u : Url) (rotate180 : bool) (status : PollStatus)
  : M World unit :=
  set_code "500" ;;;
  try_finally
    (serviceBody u rotate180 status)
    (code <- get_code ;; delete_ u code (jobToken status)).

(** One turn of the [while (true)] loop. *)
Definition pollCycle (u : Url) (delay : Z) (rotate180 : bool) : M World unit :=
  try_catch
    (status <- post u ;;
     if negb (jobReady status) then sleep delay
     else service u rotate180 status)
    (fun error => emit (ConsoleError error) ;;; sleep delay).

Fixpoint pollLoop (fuel : nat) (u : Url) (delay : Z) (rotate180 : bool)
  : M World unit :=
  match fuel with
  | O => ret tt
  | S fuel' => pollCycle u delay rotate180 ;;; pollLoop fuel' u delay rotate180
  end.

End Program.
End PngOnly.

(* ================================================================== *)
(** * More observations *)
(* ================================================================== *)

Definition isSleep (e : Event) : bool :=
  match e with Sleep _ => true | _ => false end.

Definition isWrite (e : Event) : bool :=
  match e with WriteFile _ _ => true | _ => false end.

(** Anything done to the MQTT broker. *)
Definition isMqtt (e : Event) : bool :=
  match e with
  | MqttConnect _ | Subscribe _ | Publish _ _ => true
  | _ => false
  end.

(** [v] is the poll URL [u] with search parameters appended. *)
Definition extends (u v : Url) : Prop :=
  origin v = origin u /\ pathname v = pathname u /\
  exists params, query v = query u ++ params.

(** A request to the poll URL (with more parameters) that carries the
    Authorization header [auth]; any other event. *)
Definition toPollUrl (u : Url) (auth : option (string * string)) (e : Event) : Prop :=
  match e with
  | Fetch r => extends u (url r) /\ authorization r = auth
  | _ => True
  end.

(** How one attempt of [getServerSettings] ends, read off the
    completion of its [fetch]: with a value to return, or with an error
    (thrown by [fetch], by [response.json()], by [parseServerSettings],
    or made from the status). *)
Definition attemptValue {World Body} (env : Env World Body)
           (res : result (Response Body)) : option ServerSettings :=
  match res with
  | inl _ => None
  | inr response =>
      if statusOf response =? 404 then Some {| useMQTT := false; mqttSettings := None |}
      else if statusOf response =? 200 then
        match json_settings env (bodyOf response) with
        | inl _ => None
        | inr settings =>
            match Combined.parseServerSettings settings with
            | inl _ => None
            | inr parsed => Some parsed
            end
        end
      else None
  end.

Definition attemptError {World Body} (env : Env World Body)
           (res : result (Response Body)) : option Exn :=
  match res with
  | inl e => Some e
  | inr response =>
      if statusOf response =? 404 then None
      else if statusOf response =? 200 then
        match json_settings env (bodyOf response) with
        | inl e => Some e
        | inr settings =>
            match Combined.parseServerSettings settings with
            | inl e => Some e
            | inr _ => None
            end
        end
      else if statusOf response >=? 500 then Some (ServerError (statusOf response))
      else Some (UnexpectedResponse (statusOf response))
  end.

(** The request names the clientAction loop of index.js answers. *)
Definition recognized (name : string) : bool :=
  String.eqb name "GetPollInterval" || String.eqb name "Encodings"
  || String.eqb name "ClientType" || String.eqb name "ClientVersion".

(** A print job [handlePrintJob] accepts: raw, with the StarPRNT type
    as its only media type. *)
Definition acceptable (payload : Payload) : bool :=
  match jobType payload, mediaTypesOf payload with
  | Some t, Some [type] => String.eqb t "raw" && String.eqb type starprntType
  | _, _ => false
  end.

(** Every event a computation produces satisfies [P], whatever the
    state it starts from. *)
Definition always {World A} (P : Event -> Prop) (m : M World A) : Prop :=
  forall s, Forall P (trace_of (m s)).

(** How a status POST fails, read off the completion of its [fetch]:
    [fetch] throws, the status is not 2xx, or the body does not parse. *)
Definition pollError {World Body} (env : Env World Body)
           (res : result (Response Body)) : option Exn :=
  match res with
  | inl e => Some e
  | inr response =>
      if negb (ok response) then Some (RequestFailed POST (statusOf response))
      else match json_status env (bodyOf response) with
           | inl e => Some e
           | inr _ => None
           end
  end.

(** The names asked for in a clientAction array, in order. *)
Definition requested (requests : list ClientActionRequest) : list string :=
  flat_map (fun r => match request r with Some name => [name] | None => [] end)
           requests.


(* ================================================================== *)
(** * More scripted servers and jobs *)
(* ================================================================== *)

Module Cases.
Import Script.


(** cloudprnt-setting.json of a server that speaks HTTP only but asks
    for Trigger POST, and of one that lists MQTT with no settings. *)
Definition httpOnly : Body :=
  SettingsJson
    {| serverSupportProtocol := Some ["HTTP"];
       settingForMQTT :=
         Some {| useTriggerPOST := Some true; mqttConnectionSetting := None |} |}.

Definition mqttUnset : Body :=
  SettingsJson {| serverSupportProtocol := Some ["MQTT"]; settingForMQTT := None |}.

(** Settings endpoints: absent; HTTP only; failing three times (a
    timeout, a 503, a redirect); failing once. *)
Definition notFound : World := server [respond 404 Garbage].
Definition plain : World := server [respond 200 httpOnly].
Definition unset : World := server [respond 200 mqttUnset].
Definition failing : World :=
  server [inl (External "timeout"); respond 503 Garbage; respond 302 Garbage].
Definition recovering : World := server [respond 503 Garbage; respond 404 Garbage].

(** A poll endpoint that is down. *)
Definition down : World := server [respond 500 Garbage].

(** The pixels of a PNG, and a server that hands them out. *)
Definition png : list byte := [x00; x00; x00; xff; xff; xff; xff; xff].

(** A raw StarPRNT job whose data is not a raster. *)
Definition junkJob : Payload :=
  {| title := Some "print-job"; jobTokenOf := Some "abc"; jobType := Some "raw";
     mediaTypesOf := Some [starprntType]; printData := Some "junk" |}.

(** A message that is no print job. *)
Definition ping : Payload :=
  {| title := Some "ping"; jobTokenOf := None; jobType := None;
     mediaTypesOf := None; printData := None |}.


End Cases.


(* ================================================================== *)
(** * The raster decoder: proofs *)
(* ================================================================== *)

Module StarprntFacts.
Import Starprnt.

Lemma u8_range b : 0 <= u8 b < 256.
Proof.
  unfold u8. pose proof (Byte.to_N_bounded b). lia.
Qed.

Lemma u8_inj b c : u8 b = u8 c -> b = c.
Proof.
  unfold u8. intros H. apply N2Z.inj in H.
  assert (E : Byte.of_N (Byte.to_N b) = Byte.of_N (Byte.to_N c)) by now rewrite H.
  rewrite !Byte.of_to_N in E. congruence.
Qed.

Lemma index_of_nat input (i : nat) :
  index input (Z.of_nat i) = option_map u8 (nth_error input i).
Proof.
  unfold index. destruct (Z.ltb_spec (Z.of_nat i) 0); [lia|].
  now rewrite Nat2Z.id.
Qed.

Lemma differs_false input (i : nat) (c : byte) :
  differs input (Z.of_nat i) (u8 c) = false <-> nth_error input i = Some c.
Proof.
  unfold differs. rewrite index_of_nat.
  destruct (nth_error input i) as [b|]; simpl; split; try discriminate.
  - intros H. apply negb_false_iff, Z.eqb_eq, u8_inj in H. now subst.
  - intros [= ->]. now rewrite Z.eqb_refl.
Qed.

Lemma badHeader_false input : badHeader input = false <-> magic input.
Proof.
  unfold magic.
  change (badHeader input) with
    (differs input (Z.of_nat 0) (u8 x1b) || differs input (Z.of_nat 1) (u8 x1d)
     || differs input (Z.of_nat 2) (u8 x53) || differs input (Z.of_nat 3) (u8 x01)
     || differs input (Z.of_nat 8) (u8 x00)).
  rewrite !orb_false_iff.
  rewrite !differs_false. tauto.
Qed.

Lemma store4 pre a b c d post v1 v2 v3 v4 :
  store (store (store (store (pre ++ a :: b :: c :: d :: post)
                             (length pre) v1)
                      (length pre + 1) v2)
               (length pre + 2) v3)
        (length pre + 3) v4
  = pre ++ v1 :: v2 :: v3 :: v4 :: post.
Proof.
  induction pre as [|x pre IH]; simpl.
  - reflexivity.
  - now rewrite IH.
Qed.

Lemma decodeLoop_rendered input k : forall fuel pre inPtr,
  (k <= fuel)%nat ->
  decodeLoop fuel input (pre ++ repeat x00 (4 * k)) (length pre) inPtr
  = pre ++ rendered input k inPtr.
Proof.
  induction k as [|k IH]; intros fuel pre inPtr Hk.
  - simpl. destruct fuel as [|fuel]; simpl; [reflexivity|].
    rewrite app_nil_r, Nat.ltb_irrefl. reflexivity.
  - destruct fuel as [|fuel]; [lia|].
    replace (4 * S k)%nat with (S (S (S (S (4 * k))))) by lia.
    cbn [decodeLoop repeat rendered].
    assert (Hlt : (length pre <? length (pre ++ x00 :: x00 :: x00 :: x00 :: repeat x00 (4 * k)))%nat = true).
    { apply Nat.ltb_lt. rewrite length_app. simpl. lia. }
    rewrite Hlt, store4.
    set (px := pixelOf input inPtr).
    change (pre ++ px :: px :: px :: xff :: repeat x00 (4 * k))
      with (pre ++ [px; px; px; xff] ++ repeat x00 (4 * k)).
    rewrite app_assoc.
    replace (length pre + 4)%nat with (length (pre ++ [px; px; px; xff]))
      by (rewrite length_app; reflexivity).
    rewrite IH by lia.
    now rewrite <- app_assoc.
Qed.

Lemma rendered_length input k : forall inPtr,
  length (rendered input k inPtr) = (4 * k)%nat.
Proof.
  induction k as [|k IH]; intros inPtr; simpl; [reflexivity|].
  rewrite IH. lia.
Qed.

Lemma rendered_pixel input : forall p k inPtr,
  (p < k)%nat ->
  pixel (rendered input k inPtr) p
  = let px := pixelOf input (inPtr + Z.of_nat p) in [px; px; px; xff].
Proof.
  unfold pixel.
  induction p as [|p IH]; intros k inPtr Hp; (destruct k as [|k]; [lia|]).
  - simpl. now rewrite Z.add_0_r.
  - replace (4 * S p)%nat with (S (S (S (S (4 * p))))) by lia.
    cbn [rendered skipn]. rewrite IH by lia.
    cbv zeta. replace (inPtr + 1 + Z.of_nat p) with (inPtr + Z.of_nat (S p)) by lia.
    reflexivity.
Qed.

Lemma ToInt32_small z : 0 <= z < 2 ^ 31 -> ToInt32 z = z.
Proof.
  intros H. unfold ToInt32.
  rewrite Z.mod_small by lia.
  destruct (Z.ltb_spec z (2 ^ 31)); lia.
Qed.

Lemma ToInt32_high z : 2 ^ 31 <= z < 2 ^ 32 -> ToInt32 z < 0.
Proof.
  intros H. unfold ToInt32.
  rewrite Z.mod_small by lia.
  destruct (Z.ltb_spec z (2 ^ 31)); lia.
Qed.

Lemma land1_testbit v k : 0 <= k ->
  (Z.land (Z.shiftr v k) 1 =? 0) = negb (Z.testbit v k).
Proof.
  intros Hk.
  change 1 with (Z.ones 1). rewrite Z.land_ones by lia.
  change (2 ^ 1) with 2. rewrite <- Z.bit0_mod, Z.shiftr_spec by lia.
  simpl. destruct (Z.testbit v k); reflexivity.
Qed.

Lemma inPtr_split (k : nat) :
  (9 * 8 + Z.of_nat k) / 8 = Z.of_nat (9 + k / 8) /\
  (9 * 8 + Z.of_nat k) mod 8 = Z.of_nat (k mod 8).
Proof.
  rewrite Nat2Z.inj_add, Nat2Z.inj_div, Nat2Z.inj_mod.
  change (Z.of_nat 8) with 8. change (Z.of_nat 9) with 9.
  split.
  - rewrite Z.div_add_l by lia. reflexivity.
  - rewrite Z.add_comm, Z.mod_add by lia. reflexivity.
Qed.

(** A pixel whose source byte exists, below index 2^31. *)
Lemma pixelOf_present input (k : nat) b :
  nth_error input (9 + k / 8) = Some b ->
  Z.of_nat (9 + k / 8) < 2 ^ 31 ->
  pixelOf input (9 * 8 + Z.of_nat k)
  = if Z.testbit (u8 b) (7 - Z.of_nat (k mod 8)) then x00 else xff.
Proof.
  intros Hb Hi. unfold pixelOf.
  destruct (inPtr_split k) as [-> ->].
  rewrite ToInt32_small by (split; [lia | exact Hi]).
  unfold int32At. rewrite index_of_nat, Hb. cbn [option_map].
  assert (k mod 8 < 8)%nat by (apply Nat.mod_upper_bound; lia).
  rewrite land1_testbit by lia.
  destruct (Z.testbit _ _); reflexivity.
Qed.

(** A pixel whose source byte lies beyond the end of the buffer. *)
Lemma pixelOf_absent input (k : nat) :
  nth_error input (9 + k / 8) = None ->
  Z.of_nat (9 + k / 8) < 2 ^ 32 ->
  pixelOf input (9 * 8 + Z.of_nat k) = xff.
Proof.
  intros Hb Hi. unfold pixelOf.
  destruct (inPtr_split k) as [-> _].
  assert (E : int32At input (ToInt32 (Z.of_nat (9 + k / 8))) = 0).
  { unfold int32At.
    destruct (Z.lt_ge_cases (Z.of_nat (9 + k / 8)) (2 ^ 31)).
    - rewrite ToInt32_small by (split; [lia | assumption]).
      now rewrite index_of_nat, Hb.
    - assert (Hn : ToInt32 (Z.of_nat (9 + k / 8)) < 0)
        by (apply ToInt32_high; split; assumption).
      unfold index. destruct (Z.ltb_spec (ToInt32 (Z.of_nat (9 + k / 8))) 0); [reflexivity|lia]. }
  rewrite E, Z.shiftr_0_l. reflexivity.
Qed.

Lemma int32At_nth input (i : nat) z b :
  z = Z.of_nat i -> nth_error input i = Some b -> int32At input z = u8 b.
Proof.
  intros -> H. unfold int32At. now rewrite index_of_nat, H.
Qed.

Lemma nth_error_defined (input : Uint8Array) (i j : nat) b :
  nth_error input j = Some b -> (i <= j)%nat -> exists c, nth_error input i = Some c.
Proof.
  intros Hj Hij.
  assert (Hlen : (j < length input)%nat) by (apply nth_error_Some; congruence).
  destruct (nth_error input i) as [c|] eqn:E; [eauto|].
  apply nth_error_None in E. lia.
Qed.

(** After the header check the four size bytes are defined; the
    decoder returns the image the loop renders when the pixel buffer is
    allocated, and the RangeError of the allocation otherwise. *)
Lemma decode_magic allocates input :
  magic input ->
  exists b4 b5 b6 b7,
    nth_error input 4 = Some b4 /\ nth_error input 5 = Some b5 /\
    nth_error input 6 = Some b6 /\ nth_error input 7 = Some b7 /\
    let w := (u8 b4 + 256 * u8 b5) * 8 in
    let h := u8 b6 + 256 * u8 b7 in
    decode allocates input
    = if allocates (w * h * 4)
      then inr {| data := rendered input (Z.to_nat (w * h)) (9 * 8);
                  width := w; height := h |}
      else inl RangeError.
Proof.
  intros Hm. pose proof Hm as (_ & _ & _ & _ & H8).
  destruct (@nth_error_defined input 4 8 _ H8) as [b4 H4]; [lia|].
  destruct (@nth_error_defined input 5 8 _ H8) as [b5 H5]; [lia|].
  destruct (@nth_error_defined input 6 8 _ H8) as [b6 H6]; [lia|].
  destruct (@nth_error_defined input 7 8 _ H8) as [b7 H7]; [lia|].
  exists b4, b5, b6, b7. repeat (split; [assumption|]).
  intros w h. unfold decode, newUint8Array.
  apply badHeader_false in Hm. rewrite Hm.
  rewrite (@int32At_nth input 4 4 _ eq_refl H4), (@int32At_nth input 5 5 _ eq_refl H5),
          (@int32At_nth input 6 6 _ eq_refl H6), (@int32At_nth input 7 7 _ eq_refl H7).
  rewrite !Z.shiftl_mul_pow2 by lia. change (2 ^ 8) with 256.
  replace (u8 b5 * 256) with (256 * u8 b5) by lia.
  replace (u8 b7 * 256) with (256 * u8 b7) by lia.
  fold w h. destruct (allocates (w * h * 4)); [|reflexivity].
  cbv zeta. rewrite repeat_length.
  pose proof (u8_range b4). pose proof (u8_range b5).
  pose proof (u8_range b6). pose proof (u8_range b7).
  assert (Hn : Z.to_nat (w * h * 4) = (4 * Z.to_nat (w * h))%nat).
  { rewrite Z2Nat.inj_mul by nia. change (Z.to_nat 4) with 4%nat. lia. }
  rewrite Hn.
  set (n := Z.to_nat (w * h)).
  assert (HL : decodeLoop (4 * n) input (repeat x00 (4 * n)) 0 (9 * 8)
               = rendered input n (9 * 8))
    by (apply (@decodeLoop_rendered input n (4 * n)%nat [] (9 * 8)); lia).
  rewrite HL. reflexivity.
Qed.

Lemma le16_bytes input (i : nat) lo hi :
  nth_error input i = Some lo -> nth_error input (S i) = Some hi ->
  le16 input i = Some (u8 lo + 256 * u8 hi) /\ 0 <= u8 lo + 256 * u8 hi <= 65535.
Proof.
  intros Hlo Hhi. unfold le16. rewrite Hlo, Hhi.
  pose proof (u8_range lo). pose proof (u8_range hi). split; [reflexivity|lia].
Qed.

Lemma colour_black (bit : bool) :
  (if bit then black else white) = black <-> bit = true.
Proof.
  destruct bit; split; intros H; try reflexivity; discriminate.
Qed.

Lemma pixel_index w h x y :
  0 <= x < w -> 0 <= y < h -> 0 <= y * w + x < w * h.
Proof. intros. nia. Qed.

(** The header of a buffer that passes the header check: the two sizes
    and what the decoder does with them. *)
Lemma decode_header allocates input :
  magic input ->
  exists wB h,
    le16 input 4 = Some wB /\ le16 input 6 = Some h /\
    0 <= wB <= 65535 /\ 0 <= h <= 65535 /\
    decode allocates input
    = if allocates (8 * wB * h * 4)
      then inr {| data := rendered input (Z.to_nat (8 * wB * h)) (9 * 8);
                  width := 8 * wB; height := h |}
      else inl RangeError.
Proof.
  intros Hm.
  destruct (@decode_magic allocates input Hm)
    as (b4 & b5 & b6 & b7 & H4 & H5 & H6 & H7 & Hd).
  cbv zeta in Hd.
  destruct (@le16_bytes input 4 _ _ H4 H5) as [Hw Hwr].
  destruct (@le16_bytes input 6 _ _ H6 H7) as [Hh Hhr].
  exists (u8 b4 + 256 * u8 b5), (u8 b6 + 256 * u8 b7).
  repeat (split; [assumption || lia|]).
  rewrite Hd.
  replace ((u8 b4 + 256 * u8 b5) * 8) with (8 * (u8 b4 + 256 * u8 b5)) by lia.
  reflexivity.
Qed.

(** C1, as amended.  For every buffer whose bytes at offsets 0,1,2,3,8
    are 0x1b,0x1d,0x53,0x01,0x00, with wB the little-endian 16-bit
    number at offsets (4,5) and h the one at offsets (6,7): when the
    engine does not allocate the pixel buffer of 8*wB*h*4 bytes the
    decoder throws the RangeError of [new Uint8Array]; when it does, the
    decoder returns an image of width 8*wB and height h whose pixel
    buffer has width*height*4 bytes, and the pixel in column x of row y
    is taken from bit y*width+x of the bit stream that starts at byte 9,
    most significant bit first: black (0,0,0,255) for a 1, white
    (255,255,255,255) for a 0, for every pixel whose source byte has an
    index below 2^31 (the index goes through [| 0]).  Pixel (0,0) is
    black iff the most significant bit (bit 7, mask 0x80) of byte 9
    is 1. *)
Theorem decode_image (allocates : Z -> bool) (input : Uint8Array) :
  magic input ->
  exists wB h,
    le16 input 4 = Some wB /\ le16 input 6 = Some h /\
    (allocates (8 * wB * h * 4) = false ->
     decode allocates input = inl RangeError) /\
    (allocates (8 * wB * h * 4) = true ->
     exists img,
       decode allocates input = inr img /\
       width img = 8 * wB /\ height img = h /\
       Z.of_nat (length (data img)) = width img * height img * 4 /\
       (forall x y bit,
           0 <= x < width img -> 0 <= y < height img ->
           Z.of_nat (9 + Z.to_nat (y * width img + x) / 8) < 2 ^ 31 ->
           streamBit input (Z.to_nat (y * width img + x)) = Some bit ->
           pixelAt img x y = if bit then black else white) /\
       (forall b,
           0 < width img -> 0 < height img -> nth_error input 9 = Some b ->
           (pixelAt img 0 0 = black <-> Z.testbit (u8 b) 7 = true))).
Proof.
  intros Hm.
  destruct (@decode_header allocates input Hm) as (wB & h & Hw & Hh & Hwr & Hhr & Hd).
  exists wB, h. split; [exact Hw|]. split; [exact Hh|].
  split; intros Ha; rewrite Ha in Hd; [exact Hd|].
  eexists. split; [exact Hd|]. cbn [width height data].
  assert (Hpix : forall x y bit,
             0 <= x < 8 * wB -> 0 <= y < h ->
             Z.of_nat (9 + Z.to_nat (y * (8 * wB) + x) / 8) < 2 ^ 31 ->
             streamBit input (Z.to_nat (y * (8 * wB) + x)) = Some bit ->
             pixelAt {| data := rendered input (Z.to_nat (8 * wB * h)) (9 * 8);
                        width := 8 * wB; height := h |} x y
             = if bit then black else white).
  { intros x y bit Hx Hy Hi Hbit.
    pose proof (@pixel_index _ _ _ _ Hx Hy) as Hk.
    unfold pixelAt. cbn [width data].
    rewrite rendered_pixel by (apply Z2Nat.inj_lt; lia).
    cbv zeta. unfold streamBit in Hbit.
    destruct (nth_error input (9 + Z.to_nat (y * (8 * wB) + x) / 8)) as [b|] eqn:Hb;
      [|discriminate].
    injection Hbit as <-.
    rewrite (@pixelOf_present input _ _ Hb Hi).
    destruct (Z.testbit _ _); reflexivity. }
  split; [reflexivity|]. split; [reflexivity|].
  split; [rewrite rendered_length; lia|]. split; [exact Hpix|].
  intros b Hw0 Hh0 H9.
  rewrite (Hpix 0 0 (Z.testbit (u8 b) 7)); try lia.
  - apply colour_black.
  - change (Z.to_nat (0 * (8 * wB) + 0)) with 0%nat. reflexivity.
  - unfold streamBit. change (Z.to_nat (0 * (8 * wB) + 0)) with 0%nat.
    change (9 + 0 / 8)%nat with 9%nat. rewrite H9. reflexivity.
Qed.

Lemma raster_magic : magic Script.raster.
Proof. repeat split. Defined.

Lemma decode_image_witness :
  magic Script.raster /\
  exists img, decode Script.limited Script.raster = inr img /\
              width img = 8 /\ height img = 2 /\
              pixelAt img 0 0 = black /\ pixelAt img 1 0 = white.
Proof.
  split; [exact raster_magic|].
  destruct (@decode_image Script.limited Script.raster raster_magic)
    as (wB & h & Hw & Hh & _ & Himg).
  vm_compute in Hw, Hh. injection Hw as <-. injection Hh as <-.
  destruct (Himg eq_refl) as (img & Hd & Ew & Eh & _ & Hpix & H00).
  exists img. split; [exact Hd|]. split; [exact Ew|]. split; [exact Eh|].
  rewrite Ew, Eh in *. split.
  - apply (H00 xa5); [lia|lia|reflexivity|reflexivity].
  - apply (Hpix 1 0 false); [lia|lia|vm_compute; reflexivity|reflexivity].
Defined.

(** C1 as stated fails twice.  The header [Script.oversized] passes the
    header check and declares 524280 x 65535 pixels: an engine that
    refuses the 137434759200-byte pixel buffer makes the decoder throw a
    RangeError, and no image is produced.  And in [Script.lowBit] bit 0
    of byte 9 is 1, yet pixel (0,0) is white: the pixel follows bit 7. *)
Lemma decode_image_fails :
  (magic Script.oversized /\
   decode Script.limited Script.oversized = inl RangeError) /\
  (magic Script.lowBit /\
   nth_error Script.lowBit 9 = Some x01 /\ Z.testbit (u8 x01) 0 = true /\
   exists img, decode Script.limited Script.lowBit = inr img /\
               0 < width img /\ 0 < height img /\
               pixelAt img 0 0 = white /\ pixelAt img 0 0 <> black).
Proof.
  split; [split; [repeat split|reflexivity]|].
  split; [repeat split|]. split; [reflexivity|]. split; [reflexivity|].
  eexists. split; [reflexivity|].
  split; [reflexivity|]. split; [reflexivity|]. split; [reflexivity|discriminate].
Qed.

(** Beyond index 2^31 the byte index wraps: the byte at index 2^31 is
    never read, the pixels that should come from it are white. *)
Lemma byte_index_wraps (input : Uint8Array) (k : Z) :
  0 <= k < 8 -> pixelOf input (2 ^ 31 * 8 + k) = xff.
Proof.
  intros Hk. unfold pixelOf.
  rewrite Z.div_add_l, (Z.div_small k 8), Z.add_0_r by lia.
  assert (Hn : ToInt32 (2 ^ 31) < 0) by (apply ToInt32_high; lia).
  unfold int32At, index.
  destruct (Z.ltb_spec (ToInt32 (2 ^ 31)) 0); [|lia].
  rewrite Z.shiftr_0_l. reflexivity.
Qed.

(** C2, as amended.  The decoder does not check the declared size
    against the buffer: on a buffer with a good header its only failure
    is the RangeError of the allocation, which the declared size and
    the engine decide, not the length of the buffer.  When the pixel
    buffer is allocated the decoder returns an image of exactly
    width*height pixels, and a pixel whose source byte lies beyond the
    end of the buffer is white. *)
Theorem decode_unchecked (allocates : Z -> bool) (input : Uint8Array) :
  magic input ->
  exists wB h,
    le16 input 4 = Some wB /\ le16 input 6 = Some h /\
    (allocates (8 * wB * h * 4) = false ->
     decode allocates input = inl RangeError) /\
    (allocates (8 * wB * h * 4) = true ->
     exists img,
       decode allocates input = inr img /\
       length (data img) = (4 * Z.to_nat (width img * height img))%nat /\
       (forall x y,
           0 <= x < width img -> 0 <= y < height img ->
           streamBit input (Z.to_nat (y * width img + x)) = None ->
           pixelAt img x y = white)).
Proof.
  intros Hm.
  destruct (@decode_header allocates input Hm) as (wB & h & Hw & Hh & Hwr & Hhr & Hd).
  exists wB, h. split; [exact Hw|]. split; [exact Hh|].
  split; intros Ha; rewrite Ha in Hd; [exact Hd|].
  eexists. split; [exact Hd|]. cbn [width height data].
  split; [apply rendered_length|].
  intros x y Hx Hy Hbit.
  pose proof (@pixel_index _ _ _ _ Hx Hy) as Hk.
  unfold pixelAt. cbn [width data].
  rewrite rendered_pixel by (apply Z2Nat.inj_lt; lia).
  cbv zeta. unfold streamBit in Hbit.
  destruct (nth_error input (9 + Z.to_nat (y * (8 * wB) + x) / 8)) eqn:Hb; [discriminate|].
  rewrite (@pixelOf_absent input _ Hb); [reflexivity|].
  rewrite Nat2Z.inj_add, Nat2Z.inj_div, Z2Nat.id by lia.
  change (Z.of_nat 9) with 9. change (Z.of_nat 8) with 8. change (2 ^ 32) with 4294967296.
  assert (y * (8 * wB) + x < 65535 * 8 * 65535) by nia.
  assert ((y * (8 * wB) + x) / 8 < 65535 * 65535) by (apply Z.div_lt_upper_bound; lia).
  lia.
Qed.

Lemma decode_unchecked_witness :
  magic Script.truncated /\
  exists img, decode Script.limited Script.truncated = inr img /\
              length (data img) = 32%nat /\ pixelAt img 7 0 = white.
Proof.
  split; [repeat split|].
  destruct (@decode_unchecked Script.limited Script.truncated)
    as (wB & h & Hw & Hh & _ & Himg); [repeat split|].
  vm_compute in Hw, Hh. injection Hw as <-. injection Hh as <-.
  destruct (Himg eq_refl) as (img & Hd & Hlen & Hwhite).
  exists img. split; [exact Hd|].
  vm_compute in Hd. injection Hd as <-. split; [exact Hlen|].
  apply Hwhite; [cbn; lia|cbn; lia|reflexivity].
Defined.

(** C2 as stated fails: the 9-byte header of [Script.truncated] declares
    8 pixels and no pixel data follows, yet the decoder returns an
    image instead of an error. *)
Lemma truncated_not_rejected :
  ~ (forall input wB h,
        magic input -> le16 input 4 = Some wB -> le16 input 6 = Some h ->
        Z.of_nat (length input) < 9 + wB * h ->
        exists e, decode Script.limited input = inl e).
Proof.
  intros H.
  destruct (H Script.truncated 1 1) as [e He]; try reflexivity.
  - repeat split.
  - vm_compute in He. discriminate.
Qed.

(** C3.  When one of the bytes at offsets 0,1,2,3,8 differs from the
    expected pattern (or is missing), the decoder throws its malformed
    raster error, the only one it has ('Unimplemented StarPRNT data'),
    whatever the rest of the buffer holds; nothing is allocated, rotated
    or encoded, so [convertStarprntToPng] returns no output. *)
Theorem bad_header_rejected (input : Uint8Array) (allocates : Z -> bool)
        (rotate : ImageData -> ImageData) (encode : ImageData -> result (list byte))
        (rotate180 : bool) :
  nth_error input 0 <> Some x1b \/ nth_error input 1 <> Some x1d \/
  nth_error input 2 <> Some x53 \/ nth_error input 3 <> Some x01 \/
  nth_error input 8 <> Some x00 ->
  decode allocates input = inl UnimplementedStarPRNT /\
  convertStarprntToPng allocates rotate encode input rotate180
  = inl UnimplementedStarPRNT.
Proof.
  intros Hbad.
  assert (Hb : badHeader input = true).
  { destruct (badHeader input) eqn:E; [reflexivity|].
    apply badHeader_false in E. destruct E as (E0 & E1 & E2 & E3 & E8).
    tauto. }
  assert (Hd : decode allocates input = inl UnimplementedStarPRNT)
    by (unfold decode; now rewrite Hb).
  split; [exact Hd|].
  unfold convertStarprntToPng. now rewrite Hd.
Qed.

Lemma bad_header_rejected_witness :
  decode Script.limited Script.malformed = inl UnimplementedStarPRNT.
Proof.
  apply (@bad_header_rejected Script.malformed Script.limited
                              (fun i => i) (fun i => inr (data i)) false).
  right; right; right; right. discriminate.
Defined.
End StarprntFacts.

(* ================================================================== *)
(** * The transports: proofs *)
(* ================================================================== *)

Ltac unfold_monad :=
  unfold sleep in *;
  unfold bind, ret, throw, try_catch, try_finally, emit, lift, set_code,
    get_code, call in *.

(** Case analysis on the innermost scrutinee of the goal. *)
Ltac case_step :=
  match goal with
  | |- context [match ?x with _ => _ end] =>
      lazymatch x with
      | context [match _ with _ => _ end] => fail
      | _ => destruct x eqn:?
      end
  end.

Ltac run :=
  repeat (cbn [fst snd world code app filter isMethod method trace_of
               completion_of state_of isPrintResult isNotPrinting isFetch] in *;
          try case_step).

Ltac finish :=
  repeat split; intros; try discriminate; try assumption; try reflexivity;
  try congruence.

Ltac settle :=
  finish; auto;
  try (repeat match goal with
              | H : (_, _) = (_, _) |- _ => injection H as ? ?; subst
              | H : Some _ = Some _ |- _ => injection H as ?; subst
              end;
       cbn [fst snd] in *; congruence).

(** Tactics for resumptions. *)

Ltac unfold_tasks :=
  unfold EventLoop.pollCycle, EventLoop.service, EventLoop.serviceBody,
    EventLoop.post, EventLoop.get, EventLoop.delete_, EventLoop.handler,
    EventLoop.handleMqttMessage, EventLoop.handlePrintJob, EventLoop.printJobBody,
    EventLoop.printJobFinally;
  unfold EventLoop.bind, EventLoop.try_catch, EventLoop.try_finally, EventLoop.await,
    EventLoop.awaitCall, EventLoop.call, EventLoop.sleep, EventLoop.emit,
    EventLoop.set_code, EventLoop.get_code, EventLoop.ret, EventLoop.throw,
    EventLoop.lift;
  cbn [EventLoop.andThen].

(** One constructor of a resumption, or a case analysis where it is
    stuck on a test. *)
Ltac behave_step :=
  lazymatch goal with
  | |- EventLoop.behaves _ _ (EventLoop.Done _) => apply EventLoop.behaves_Done
  | |- EventLoop.behaves _ _ (EventLoop.Emit _ _) => apply EventLoop.behaves_Emit
  | |- EventLoop.behaves _ _ (EventLoop.Apply _ _) =>
      apply EventLoop.behaves_Apply; intros [?|?]
  | |- EventLoop.behaves _ _ (EventLoop.Yield _) => apply EventLoop.behaves_Yield
  | |- EventLoop.behaves _ _ (EventLoop.SetCode _ _) => apply EventLoop.behaves_SetCode
  | |- EventLoop.behaves _ _ (EventLoop.GetCode _) =>
      apply EventLoop.behaves_GetCode; intros ?
  | |- EventLoop.behaves _ _ _ =>
      match goal with
      | |- context [match ?x with _ => _ end] => destruct x
      end
  end;
  cbn [EventLoop.andThen].

Ltac behave :=
  unfold_tasks; repeat behave_step;
  repeat match goal with u : unit |- _ => destruct u end;
  try reflexivity; try exact I.

Section TransportFacts.
Variables World Body : Type.
Variable env : Env World Body.

Lemma serviceBody_spec u rot status (s : St World) :
  code s = "500" ->
  let x := Combined.serviceBody env u rot status s in
  deletes (trace_of x) = [] /\
  (neitherSupported status = true ->
     trace_of x = [] /\ code (state_of x) = "510" /\
     completion_of x = inl (UnsupportedMediaTypes (mediaTypes status))) /\
  (mediaTypes status = None ->
     trace_of x = [] /\ code (state_of x) = "500" /\ completion_of x = inl TypeError) /\
  (neitherSupported status = false ->
     code (state_of x) = match completion_of x with inr _ => "200" | inl _ => "500" end).
Proof.
  intros Hc. unfold Combined.serviceBody, neitherSupported, Combined.get, deletes.
  unfold_monad.
  destruct (mediaTypes status) as [types|]; cbn.
  2:{ finish. }
  destruct (includes types starprntType) eqn:Hs; cbn.
  - run; finish.
  - destruct (includes types pngType) eqn:Hp; cbn.
    + run; finish.
    + finish.
Qed.

(** [Combined.service] runs the body from code '500', then sends the DELETE
    with the code the body left. *)
Lemma service_run u rot status (s : St World) :
  let body := Combined.serviceBody env u rot status {| world := world s; code := "500" |} in
  trace_of (Combined.service env u rot status s)
  = trace_of body
    ++ [Fetch (Combined.ackRequest u (code (state_of body)) (jobToken status))] /\
  (completion_of body <> inr tt -> completion_of (Combined.service env u rot status s) <> inr tt).
Proof.
  unfold Combined.service. unfold_monad. cbn [world code].
  destruct (Combined.serviceBody env u rot status {| world := world s; code := "500" |})
    as [[r s1] t1].
  unfold Combined.delete_. unfold_monad.
  cbn [trace_of completion_of state_of fst snd app world code].
  destruct (fetch env _ (world s1)) as [[e|resp] w2]; cbn.
  - finish.
  - destruct (ok resp); cbn; finish.
Qed.

Lemma post_ok u w resp w1 status c :
  fetch env (Combined.statusRequest u) w = (inr resp, w1) ->
  ok resp = true ->
  json_status env (bodyOf resp) = inr status ->
  Combined.post env u {| world := w; code := c |}
  = (inr status, {| world := w1; code := c |}, [Fetch (Combined.statusRequest u)]).
Proof.
  intros Hf Hok Hj. unfold Combined.post. unfold_monad. cbn [world code].
  rewrite Hf, Hok. cbn. rewrite Hj. reflexivity.
Qed.

(** A turn that services a job: the POST, the body, the DELETE, and
    after an exception the log line and the sleep. *)
Lemma pollCycle_servicing u delay rot w resp w1 status :
  fetch env (Combined.statusRequest u) w = (inr resp, w1) ->
  ok resp = true ->
  json_status env (bodyOf resp) = inr status ->
  jobReady status = true ->
  let body := Combined.serviceBody env u rot status {| world := w1; code := "500" |} in
  exists tail,
    trace_of (Combined.pollCycle env u delay rot (initial w))
    = Fetch (Combined.statusRequest u) :: trace_of body
      ++ Fetch (Combined.ackRequest u (code (state_of body)) (jobToken status)) :: tail /\
    (tail = [] \/ exists e, tail = [ConsoleError e; Sleep delay]) /\
    (completion_of body <> inr tt -> tail <> []).
Proof.
  intros Hf Hok Hj Hr body.
  unfold Combined.pollCycle, initial.
  unfold try_catch at 1. unfold bind at 1.
  rewrite (@post_ok u w resp w1 status "" Hf Hok Hj), Hr. cbn [negb].
  pose proof (service_run u rot status {| world := w1; code := "" |}) as [Ht Hc].
  cbn [world] in Ht, Hc. fold body in Ht, Hc.
  destruct (Combined.service env u rot status {| world := w1; code := "" |}) as [[r s2] t2].
  cbn [trace_of completion_of fst snd] in Ht, Hc. subst t2.
  destruct r as [e|[]]; unfold_monad; cbn [trace_of snd app].
  - exists [ConsoleError e; Sleep delay]. split.
    + cbn. rewrite <- app_assoc. reflexivity.
    + split; [right; eauto|discriminate].
  - exists []. split; [reflexivity|]. split; [left; reflexivity|].
    intros H. apply Hc in H. congruence.
Qed.

Lemma deletes_app t1 t2 : deletes (t1 ++ t2) = deletes t1 ++ deletes t2.
Proof. apply filter_app. Qed.

Lemma index_serviceBody_spec user pass u status (s : St World) :
  code s = "500" ->
  let x := IndexJs.serviceBody env user pass u status s in
  deletes (trace_of x) = [] /\
  (textUnsupported status = true ->
     trace_of x = [] /\ code (state_of x) = "510" /\
     completion_of x = inl (UnsupportedMediaTypes (mediaTypes status))) /\
  (textUnsupported status = false ->
     code (state_of x) = match completion_of x with inr _ => "200" | inl _ => "500" end).
Proof.
  intros Hc. unfold IndexJs.serviceBody, textUnsupported, IndexJs.get, deletes.
  unfold_monad.
  destruct (mediaTypes status) as [types|]; cbn.
  - destruct (includes types textType) eqn:Hs; cbn.
    + run; finish.
    + finish.
  - run; finish.
Qed.

Lemma index_service_run user pass u status (s : St World) :
  let body := IndexJs.serviceBody env user pass u status {| world := world s; code := "500" |} in
  trace_of (IndexJs.service env user pass u status s)
  = trace_of body
    ++ [Fetch (IndexJs.ackRequest u (code (state_of body)) (jobToken status) user pass)] /\
  (completion_of body <> inr tt ->
   completion_of (IndexJs.service env user pass u status s) <> inr tt).
Proof.
  unfold IndexJs.service. unfold_monad. cbn [world code].
  destruct (IndexJs.serviceBody env user pass u status {| world := world s; code := "500" |})
    as [[r s1] t1].
  unfold IndexJs.delete_. unfold_monad.
  cbn [trace_of completion_of state_of fst snd app world code].
  destruct (fetch env _ (world s1)) as [[e|resp] w2]; cbn.
  - finish.
  - destruct (ok resp); cbn; finish.
Qed.

Lemma index_post_ok user pass u custom w resp w1 status c :
  fetch env (IndexJs.statusRequest u custom user pass) w = (inr resp, w1) ->
  ok resp = true ->
  json_status env (bodyOf resp) = inr status ->
  IndexJs.post env user pass u custom {| world := w; code := c |}
  = (inr status, {| world := w1; code := c |}, [Fetch (IndexJs.statusRequest u custom user pass)]).
Proof.
  intros Hf Hok Hj. unfold IndexJs.post. unfold_monad. cbn [world code].
  rewrite Hf, Hok. cbn. rewrite Hj. reflexivity.
Qed.

Lemma index_pollCycle_servicing user pass u delay w resp w1 status :
  fetch env (IndexJs.statusRequest u None user pass) w = (inr resp, w1) ->
  ok resp = true ->
  json_status env (bodyOf resp) = inr status ->
  jobReady status = true ->
  let body := IndexJs.serviceBody env user pass u status {| world := w1; code := "500" |} in
  exists tail,
    trace_of (IndexJs.pollCycle env user pass u delay (initial w))
    = Fetch (IndexJs.statusRequest u None user pass) :: trace_of body
      ++ Fetch (IndexJs.ackRequest u (code (state_of body)) (jobToken status) user pass) :: tail /\
    (tail = [] \/ exists e, tail = [ConsoleError e; Sleep delay]) /\
    (completion_of body <> inr tt -> tail <> []).
Proof.
  intros Hf Hok Hj Hr body.
  unfold IndexJs.pollCycle, initial.
  unfold try_catch at 1. unfold bind at 1.
  rewrite (@index_post_ok user pass u None w resp w1 status "" Hf Hok Hj), Hr. cbn [negb].
  pose proof (index_service_run user pass u status {| world := w1; code := "" |}) as [Ht Hc].
  cbn [world] in Ht, Hc. fold body in Ht, Hc.
  destruct (IndexJs.service env user pass u status {| world := w1; code := "" |}) as [[r s2] t2].
  cbn [trace_of completion_of fst snd] in Ht, Hc. subst t2.
  destruct r as [e|[]]; unfold_monad; cbn [trace_of snd app].
  - exists [ConsoleError e; Sleep delay]. split.
    + cbn. rewrite <- app_assoc. reflexivity.
    + split; [right; eauto|discriminate].
  - exists []. split; [reflexivity|]. split; [left; reflexivity|].
    intros H. apply Hc in H. congruence.
Qed.

(** The loop over the requests computes the answers owed. *)
Lemma expectedAnswers_cons delay r rest :
  expectedAnswers delay (r :: rest)
  = match IndexJs.answer delay r with Some a => [a] | None => [] end
    ++ expectedAnswers delay rest.
Proof.
  unfold IndexJs.answer, expectedAnswers, knownRequests. cbn [flat_map find fst].
  f_equal.
  destruct (request r) as [name|]; [|reflexivity].
  repeat (destruct (String.eqb name _); [reflexivity|]). reflexivity.
Qed.

Lemma answerAll_expected delay requests : forall data,
  IndexJs.answerAll delay requests data = data ++ expectedAnswers delay requests.
Proof.
  induction requests as [|r rest IH]; intros data; cbn [IndexJs.answerAll].
  - cbn. now rewrite app_nil_r.
  - rewrite IH, expectedAnswers_cons.
    destruct (IndexJs.answer delay r); cbn [app]; [now rewrite <- app_assoc|reflexivity].
Qed.

Lemma deletes_tail tail delay :
  tail = [] \/ (exists e, tail = [ConsoleError e; Sleep delay]) ->
  deletes tail = [] /\ gets tail = [].
Proof.
  intros [->|[e ->]]; split; reflexivity.
Qed.

Lemma final_code (x : result unit * St World * list Event) (unsupported : bool) :
  (unsupported = true -> code (state_of x) = "510" /\ exists e, completion_of x = inl e) ->
  (unsupported = false ->
     code (state_of x) = match completion_of x with inr _ => "200" | inl _ => "500" end) ->
  let c := code (state_of x) in
  (c = "200" \/ c = "500" \/ c = "510") /\
  (c = "200" <-> completion_of x = inr tt) /\
  (c = "510" <-> unsupported = true).
Proof.
  intros Ht Hf c. subst c.
  destruct unsupported.
  - destruct Ht as [-> [e ->]]; [reflexivity|]. finish; auto.
  - rewrite Hf by reflexivity.
    destruct (completion_of x) as [e|[]]; finish; auto.
Qed.

(** The DELETE carries the code and, when there is one, the job token. *)
Lemma withToken_carries (withToken : Url -> option string -> Url) :
  (forall v tok, withToken v tok
                 = match tok with
                   | Some t => if truthy tok then append_param v "token" t else v
                   | None => v
                   end) ->
  forall v c tok,
    In ("code", c) (query v) ->
    In ("code", c) (query (withToken v tok)) /\
    (forall t, tok = Some t -> t <> "" -> In ("token", t) (query (withToken v tok))).
Proof.
  intros Hw v c tok Hc. rewrite Hw.
  destruct tok as [t|]; [|split; [exact Hc|discriminate]].
  unfold truthy. destruct (String.eqb_spec t "") as [->|Hne]; cbn [negb].
  - split; [exact Hc|]. intros t' [= <-] H. now destruct H.
  - split; cbn [append_param query].
    + apply in_or_app. now left.
    + intros t' [= <-] _. apply in_or_app. right. now left.
Qed.

Lemma ackRequest_carries u c tok :
  let q := query (url (Combined.ackRequest u c tok)) in
  In ("code", c) q /\ (forall t, tok = Some t -> t <> "" -> In ("token", t) q).
Proof.
  apply (@withToken_carries Combined.withToken); [reflexivity|].
  cbn [append_param query]. rewrite <- app_assoc. apply in_or_app. right. now left.
Qed.

Lemma index_ackRequest_carries u c tok user pass :
  let q := query (url (IndexJs.ackRequest u c tok user pass)) in
  In ("code", c) q /\ (forall t, tok = Some t -> t <> "" -> In ("token", t) q).
Proof.
  apply (@withToken_carries IndexJs.withToken); [reflexivity|].
  cbn [append_param query]. rewrite <- app_assoc. apply in_or_app. right. now left.
Qed.

(** C4.  In a polling turn whose status has jobReady true, exactly one
    DELETE is sent, and it carries the code the [try] block left in
    [code] (200 iff the block completed, 510 iff the media types are
    unsupported, 500 otherwise) and the job token: on every exit path,
    in [runHttpPolling] and in the loop of index.js alike. *)
Theorem ack_exactly_once (u : Url) (delay : Z) (rotate180 : bool)
        (user pass : option string)
        (w w1 : World) (resp : Response Body) (status : PollStatus) :
  ok resp = true ->
  json_status env (bodyOf resp) = inr status ->
  jobReady status = true ->
  (fetch env (Combined.statusRequest u) w = (inr resp, w1) ->
   let body := Combined.serviceBody env u rotate180 status
                                    {| world := w1; code := "500" |} in
   let c := code (state_of body) in
   let q := query (url (Combined.ackRequest u c (jobToken status))) in
   deletes (trace_of (Combined.pollCycle env u delay rotate180 (initial w)))
   = [Fetch (Combined.ackRequest u c (jobToken status))] /\
   In ("code", c) q /\
   (forall t, jobToken status = Some t -> t <> "" -> In ("token", t) q) /\
   (c = "200" \/ c = "500" \/ c = "510") /\
   (c = "200" <-> completion_of body = inr tt) /\
   (c = "510" <-> neitherSupported status = true))
  /\
  (fetch env (IndexJs.statusRequest u None user pass) w = (inr resp, w1) ->
   let body := IndexJs.serviceBody env user pass u status
                                   {| world := w1; code := "500" |} in
   let c := code (state_of body) in
   let q := query (url (IndexJs.ackRequest u c (jobToken status) user pass)) in
   deletes (trace_of (IndexJs.pollCycle env user pass u delay (initial w)))
   = [Fetch (IndexJs.ackRequest u c (jobToken status) user pass)] /\
   In ("code", c) q /\
   (forall t, jobToken status = Some t -> t <> "" -> In ("token", t) q) /\
   (c = "200" \/ c = "500" \/ c = "510") /\
   (c = "200" <-> completion_of body = inr tt) /\
   (c = "510" <-> textUnsupported status = true)).
Proof.
  intros Hok Hj Hr. split; intros Hf body c q.
  - destruct (ackRequest_carries u c (jobToken status)) as [Hcode Htoken].
    destruct (@pollCycle_servicing u delay rotate180 w resp w1 status Hf Hok Hj Hr)
      as (tail & Ht & Htail & _).
    fold body in Ht. fold c in Ht.
    destruct (@serviceBody_spec u rotate180 status {| world := w1; code := "500" |} eq_refl)
      as (Hnd & Hu & _ & Hs).
    fold body in Hnd, Hu, Hs.
    split.
    + rewrite Ht. change (deletes (?a :: ?t)) with (deletes t).
      rewrite deletes_app, Hnd.
      destruct (deletes_tail Htail) as [Hdt _].
      cbn [app]. change (deletes (Fetch ?r :: tail)) with (Fetch r :: deletes tail).
      now rewrite Hdt.
    + split; [exact Hcode|]. split; [exact Htoken|].
      apply final_code; [|exact Hs].
      intros H. destruct (Hu H) as (_ & ? & ?). eauto.
  - destruct (index_ackRequest_carries u c (jobToken status) user pass) as [Hcode Htoken].
    destruct (@index_pollCycle_servicing user pass u delay w resp w1 status Hf Hok Hj Hr)
      as (tail & Ht & Htail & _).
    fold body in Ht. fold c in Ht.
    destruct (@index_serviceBody_spec user pass u status {| world := w1; code := "500" |}
                                      eq_refl)
      as (Hnd & Hu & Hs).
    fold body in Hnd, Hu, Hs.
    split.
    + rewrite Ht. change (deletes (?a :: ?t)) with (deletes t).
      rewrite deletes_app, Hnd.
      destruct (deletes_tail Htail) as [Hdt _].
      cbn [app]. change (deletes (Fetch ?r :: tail)) with (Fetch r :: deletes tail).
      now rewrite Hdt.
    + split; [exact Hcode|]. split; [exact Htoken|].
      apply final_code; [|exact Hs].
      intros H. destruct (Hu H) as (_ & ? & ?). eauto.
Qed.




(** The media-type test of [handlePrintJob] passes exactly on the
    one-element list holding the StarPRNT type. *)
Lemma single_starprnt (types : list string) :
  negb (Nat.eqb (length types) 1) || negb (includes types starprntType) = false
  <-> types = [starprntType].
Proof.
  split.
  - intros H. apply orb_false_iff in H. destruct H as [Hl Hi].
    apply negb_false_iff in Hl, Hi. apply Nat.eqb_eq in Hl.
    destruct types as [|t [|t' rest]]; try discriminate.
    unfold includes in Hi. cbn [existsb] in Hi.
    rewrite orb_false_r in Hi. apply String.eqb_eq in Hi. now subst.
  - intros ->. reflexivity.
Qed.

Lemma printJobBody_spec payload rot (s : St World) :
  code s = "500" ->
  let x := Combined.printJobBody env payload rot s in
  let c := code (state_of x) in
  printResults (trace_of x) = [] /\ notPrinting (trace_of x) = [] /\
  filter isFetch (trace_of x) = [] /\
  (c = "200" \/ c = "500" \/ c = "510") /\
  (c = "200" <-> completion_of x = inr tt) /\
  (jobType payload <> Some "raw" -> c = "500") /\
  (fst (publishAsync env Combined.clientStatusTopic (ClientStatus true) (world s))
     = inr tt ->
   jobType payload = Some "raw" ->
   mediaTypesOf payload <> Some [starprntType] -> c = "510") /\
  (completion_of x = inr tt ->
   jobType payload = Some "raw" /\ mediaTypesOf payload = Some [starprntType]).
Proof.
  intros Hc x c. subst c x.
  unfold Combined.printJobBody, printResults, notPrinting. unfold_monad.
  destruct (publishAsync env Combined.clientStatusTopic (ClientStatus true) (world s))
    as [[e|[]] w1]; cbn.
  { settle. }
  destruct (jobType payload) as [t|]; cbn.
  2:{ settle. }
  destruct (String.eqb_spec t "raw") as [->|Hne]; cbn.
  2:{ settle. }
  destruct (mediaTypesOf payload) as [types|]; cbn.
  2:{ settle. }
  destruct (negb (Nat.eqb (length types) 1) || negb (includes types starprntType))
    eqn:Hm; cbn.
  { assert (Hne : types <> [starprntType])
      by (intros ->; vm_compute in Hm; discriminate).
    settle. }
  apply single_starprnt in Hm. subst types.
  run; settle.
Qed.

Lemma printJobBody_success payload rot (s : St World) w1 d png :
  publishAsync env Combined.clientStatusTopic (ClientStatus true) (world s)
  = (inr tt, w1) ->
  jobType payload = Some "raw" ->
  mediaTypesOf payload = Some [starprntType] ->
  printData payload = Some d ->
  Combined.convertStarprntToPng env (base64 env d) rot = inr png ->
  fst (writeFileSync env "img-" png w1) = inr tt ->
  code (state_of (Combined.printJobBody env payload rot s)) = "200".
Proof.
  intros Hp Hj Hm Hd Hc Hw.
  unfold Combined.printJobBody. unfold_monad.
  rewrite Hp, Hj, Hm, Hd. cbn. rewrite Hc. cbn.
  destruct (writeFileSync env "img-" png w1) as [[e|[]] w2]; [discriminate|].
  reflexivity.
Qed.

Lemma handlePrintJob_trace payload rot (s : St World) :
  let body := Combined.printJobBody env payload rot {| world := world s; code := "500" |} in
  let c := code (state_of body) in
  let result := PrintResult (jobTokenOf payload) (String.prefix "200" c) c in
  trace_of (Combined.handlePrintJob env payload rot s)
  = trace_of body
    ++ Publish Combined.printResultTopic result
    :: match fst (publishAsync env Combined.printResultTopic result
                               (world (state_of body))) with
       | inr _ => [Publish Combined.clientStatusTopic (ClientStatus false)]
       | inl _ => []
       end.
Proof.
  intros body c result.
  unfold Combined.handlePrintJob, Combined.printJobFinally.
  unfold_monad. cbn [world code]. fold body.
  destruct body as [[r s1] t1] eqn:Hb. subst c result.
  cbn [state_of trace_of fst snd world code] in *.
  destruct (publishAsync env Combined.printResultTopic _ (world s1)) as [[e|[]] w2];
    cbn [fst snd world code app].
  - destruct r; reflexivity.
  - destruct (publishAsync env Combined.clientStatusTopic (ClientStatus false) w2)
      as [[e|[]] w3]; destruct r; reflexivity.
Qed.

(** C5, as amended.  For every print-job message exactly one
    print-result publish is issued, with the job token, the code and a
    success flag that is true iff the code is 200.  The code is 500
    when jobType is not 'raw'; it is 510 when the printing-in-progress
    publish went through, jobType is 'raw' and mediaTypes is not the
    one-element list of the StarPRNT type; it is 200 when that publish,
    the decoding and the write succeed.  When the print-result publish
    succeeds it is followed by exactly one not-printing client-status
    publish. *)
Theorem print_job_reported (payload : Payload) (rotate180 : bool) (s : St World) :
  let body := Combined.printJobBody env payload rotate180
                                    {| world := world s; code := "500" |} in
  let c := code (state_of body) in
  let result := PrintResult (jobTokenOf payload) (String.prefix "200" c) c in
  let x := Combined.handlePrintJob env payload rotate180 s in
  printResults (trace_of x) = [Publish Combined.printResultTopic result] /\
  (String.prefix "200" c = true <-> c = "200") /\
  (jobType payload <> Some "raw" -> c = "500") /\
  (fst (publishAsync env Combined.clientStatusTopic (ClientStatus true) (world s))
     = inr tt ->
   jobType payload = Some "raw" ->
   mediaTypesOf payload <> Some [starprntType] -> c = "510") /\
  (forall w1 d png,
      publishAsync env Combined.clientStatusTopic (ClientStatus true) (world s)
      = (inr tt, w1) ->
      jobType payload = Some "raw" ->
      mediaTypesOf payload = Some [starprntType] ->
      printData payload = Some d ->
      Combined.convertStarprntToPng env (base64 env d) rotate180 = inr png ->
      fst (writeFileSync env "img-" png w1) = inr tt ->
      c = "200") /\
  (fst (publishAsync env Combined.printResultTopic result (world (state_of body)))
     = inr tt ->
   trace_of x
   = trace_of body ++ [ Publish Combined.printResultTopic result;
                        Publish Combined.clientStatusTopic (ClientStatus false) ] /\
   notPrinting (trace_of x) = [Publish Combined.clientStatusTopic (ClientStatus false)]).
Proof.
  intros body c result x.
  destruct (@printJobBody_spec payload rotate180 {| world := world s; code := "500" |}
                               eq_refl)
    as (Hpr & Hnp & _ & Hc & _ & Hraw & Hmedia & _).
  fold body in Hpr, Hnp, Hc, Hraw, Hmedia. fold c in Hc, Hraw, Hmedia.
  cbn [world] in Hmedia.
  pose proof (handlePrintJob_trace payload rotate180 s) as Hx.
  cbv zeta in Hx. fold body in Hx. fold c in Hx. fold result in Hx. fold x in Hx.
  split.
  { rewrite Hx. unfold printResults in *. rewrite filter_app, Hpr.
    destruct (fst (publishAsync env Combined.printResultTopic result _)); reflexivity. }
  split.
  { destruct Hc as [E|[E|E]]; rewrite E; split; intros; try reflexivity; discriminate. }
  split; [exact Hraw|]. split; [exact Hmedia|].
  split.
  { intros w1 d png Hp Hj Hm Hd Hcv Hw. subst c body.
    exact (@printJobBody_success payload rotate180 {| world := world s; code := "500" |}
                                 w1 d png Hp Hj Hm Hd Hcv Hw). }
  intros Hp. rewrite Hp in Hx. split; [exact Hx|].
  rewrite Hx. unfold notPrinting in *. rewrite filter_app, Hnp. reflexivity.
Qed.

Lemma handlePrintJob_no_fetch payload rot (s : St World) :
  filter isFetch (trace_of (Combined.handlePrintJob env payload rot s)) = [].
Proof.
  rewrite handlePrintJob_trace.
  destruct (@printJobBody_spec payload rot {| world := world s; code := "500" |} eq_refl)
    as (_ & _ & Hnf & _).
  rewrite filter_app, Hnf.
  destruct (fst _); reflexivity.
Qed.

(** A handler never throws; it rejects exactly on [rejection], and
    sends no HTTP request. *)
Lemma deliver_spec rot ev (s : St World) :
  completion_of (Combined.deliver env rot ev s) = inr (rejection ev) /\
  filter isFetch (trace_of (Combined.deliver env rot ev s)) = [].
Proof.
  destruct ev as [|[err|]|topic parsed|err|]; try (split; reflexivity).
  unfold Combined.deliver, Combined.handleMqttMessage. unfold_monad.
  destruct parsed as [e|payload]; [split; reflexivity|].
  destruct (title payload) as [t|]; [|split; reflexivity].
  destruct (String.eqb t "print-job"); [|split; reflexivity].
  cbn -[Combined.handlePrintJob].
  pose proof (handlePrintJob_no_fetch payload rot s) as Hnf.
  destruct (Combined.handlePrintJob env payload rot s) as [[[e|[]] s1] t1];
    cbn [trace_of completion_of fst snd app] in *; split; try reflexivity.
  - rewrite ?app_nil_r, filter_app, Hnf. reflexivity.
  - rewrite ?app_nil_r. exact Hnf.
Qed.

(** The polling loop cannot be left: no turn ends in an exception. *)
Lemma pollCycle_total u delay rot (s : St World) :
  completion_of (Combined.pollCycle env u delay rot s) = inr tt.
Proof.
  unfold Combined.pollCycle, try_catch.
  destruct (bind _ _ s) as [[[e|[]] s1] t1]; reflexivity.
Qed.

Lemma runHttpPolling_total fuel u delay rot : forall (s : St World),
  completion_of (Combined.runHttpPolling env fuel u delay rot s) = inr tt.
Proof.
  induction fuel as [|fuel IH]; intros s; [reflexivity|].
  cbn [Combined.runHttpPolling]. unfold bind.
  pose proof (pollCycle_total u delay rot s) as Hc.
  destruct (Combined.pollCycle env u delay rot s) as [[r s1] t1].
  cbn [completion_of fst] in Hc. subst r.
  specialize (IH s1).
  destruct (Combined.runHttpPolling env fuel u delay rot s1) as [[r2 s2] t2].
  exact IH.
Qed.

(** ** The event loop *)

Lemma behaves_andThen A B (P : Event -> Prop) (Q1 : result A -> Prop)
      (Q : result B -> Prop) (m : EventLoop.Task World A)
      (k : result A -> EventLoop.Task World B) :
  EventLoop.behaves P Q1 m ->
  (forall r, Q1 r -> EventLoop.behaves P Q (k r)) ->
  EventLoop.behaves P Q (EventLoop.andThen m k).
Proof.
  intros Hm Hk. induction Hm; cbn [EventLoop.andThen]; try constructor; auto.
Qed.

(** What is left of a function that behaves still behaves, and so did
    the stretch that was run. *)
Lemma advance_behaves A (P : Event -> Prop) (Q : result A -> Prop)
      (t : EventLoop.Task World A) :
  EventLoop.behaves P Q t ->
  forall w c t' w' c' l,
    EventLoop.advance t w c = (t', w', c', l) ->
    EventLoop.behaves P Q t' /\ Forall P l.
Proof.
  induction 1 as [r Hr|e k He Hk IH|X op k Hk IH|k Hk IH|c0 k Hk IH|k Hk IH];
    intros w c t' w' c' l Ha; cbn [EventLoop.advance] in Ha.
  - injection Ha as <- <- <- <-. split; [now constructor|constructor].
  - destruct (EventLoop.advance k w c) as [[[t1 w1] c1] l1] eqn:E.
    injection Ha as <- <- <- <-.
    destruct (IH _ _ _ _ _ _ E) as [Ht Hl]. split; [exact Ht|now constructor].
  - destruct (op w) as [r w1]. exact (IH r _ _ _ _ _ _ Ha).
  - injection Ha as <- <- <- <-. split; [now constructor|constructor].
  - exact (IH _ _ _ _ _ _ Ha).
  - exact (IH c _ _ _ _ _ _ Ha).
Qed.

Lemma resume_behaves A (P : Event -> Prop) (Q : result A -> Prop)
      (t : EventLoop.Task World A) :
  EventLoop.behaves P Q t ->
  forall w c t' w' c' l,
    EventLoop.resume t w c = (t', w', c', l) ->
    EventLoop.behaves P Q t' /\ Forall P l.
Proof.
  intros Hb w c t' w' c' l Hr.
  destruct Hb as [r Hq|e k He Hk|X op k Hk|k Hk|c0 k Hk|k Hk];
    cbn [EventLoop.resume] in Hr;
    try (eapply advance_behaves; [|exact Hr]; now constructor).
  eapply advance_behaves; [exact Hk|exact Hr].
Qed.

(** A turn of the polling loop touches no broker and ends normally,
    whatever the server and the disk do. *)
Lemma pollCycle_behaves u delay rot :
  EventLoop.behaves (fun e => isMqtt e = false) (fun r => r = inr tt)
                    (EventLoop.pollCycle env u delay rot).
Proof. behave. Qed.


(** The handlers that do not reject can only end without a rejection;
    the others reject at once. *)
Lemma handler_calm rot ev :
  rejection ev = None ->
  EventLoop.behaves (fun e => isFetch e = false) (fun r => r = inr None)
                    (EventLoop.handler env rot ev).
Proof.
  destruct ev as [|[err|]|topic parsed|err|]; intros H; try discriminate; behave.
Qed.

Lemma handler_rejects rot ev err (w : World) c :
  rejection ev = Some err ->
  exists l,
    EventLoop.advance (EventLoop.handler env rot ev) w c
    = (EventLoop.Done (inr (Some err)), w, c, l) /\
    Forall (fun e => isFetch e = false) l.
Proof.
  destruct ev as [|[e|]|topic parsed|e|]; intros H; try discriminate;
    injection H as <-; eexists; (split; [reflexivity|repeat constructor]).
Qed.

Lemma calm_not_rejected (t : EventLoop.Task World (option Exn)) :
  EventLoop.behaves (fun e => isFetch e = false) (fun r => r = inr None) t ->
  EventLoop.rejected t = None.
Proof.
  intros H. destruct H as [r Hr| | | | |]; try reflexivity.
  subst r. reflexivity.
Qed.

Lemma did_history who who' (sys : EventLoop.System World)
      (o : EventLoop.Orchestrator World) hs (w : World) l :
  EventLoop.did who
    {| EventLoop.outside := w; EventLoop.orchestrator := o; EventLoop.handlers := hs;
       EventLoop.history := EventLoop.history sys ++ EventLoop.tag who' l |}
  = EventLoop.did who sys ++ (if EventLoop.sameParty who' who then l else []).
Proof.
  unfold EventLoop.did, EventLoop.tag. cbn [EventLoop.history].
  rewrite filter_app, map_app. f_equal.
  induction l as [|e l IH]; cbn [map filter fst snd].
  - now destruct (EventLoop.sameParty who' who).
  - destruct (EventLoop.sameParty who' who); cbn [map snd]; now rewrite IH.
Qed.

Lemma Forall_replace A (P : A -> Prop) (l : list A) : forall i a,
  Forall P l -> P a -> Forall P (EventLoop.replace l i a).
Proof.
  induction l as [|x l IH]; intros i a Hl Ha; cbn [EventLoop.replace];
    [constructor|].
  inversion Hl; subst. destruct i; constructor; auto.
Qed.

(** A tick of the client sends no HTTP request and leaves the top-level
    code where it is, unless it is a rejection. *)
Lemma step_client u delay rot (sys : EventLoop.System World) tick :
  tick <> EventLoop.Wakes -> calm sys ->
  let sys' := EventLoop.step env u delay rot sys tick in
  calm sys' /\
  (exists l, EventLoop.history sys' = EventLoop.history sys ++ EventLoop.tag EventLoop.Handlers l /\
             Forall (fun e => isFetch e = false) l) /\
  EventLoop.did EventLoop.Main sys' = EventLoop.did EventLoop.Main sys /\
  EventLoop.orchestrator sys'
  = match tick with
    | EventLoop.Arrives ev =>
        match rejection ev with
        | Some err => EventLoop.reject (EventLoop.orchestrator sys) err
        | None => EventLoop.orchestrator sys
        end
    | _ => EventLoop.orchestrator sys
    end.
Proof.
  intros Hw Hc. destruct tick as [ev|i|]; [| |now destruct Hw]; cbn [EventLoop.step].
  - destruct (rejection ev) as [err|] eqn:Hr.
    + destruct (@handler_rejects rot ev err (EventLoop.outside sys) "" Hr)
        as (l & -> & Hl).
      split; [|split; [|split]].
      * unfold calm. cbn [EventLoop.handlers].
        apply Forall_app. split; [exact Hc|]. constructor; [|constructor].
        left. eexists. reflexivity.
      * exists l. split; [reflexivity|exact Hl].
      * rewrite did_history. cbn [EventLoop.sameParty]. apply app_nil_r.
      * reflexivity.
    + pose proof (@handler_calm rot ev Hr) as Hb.
      destruct (EventLoop.advance (EventLoop.handler env rot ev) (EventLoop.outside sys) "")
        as [[[t w] c] l] eqn:E.
      destruct (advance_behaves Hb _ _ E) as [Ht Hl].
      split; [|split; [|split]].
      * unfold calm. cbn [EventLoop.handlers].
        apply Forall_app. split; [exact Hc|]. constructor; [|constructor].
        right. exact Ht.
      * exists l. split; [reflexivity|exact Hl].
      * rewrite did_history. cbn [EventLoop.sameParty]. apply app_nil_r.
      * cbn [EventLoop.orchestrator]. unfold EventLoop.settle.
        now rewrite (calm_not_rejected Ht).
  - assert (Hsame : calm sys /\
              (exists l, EventLoop.history sys
                         = EventLoop.history sys ++ EventLoop.tag EventLoop.Handlers l /\
                         Forall (fun e => isFetch e = false) l) /\
              EventLoop.did EventLoop.Main sys = EventLoop.did EventLoop.Main sys /\
              EventLoop.orchestrator sys = EventLoop.orchestrator sys).
    { split; [exact Hc|]. split; [|split; reflexivity].
      exists []. split; [now rewrite app_nil_r|constructor]. }
    destruct (nth_error (EventLoop.handlers sys) i) as [[t c]|] eqn:Hn;
      [|exact Hsame].
    assert (Hh : (exists r, t = EventLoop.Done r) \/
                 EventLoop.behaves (fun e => isFetch e = false)
                                   (fun r => r = inr None) t).
    { apply nth_error_In in Hn. unfold calm in Hc.
      rewrite Forall_forall in Hc. exact (Hc _ Hn). }
    destruct t as [r|e k|X op k|k|c0 k|k]; [exact Hsame| | | | |].
    all: destruct Hh as [[r Hr]|Hb]; [discriminate|].
    all: match goal with
         | |- context [EventLoop.resume ?t ?w ?c] =>
             destruct (EventLoop.resume t w c) as [[[t' w'] c'] l] eqn:E
         end.
    all: destruct (resume_behaves Hb _ _ E) as [Ht Hl].
    all: split; [|split; [|split]].
    all: first
           [ solve [ unfold calm; cbn [EventLoop.handlers];
                     apply Forall_replace; [exact Hc|right; exact Ht] ]
           | solve [ exists l; split; [reflexivity|exact Hl] ]
           | solve [ rewrite did_history; cbn [EventLoop.sameParty]; apply app_nil_r ]
           | solve [ cbn [EventLoop.orchestrator]; unfold EventLoop.settle;
                     now rewrite (calm_not_rejected Ht) ] ].
Qed.

Lemma wake_handlers u delay rot (sys : EventLoop.System World) :
  EventLoop.handlers (EventLoop.wake env u delay rot sys) = EventLoop.handlers sys.
Proof.
  unfold EventLoop.wake.
  destruct (EventLoop.orchestrator sys) as [|err|turn c|x]; try reflexivity.
  destruct (EventLoop.resume turn _ c) as [[[t w] c1] l].
  destruct t as [[e|a]| | | | |]; reflexivity.
Qed.

Lemma wake_calm u delay rot (sys : EventLoop.System World) :
  calm sys -> calm (EventLoop.wake env u delay rot sys).
Proof.
  unfold calm. now rewrite wake_handlers.
Qed.

(** The [catch] of the MQTT attempt: the error is logged and the first
    status POST of the polling loop is sent. *)
Lemma wake_caught u delay rot (sys : EventLoop.System World) err :
  EventLoop.orchestrator sys = EventLoop.Caught err ->
  exists turn c,
    EventLoop.orchestrator (EventLoop.wake env u delay rot sys)
    = EventLoop.Polling turn c /\
    EventLoop.did EventLoop.Main (EventLoop.wake env u delay rot sys)
    = EventLoop.did EventLoop.Main sys
      ++ [ConsoleError err; Fetch (Combined.statusRequest u)] /\
    EventLoop.behaves (fun e => isMqtt e = false) (fun r => r = inr tt) turn.
Proof.
  intros Ho. unfold EventLoop.wake. rewrite Ho.
  assert (Hl : snd (EventLoop.advance (EventLoop.pollCycle env u delay rot)
                                      (EventLoop.outside sys) "")
               = [Fetch (Combined.statusRequest u)])
    by (unfold_tasks; reflexivity).
  destruct (EventLoop.advance (EventLoop.pollCycle env u delay rot)
                              (EventLoop.outside sys) "")
    as [[[t w] c] l] eqn:E.
  cbn [snd] in Hl. subst l.
  destruct (advance_behaves (pollCycle_behaves u delay rot) _ _ E) as [Ht _].
  exists t, c. split; [reflexivity|]. split; [|exact Ht].
  rewrite did_history. reflexivity.
Qed.

(** In the polling loop the top-level code stays in the polling loop. *)
Lemma wake_polling u delay rot (sys : EventLoop.System World) turn c :
  EventLoop.orchestrator sys = EventLoop.Polling turn c ->
  EventLoop.behaves (fun e => isMqtt e = false) (fun r => r = inr tt) turn ->
  exists turn' c' l,
    EventLoop.orchestrator (EventLoop.wake env u delay rot sys)
    = EventLoop.Polling turn' c' /\
    EventLoop.did EventLoop.Main (EventLoop.wake env u delay rot sys)
    = EventLoop.did EventLoop.Main sys ++ l /\
    Forall (fun e => isMqtt e = false) l /\
    EventLoop.behaves (fun e => isMqtt e = false) (fun r => r = inr tt) turn'.
Proof.
  intros Ho Hb. unfold EventLoop.wake. rewrite Ho.
  destruct (EventLoop.resume turn (EventLoop.outside sys) c) as [[[t w] c1] l] eqn:E.
  destruct (resume_behaves Hb _ _ E) as [Ht Hl].
  destruct t as [r|e k|X op k|k|c0 k|k];
    try (eexists _, _, l; split; [reflexivity|];
         split; [rewrite did_history; reflexivity|]; split; assumption).
  inversion Ht as [r0 Hr| | | | |]; subst.
  destruct (EventLoop.advance (EventLoop.pollCycle env u delay rot) w c1)
    as [[[t' w'] c'] l'] eqn:E'.
  destruct (advance_behaves (pollCycle_behaves u delay rot) _ _ E') as [Ht' Hl'].
  exists t', c', (l ++ l'). split; [reflexivity|].
  split; [rewrite did_history; reflexivity|].
  split; [apply Forall_app; split; assumption|exact Ht'].
Qed.

Lemma exec_app u delay rot (a b : list EventLoop.Tick) (sys : EventLoop.System World) :
  EventLoop.exec env u delay rot (a ++ b) sys
  = EventLoop.exec env u delay rot b (EventLoop.exec env u delay rot a sys).
Proof. unfold EventLoop.exec. apply fold_left_app. Qed.

(** Without a rejection the top-level code stays suspended, and the
    handlers send no HTTP request. *)
Lemma exec_suspended u delay rot schedule : forall (sys : EventLoop.System World),
  Forall (fun tick => rejecting tick = false) schedule ->
  calm sys ->
  EventLoop.orchestrator sys = EventLoop.Suspended ->
  let sys' := EventLoop.exec env u delay rot schedule sys in
  calm sys' /\
  EventLoop.orchestrator sys' = EventLoop.Suspended /\
  EventLoop.did EventLoop.Main sys' = EventLoop.did EventLoop.Main sys /\
  exists l, EventLoop.history sys'
            = EventLoop.history sys ++ EventLoop.tag EventLoop.Handlers l /\
            Forall (fun e => isFetch e = false) l.
Proof.
  induction schedule as [|tick schedule IH]; intros sys Hq Hc Ho.
  { repeat (split; [assumption || reflexivity|]).
    exists []. split; [now rewrite app_nil_r|constructor]. }
  inversion Hq as [|? ? Htick Hrest]; subst.
  cbn [EventLoop.exec fold_left].
  assert (Hs : calm (EventLoop.step env u delay rot sys tick) /\
               EventLoop.orchestrator (EventLoop.step env u delay rot sys tick)
               = EventLoop.Suspended /\
               EventLoop.did EventLoop.Main (EventLoop.step env u delay rot sys tick)
               = EventLoop.did EventLoop.Main sys /\
               exists l, EventLoop.history (EventLoop.step env u delay rot sys tick)
                         = EventLoop.history sys ++ EventLoop.tag EventLoop.Handlers l /\
                         Forall (fun e => isFetch e = false) l).
  { destruct tick as [ev|i|].
    - destruct (@step_client u delay rot sys (EventLoop.Arrives ev)) as (C & L & D & O);
        [discriminate|exact Hc|].
      cbn [rejecting] in Htick.
      destruct (rejection ev); [discriminate|]. rewrite O. auto.
    - destruct (@step_client u delay rot sys (EventLoop.Resumes i)) as (C & L & D & O);
        [discriminate|exact Hc|]. rewrite O. auto.
    - cbn [EventLoop.step]. unfold EventLoop.wake. rewrite Ho.
      repeat (split; [assumption || reflexivity|]).
      exists []. split; [now rewrite app_nil_r|constructor]. }
  destruct Hs as (C & O & D & l1 & L1 & F1).
  destruct (IH _ Hrest C O) as (C' & O' & D' & l2 & L2 & F2).
  fold (EventLoop.exec env u delay rot schedule
                       (EventLoop.step env u delay rot sys tick)).
  repeat split; try assumption; [congruence|].
  exists (l1 ++ l2). split; [|apply Forall_app; split; assumption].
  rewrite L2, L1. unfold EventLoop.tag. now rewrite map_app, app_assoc.
Qed.

(** Once in the polling loop, always in the polling loop. *)
Lemma exec_polling u delay rot err after : forall (sys : EventLoop.System World),
  calm sys ->
  (exists turn c rest,
      EventLoop.orchestrator sys = EventLoop.Polling turn c /\
      EventLoop.did EventLoop.Main sys
      = ConsoleError err :: Fetch (Combined.statusRequest u) :: rest /\
      Forall (fun e => isMqtt e = false) rest /\
      EventLoop.behaves (fun e => isMqtt e = false) (fun r => r = inr tt) turn) ->
  let sys' := EventLoop.exec env u delay rot after sys in
  exists turn c rest,
    EventLoop.orchestrator sys' = EventLoop.Polling turn c /\
    EventLoop.did EventLoop.Main sys'
    = ConsoleError err :: Fetch (Combined.statusRequest u) :: rest /\
    Forall (fun e => isMqtt e = false) rest.
Proof.
  induction after as [|tick after IH]; intros sys Hc (turn & c & rest & Ho & Hd & Hr & Hb).
  - exists turn, c, rest. auto.
  - cbn [EventLoop.exec fold_left].
    fold (EventLoop.exec env u delay rot after (EventLoop.step env u delay rot sys tick)).
    apply IH.
    + destruct tick as [ev|i|];
        [ apply step_client; [discriminate|exact Hc]
        | apply step_client; [discriminate|exact Hc]
        | apply wake_calm; exact Hc ].
    + destruct tick as [ev|i|].
      * destruct (@step_client u delay rot sys (EventLoop.Arrives ev)) as (_ & _ & D & O);
          [discriminate|exact Hc|].
        exists turn, c, rest. rewrite D, O, Ho.
        destruct (rejection ev); auto.
      * destruct (@step_client u delay rot sys (EventLoop.Resumes i)) as (_ & _ & D & O);
          [discriminate|exact Hc|].
        exists turn, c, rest. rewrite D, O. auto.
      * destruct (@wake_polling u delay rot sys turn c Ho Hb)
          as (turn' & c' & l & Ho' & Hd' & Hl & Hb').
        exists turn', c', (rest ++ l). cbn [EventLoop.step].
        split; [exact Ho'|]. split; [now rewrite Hd', Hd|].
        split; [apply Forall_app; auto|exact Hb'].
Qed.

(** After the rejection: the top-level code is in the [catch] until it
    is woken, and in the polling loop from then on. *)
Lemma exec_caught u delay rot err after : forall (sys : EventLoop.System World),
  calm sys ->
  EventLoop.orchestrator sys = EventLoop.Caught err ->
  EventLoop.did EventLoop.Main sys = [] ->
  let sys' := EventLoop.exec env u delay rot after sys in
  (~ In EventLoop.Wakes after ->
   EventLoop.orchestrator sys' = EventLoop.Caught err /\
   EventLoop.did EventLoop.Main sys' = []) /\
  (In EventLoop.Wakes after ->
   exists turn c rest,
     EventLoop.orchestrator sys' = EventLoop.Polling turn c /\
     EventLoop.did EventLoop.Main sys'
     = ConsoleError err :: Fetch (Combined.statusRequest u) :: rest /\
     Forall (fun e => isMqtt e = false) rest).
Proof.
  induction after as [|tick after IH]; intros sys Hc Ho Hd.
  - split; [auto|intros []].
  - cbn [EventLoop.exec fold_left].
    fold (EventLoop.exec env u delay rot after (EventLoop.step env u delay rot sys tick)).
    destruct tick as [ev|i|].
    + destruct (@step_client u delay rot sys (EventLoop.Arrives ev)) as (C & _ & D & O);
        [discriminate|exact Hc|].
      assert (O' : EventLoop.orchestrator
                     (EventLoop.step env u delay rot sys (EventLoop.Arrives ev))
                   = EventLoop.Caught err)
        by (rewrite O, Ho; destruct (rejection ev); reflexivity).
      destruct (IH _ C O' (eq_trans D Hd)) as [H1 H2].
      split; intros H; [apply H1|apply H2].
      * intros Hin. apply H. now right.
      * destruct H as [H|H]; [discriminate|exact H].
    + destruct (@step_client u delay rot sys (EventLoop.Resumes i)) as (C & _ & D & O);
        [discriminate|exact Hc|].
      destruct (IH _ C (eq_trans O Ho) (eq_trans D Hd)) as [H1 H2].
      split; intros H; [apply H1|apply H2].
      * intros Hin. apply H. now right.
      * destruct H as [H|H]; [discriminate|exact H].
    + split; [intros H; exfalso; apply H; now left|intros _].
      destruct (@wake_caught u delay rot sys err Ho) as (turn & c & Ho' & Hd' & Hb).
      apply exec_polling; [apply wake_calm; exact Hc|].
      exists turn, c, []. cbn [EventLoop.step].
      split; [exact Ho'|]. split; [now rewrite Hd', Hd|]. split; [constructor|exact Hb].
Qed.

(** A handler starts whatever the top-level code is doing. *)
Lemma arrival_handled u delay rot (sys : EventLoop.System World) ev :
  EventLoop.did EventLoop.Handlers
                (EventLoop.step env u delay rot sys (EventLoop.Arrives ev))
  = EventLoop.did EventLoop.Handlers sys
    ++ snd (EventLoop.advance (EventLoop.handler env rot ev) (EventLoop.outside sys) "").
Proof.
  cbn [EventLoop.step].
  destruct (EventLoop.advance _ _ _) as [[[t w] c] l].
  now rewrite did_history.
Qed.


(** Run alone and to its end, a turn of the polling loop and a handler
    are the functions of [Combined]. *)
Lemma run_pollCycle u delay rot (s : St World) :
  EventLoop.run (EventLoop.pollCycle env u delay rot) s
  = Combined.pollCycle env u delay rot s.
Proof.
  unfold_tasks.
  unfold Combined.pollCycle, Combined.post, Combined.service, Combined.serviceBody,
    Combined.get, Combined.delete_.
  unfold_monad. cbn [EventLoop.run world code].
  repeat (case_step; cbn [EventLoop.run EventLoop.andThen world code app]);
    reflexivity.
Qed.

Lemma run_handler rot ev (s : St World) :
  EventLoop.run (EventLoop.handler env rot ev) s = Combined.deliver env rot ev s.
Proof.
  destruct ev as [|[err|]|topic parsed|err|]; try reflexivity.
  unfold_tasks.
  unfold Combined.deliver, Combined.handleMqttMessage, Combined.handlePrintJob,
    Combined.printJobBody, Combined.printJobFinally.
  unfold_monad. cbn [EventLoop.run world code].
  repeat (case_step; cbn [EventLoop.run EventLoop.andThen world code app]);
    reflexivity.
Qed.


(** C7, as amended.  When the server offers MQTT the top-level code is
    suspended in [await runMqttMode(...)] once the client is made, and
    the run is driven by the events of the client, in any order and
    with any interleaving of the functions under way.  As long as no
    handler rejects (events 'connect', 'message', 'close', a subscribe
    that succeeds) the promise stays pending, the top-level code does
    nothing and nobody sends an HTTP request: a dropped connection is
    not surfaced.  The first 'error' event, or failed subscribe,
    rejects the promise; when the top-level code runs next it logs that
    error and sends the status POST of the polling loop, and it is in
    the polling loop from then on, whatever comes after (it touches no
    broker, does not exit, and later errors change nothing for it).
    The client is never ended by the program: in every state of the
    run a 'connect' makes its handler subscribe and publish the status,
    and a print job starts being handled. *)
Theorem mqtt_error_falls_back (fuel : nat) (u : Url) (delay : Z) (rotate180 : bool)
        (w : World) (ss : ServerSettings) (ms : MqttConnectionSetting)
        (s1 : St World) (t1 : list Event) :
  Combined.getServerSettings env u (initial w) = (inr (Some ss), s1, t1) ->
  useMQTT ss = true ->
  mqttSettings ss = Some ms ->
  Combined.main env fuel u delay rotate180 (initial w)
  = (inr AwaitingMqtt, s1, t1 ++ [MqttConnect (Combined.connectOptions ms)]) /\
  (forall schedule,
      Forall (fun tick => rejecting tick = false) schedule ->
      let sys := EventLoop.exec env u delay rotate180 schedule
                                (EventLoop.started (world s1)) in
      EventLoop.orchestrator sys = EventLoop.Suspended /\
      EventLoop.did EventLoop.Main sys = [] /\
      Forall (fun x => isFetch (snd x) = false) (EventLoop.history sys)) /\
  (forall before ev err after,
      Forall (fun tick => rejecting tick = false) before ->
      rejection ev = Some err ->
      let sys := EventLoop.exec env u delay rotate180
                                (before ++ EventLoop.Arrives ev :: after)
                                (EventLoop.started (world s1)) in
      (~ In EventLoop.Wakes after ->
       EventLoop.orchestrator sys = EventLoop.Caught err /\
       EventLoop.did EventLoop.Main sys = []) /\
      (In EventLoop.Wakes after ->
       exists turn code rest,
         EventLoop.orchestrator sys = EventLoop.Polling turn code /\
         EventLoop.did EventLoop.Main sys
         = ConsoleError err :: Fetch (Combined.statusRequest u) :: rest /\
         Forall (fun e => isMqtt e = false) rest)) /\
  (forall schedule topic payload,
      let sys := EventLoop.exec env u delay rotate180 schedule
                                (EventLoop.started (world s1)) in
      EventLoop.did EventLoop.Handlers
        (EventLoop.step env u delay rotate180 sys (EventLoop.Arrives Combined.OnConnect))
      = EventLoop.did EventLoop.Handlers sys
        ++ [Subscribe Combined.deviceTopic;
            Publish Combined.clientStatusTopic (ClientStatus false)] /\
      (title payload = Some "print-job" ->
       EventLoop.did EventLoop.Handlers
         (EventLoop.step env u delay rotate180 sys
                         (EventLoop.Arrives (Combined.OnMessage topic (inr payload))))
       = EventLoop.did EventLoop.Handlers sys
         ++ [Publish Combined.clientStatusTopic (ClientStatus true)])).
Proof.
  intros Hs Hu Hms.
  assert (Hcalm : calm (EventLoop.started (world s1))) by constructor.
  split; [|split; [|split]].
  - unfold Combined.main, Combined.runMqttMode. unfold_monad.
    rewrite Hs, Hu, Hms. cbn [app]. now rewrite ?app_nil_r.
  - intros schedule Hq sys.
    destruct (@exec_suspended u delay rotate180 schedule _ Hq Hcalm eq_refl)
      as (_ & O & D & l & L & F).
    split; [exact O|]. split; [exact D|].
    subst sys. rewrite L. cbn [EventLoop.started EventLoop.history app].
    unfold EventLoop.tag. apply Forall_map. exact F.
  - intros before ev err after Hq Hev sys. subst sys.
    rewrite exec_app.
    destruct (@exec_suspended u delay rotate180 before _ Hq Hcalm eq_refl)
      as (C & O & D & _).
    set (sys0 := EventLoop.exec env u delay rotate180 before
                                (EventLoop.started (world s1))) in *.
    cbn [EventLoop.exec fold_left].
    fold (EventLoop.exec env u delay rotate180 after
            (EventLoop.step env u delay rotate180 sys0 (EventLoop.Arrives ev))).
    destruct (@step_client u delay rotate180 sys0 (EventLoop.Arrives ev))
      as (C1 & _ & D1 & O1); [discriminate|exact C|].
    rewrite Hev, O in O1. cbn [EventLoop.reject] in O1.
    apply exec_caught; [exact C1|exact O1|].
    rewrite D1. exact D.
  - intros schedule topic payload sys. split.
    + rewrite arrival_handled. reflexivity.
    + intros Ht. rewrite arrival_handled. f_equal.
      unfold_tasks. rewrite Ht. reflexivity.
Qed.

(** ** Settings discovery *)

(** Every turn of the retry loop starts with the request. *)
Lemma settingsLoop_starts fuel settingsUrl attempt (s : St World) :
  attempt <= 3 ->
  exists tail,
    trace_of (Combined.settingsLoop env (S fuel) settingsUrl attempt s)
    = Fetch (Combined.settingsRequest settingsUrl) :: tail.
Proof.
  intros Ha. cbn [Combined.settingsLoop].
  destruct (Z.leb_spec attempt 3); [|lia].
  unfold_monad. cbn [world code].
  destruct (fetch env _ (world s)) as [[e|resp] w1].
  - destruct (attempt =? 3); cbn; [eauto|].
    destruct (Combined.settingsLoop env fuel settingsUrl (attempt + 1) _) as [[r s2] t2].
    cbn. eauto.
  - cbn [app].
    repeat match goal with
           | |- context [if ?c then _ else _] => destruct c
           | |- context [match json_settings env ?b with _ => _ end] =>
               destruct (json_settings env b)
           | |- context [match Combined.parseServerSettings ?b with _ => _ end] =>
               destruct (Combined.parseServerSettings b)
           | |- context [Combined.settingsLoop env fuel ?a ?b ?c] =>
               destruct (Combined.settingsLoop env fuel a b c) as [[? ?] ?]
           | _ => progress cbn [trace_of snd fst app]
           end; eauto.
Qed.

(** The unsupported-mode error of the first attempts is caught by the
    retry loop: the negotiator sleeps and asks again. *)
Lemma settingsLoop_trigger_post fuel settingsUrl attempt (s : St World) resp w1 settings :
  attempt < 3 ->
  fetch env (Combined.settingsRequest settingsUrl) (world s) = (inr resp, w1) ->
  statusOf resp = 200 ->
  json_settings env (bodyOf resp) = inr settings ->
  Combined.parseServerSettings settings = inl TriggerPostUnsupported ->
  trace_of (Combined.settingsLoop env (S fuel) settingsUrl attempt s)
  = Fetch (Combined.settingsRequest settingsUrl)
    :: Sleep 5000
    :: trace_of (Combined.settingsLoop env fuel settingsUrl (attempt + 1)
                                       {| world := w1; code := code s |}).
Proof.
  intros Ha Hf Hs Hj Hp. cbn [Combined.settingsLoop].
  destruct (Z.leb_spec attempt 3); [|lia].
  destruct (Z.eqb_spec attempt 3); [lia|].
  unfold_monad. rewrite Hf, Hs. cbn [Z.eqb Pos.eqb]. rewrite Hj, Hp.
  cbn [world code app].
  destruct (Combined.settingsLoop env fuel settingsUrl (attempt + 1) _) as [[r s2] t2].
  reflexivity.
Qed.

Lemma trigger_post_caught u (w w1 : World) resp settings :
  fetch env (Combined.settingsRequest (Combined.settingsUrlOf u)) w = (inr resp, w1) ->
  statusOf resp = 200 ->
  json_settings env (bodyOf resp) = inr settings ->
  Combined.parseServerSettings settings = inl TriggerPostUnsupported ->
  exists tail,
    trace_of (Combined.getServerSettings env u (initial w))
    = Fetch (Combined.settingsRequest (Combined.settingsUrlOf u))
      :: Sleep 5000
      :: Fetch (Combined.settingsRequest (Combined.settingsUrlOf u)) :: tail.
Proof.
  intros Hf Hs Hj Hp. unfold Combined.getServerSettings.
  rewrite (@settingsLoop_trigger_post 2 (Combined.settingsUrlOf u) 1 (initial w)
                                      resp w1 settings); try assumption; [|lia].
  destruct (@settingsLoop_starts 1 (Combined.settingsUrlOf u) (1 + 1)
                                 {| world := w1; code := code (initial w) |})
    as [tail Ht]; [lia|].
  rewrite Ht. eauto.
Qed.
End TransportFacts.

(* ================================================================== *)
(** * The programs on the scripted world *)
(* ================================================================== *)

Lemma ack_exactly_once_witness :
  deletes (trace_of (Combined.pollCycle
                       Script.env Script.pollUrl 5000 false
                       (initial (Script.serving Script.rasterJob Script.handsOutRaster))))
  = [Fetch (Combined.ackRequest Script.pollUrl "200" (Some "abc"))] /\
  deletes (trace_of (IndexJs.pollCycle
                       Script.env None None Script.pollUrl 5000
                       (initial (Script.serving Script.pngJob Script.acknowledges))))
  = [Fetch (IndexJs.ackRequest Script.pollUrl "510" (Some "abc") None None)].
Proof.
  split.
  - pose proof (@ack_exactly_once
                  _ _ Script.env Script.pollUrl 5000 false None None
                  (Script.serving Script.rasterJob Script.handsOutRaster)
                  Script.handsOutRaster
                  (Script.answerOf Script.rasterJob) Script.rasterJob
                  eq_refl eq_refl eq_refl) as [H _].
    specialize (H eq_refl). cbv zeta in H. destruct H as [H _]. exact H.
  - pose proof (@ack_exactly_once
                  _ _ Script.env Script.pollUrl 5000 false None None
                  (Script.serving Script.pngJob Script.acknowledges)
                  Script.acknowledges
                  (Script.answerOf Script.pngJob) Script.pngJob
                  eq_refl eq_refl eq_refl) as [_ H].
    specialize (H eq_refl). cbv zeta in H. destruct H as [H _]. exact H.
Defined.





Lemma print_job_reported_witness :
  printResults (trace_of (Combined.handlePrintJob
                            Script.env (Script.printJob "raw" [starprntType]) false
                            (initial Script.takesAll)))
  = [Publish Combined.printResultTopic (PrintResult (Some "abc") true "200")] /\
  notPrinting (trace_of (Combined.handlePrintJob
                           Script.env (Script.printJob "raw" [starprntType]) false
                           (initial Script.takesAll)))
  = [Publish Combined.clientStatusTopic (ClientStatus false)] /\
  code (state_of (Combined.printJobBody
                    Script.env (Script.printJob "pdf" [starprntType]) false
                    {| world := Script.takesAll; code := "500" |}))
  = "500" /\
  code (state_of (Combined.printJobBody
                    Script.env (Script.printJob "raw" [starprntType; pngType]) false
                    {| world := Script.takesAll; code := "500" |}))
  = "510".
Proof.
  pose proof (@print_job_reported _ _ Script.env (Script.printJob "raw" [starprntType])
                                  false (initial Script.takesAll)) as H1.
  pose proof (@print_job_reported _ _ Script.env (Script.printJob "pdf" [starprntType])
                                  false (initial Script.takesAll)) as H2.
  pose proof (@print_job_reported _ _ Script.env
                                  (Script.printJob "raw" [starprntType; pngType])
                                  false (initial Script.takesAll)) as H3.
  cbv zeta in H1, H2, H3.
  destruct H1 as (Hr & _ & _ & _ & _ & Hn).
  destruct H2 as (_ & _ & Hraw & _).
  destruct H3 as (_ & _ & _ & Hmedia & _).
  split; [exact Hr|]. split; [exact (proj2 (Hn eq_refl))|].
  split; [apply Hraw; discriminate|].
  apply Hmedia; [reflexivity|reflexivity|discriminate].
Defined.

(** C5 as stated fails: when the print-result publish is rejected, the
    [finally] block ends there and no not-printing status follows. *)
Lemma print_result_failure_skips_status :
  printResults (trace_of (Combined.handlePrintJob
                            Script.env (Script.printJob "raw" [starprntType]) false
                            (initial Script.failsSecond)))
  = [Publish Combined.printResultTopic (PrintResult (Some "abc") true "200")] /\
  notPrinting (trace_of (Combined.handlePrintJob
                           Script.env (Script.printJob "raw" [starprntType]) false
                           (initial Script.failsSecond)))
  = [].
Proof. split; reflexivity. Qed.

Lemma mqtt_error_falls_back_witness :
  let sys := EventLoop.exec Script.env Script.pollUrl 5000 false Script.connectionError
                            (EventLoop.started (Script.serving Script.rasterJob
                                                               Script.handsOutRaster)) in
  exists turn code rest,
    EventLoop.orchestrator sys = EventLoop.Polling turn code /\
    EventLoop.did EventLoop.Main sys
    = ConsoleError (External "ECONNRESET")
      :: Fetch (Combined.statusRequest Script.pollUrl) :: rest /\
    Forall (fun e => isMqtt e = false) rest.
Proof.
  pose (x := Combined.getServerSettings Script.env Script.pollUrl
                                          (initial Script.mqttServer)).
  destruct (@mqtt_error_falls_back
              _ _ Script.env 1 Script.pollUrl 5000 false Script.mqttServer
              {| useMQTT := true; mqttSettings := Some Script.mqttSetting |}
              Script.mqttSetting (state_of x) (trace_of x)
              eq_refl eq_refl eq_refl) as (_ & _ & H & _).
  destruct (H Script.connects (Combined.OnError (External "ECONNRESET"))
              (External "ECONNRESET") [EventLoop.Wakes]) as [_ H'].
  - repeat constructor.
  - reflexivity.
  - apply H'. left. reflexivity.
Defined.

(** C7 as stated fails: after a dropped connection (the 'close' event)
    the promise of [runMqttMode] is still pending; the top-level code,
    though woken, stays suspended in MQTT mode and never polls over
    HTTP. *)
Lemma dropped_connection_not_surfaced :
  let sys := EventLoop.exec Script.env Script.pollUrl 5000 false Script.connectionDropped
                            (EventLoop.started (Script.serving Script.rasterJob
                                                               Script.handsOutRaster)) in
  EventLoop.orchestrator sys = EventLoop.Suspended /\
  EventLoop.did EventLoop.Main sys = [] /\
  EventLoop.did EventLoop.Handlers sys
  = [Subscribe Combined.deviceTopic;
     Publish Combined.clientStatusTopic (ClientStatus false)].
Proof. repeat split. Qed.

(** After the fallback the MQTT side goes on: the client connects
    again and a print job arrives; the handlers subscribe, publish and
    print in between the steps of the polling loop. *)
Lemma client_survives_fallback :
  let sys := EventLoop.exec
               Script.env Script.pollUrl 5000 false
               (Script.connectionError
                  ++ [EventLoop.Arrives Combined.OnConnect;
                      EventLoop.Arrives
                        (Combined.OnMessage "job"
                           (inr (Script.printJob "raw" [starprntType])));
                      EventLoop.Wakes; EventLoop.Wakes; EventLoop.Wakes;
                      EventLoop.Resumes 4; EventLoop.Resumes 4])
               (EventLoop.started
                  {| Script.responses := [inr (Script.answerOf (Script.asking []))];
                     Script.publishes := [inr tt; inr tt; inr tt] |}) in
  map fst (EventLoop.history sys)
  = [EventLoop.Handlers; EventLoop.Handlers; EventLoop.Handlers;
     EventLoop.Main; EventLoop.Main;
     EventLoop.Handlers; EventLoop.Handlers; EventLoop.Handlers;
     EventLoop.Main;
     EventLoop.Handlers; EventLoop.Handlers; EventLoop.Handlers] /\
  EventLoop.did EventLoop.Main sys
  = [ConsoleError (External "ECONNRESET");
     Fetch (Combined.statusRequest Script.pollUrl); Sleep 5000] /\
  EventLoop.did EventLoop.Handlers sys
  = [Subscribe Combined.deviceTopic;
     Publish Combined.clientStatusTopic (ClientStatus false);
     ConsoleError (External "ECONNRESET");
     Subscribe Combined.deviceTopic;
     Publish Combined.clientStatusTopic (ClientStatus false);
     Publish Combined.clientStatusTopic (ClientStatus true);
     WriteFile "img-" (Starprnt.rendered Script.raster 16 (9 * 8));
     Publish Combined.printResultTopic (PrintResult (Some "abc") true "200");
     Publish Combined.clientStatusTopic (ClientStatus false)].
Proof. repeat split. Qed.

(** C6, the code at the failing input.  [parseServerSettings] throws the
    unsupported-mode error, but inside the [try] of the retry loop: the
    [catch] written for timeouts and network errors takes it, sleeps five
    seconds and asks again.  A server that insists is asked three times
    before the error gets out; when the second answer is 404 the
    negotiation ends in plain HTTP polling. *)
Theorem trigger_post_retried :
  Combined.parseServerSettings
    {| serverSupportProtocol := Some ["HTTP"; "MQTT"];
       settingForMQTT := Some {| useTriggerPOST := Some true;
                                 mqttConnectionSetting := Some Script.mqttSetting |} |}
  = inl TriggerPostUnsupported /\
  Combined.getServerSettings Script.env Script.pollUrl (initial Script.insists)
  = (inl TriggerPostUnsupported, initial (Script.server []),
     [ Fetch (Combined.settingsRequest (Combined.settingsUrlOf Script.pollUrl));
       Sleep 5000;
       Fetch (Combined.settingsRequest (Combined.settingsUrlOf Script.pollUrl));
       Sleep 5000;
       Fetch (Combined.settingsRequest (Combined.settingsUrlOf Script.pollUrl)) ]) /\
  completion_of (Combined.getServerSettings Script.env Script.pollUrl
                                            (initial Script.relents))
  = inr (Some {| useMQTT := false; mqttSettings := None |}) /\
  Combined.main Script.env 1 Script.pollUrl 5000 false (initial Script.relents)
  = (inr InHttpPolling, initial (Script.server []),
     [ Fetch (Combined.settingsRequest (Combined.settingsUrlOf Script.pollUrl));
       Sleep 5000;
       Fetch (Combined.settingsRequest (Combined.settingsUrlOf Script.pollUrl));
       Fetch (Combined.statusRequest Script.pollUrl);
       Sleep 5000 ]).
Proof. repeat split. Qed.

(* ================================================================== *)
(** * Further properties: the decoder, the negotiation, the loops *)
(* ================================================================== *)

Module StarprntMore.
Import Starprnt.
Import StarprntFacts.

Lemma pixelOf_two_values input inPtr :
  pixelOf input inPtr = x00 \/ pixelOf input inPtr = xff.
Proof.
  unfold pixelOf. destruct (_ =? 0); auto.
Qed.

Lemma rendered_two_values input k : forall inPtr,
  Forall (fun b => b = x00 \/ b = xff) (rendered input k inPtr).
Proof.
  induction k as [|k IH]; intros inPtr; cbn [rendered]; [constructor|].
  pose proof (pixelOf_two_values input inPtr).
  do 3 (apply Forall_cons; [assumption|]).
  apply Forall_cons; [now right|]. apply IH.
Qed.

(** A successful decoding went through the header check. *)
Lemma decode_inr_magic allocates input img :
  decode allocates input = inr img -> magic input.
Proof.
  intros H. apply badHeader_false. unfold decode in H.
  destruct (badHeader input); [discriminate|reflexivity].
Qed.

(** What a successful decoding returns. *)
Lemma decode_inr allocates input img :
  decode allocates input = inr img ->
  exists wB h,
    le16 input 4 = Some wB /\ le16 input 6 = Some h /\
    0 <= wB <= 65535 /\ 0 <= h <= 65535 /\
    img = {| data := rendered input (Z.to_nat (wB * 8 * h)) (9 * 8);
             width := wB * 8; height := h |}.
Proof.
  intros H.
  destruct (@decode_magic allocates input (@decode_inr_magic allocates input img H))
    as (b4 & b5 & b6 & b7 & H4 & H5 & H6 & H7 & Hd).
  cbv zeta in Hd.
  destruct (@le16_bytes input 4 _ _ H4 H5) as [Hw Hwr].
  destruct (@le16_bytes input 6 _ _ H6 H7) as [Hh Hhr].
  exists (u8 b4 + 256 * u8 b5), (u8 b6 + 256 * u8 b7).
  repeat (split; [assumption || lia|]).
  destruct (allocates _); congruence.
Qed.

(** X1. An image the decoder returns has two colours only: every byte
    of its pixel buffer is 0 or 255, and every pixel is opaque black
    (0,0,0,255) or opaque white (255,255,255,255). *)
Theorem decode_two_colours (allocates : Z -> bool) (input : Uint8Array)
        (img : ImageData) :
  decode allocates input = inr img ->
  Forall (fun b => b = x00 \/ b = xff) (data img) /\
  (forall x y, 0 <= x < width img -> 0 <= y < height img ->
               pixelAt img x y = black \/ pixelAt img x y = white).
Proof.
  intros H.
  destruct (@decode_inr allocates input img H) as (wB & h & _ & _ & Hw & Hh & ->).
  cbn [data width height]. split; [apply rendered_two_values|].
  intros x y Hx Hy. pose proof (@pixel_index _ _ _ _ Hx Hy) as Hk.
  unfold pixelAt. cbn [data width].
  rewrite rendered_pixel by (apply Z2Nat.inj_lt; lia). cbv zeta.
  destruct (pixelOf_two_values input (9 * 8 + Z.of_nat (Z.to_nat (y * (wB * 8) + x))))
    as [-> | ->]; [left|right]; reflexivity.
Qed.


Lemma index_app_in (a e : Uint8Array) j :
  0 <= j < Z.of_nat (length a) -> index (a ++ e) j = index a j.
Proof.
  intros Hj. unfold index. destruct (Z.ltb_spec j 0); [lia|].
  rewrite nth_error_app1 by lia. reflexivity.
Qed.

Lemma index_negative (a : Uint8Array) j : j < 0 -> index a j = None.
Proof.
  intros Hj. unfold index. destruct (Z.ltb_spec j 0); [reflexivity|lia].
Qed.

Lemma badHeader_app (a e : Uint8Array) :
  (9 <= length a)%nat -> badHeader (a ++ e) = badHeader a.
Proof.
  intros Hl. unfold badHeader, differs.
  rewrite !index_app_in by lia. reflexivity.
Qed.

Lemma int32At_app_in (a e : Uint8Array) j :
  0 <= j < Z.of_nat (length a) -> int32At (a ++ e) j = int32At a j.
Proof.
  intros Hj. unfold int32At. now rewrite index_app_in.
Qed.

(** A zero byte reads like no byte. *)
Lemma int32At_zero_padded (a : Uint8Array) n j :
  int32At (a ++ repeat x00 n) j = int32At a j.
Proof.
  unfold int32At.
  destruct (Z.lt_ge_cases j 0) as [Hn|Hn]; [now rewrite !index_negative|].
  destruct (Z.lt_ge_cases j (Z.of_nat (length a))) as [Hl|Hl];
    [now rewrite index_app_in by lia|].
  unfold index. destruct (Z.ltb_spec j 0); [lia|].
  rewrite nth_error_app2 by lia.
  assert (Ha : nth_error a (Z.to_nat j) = None) by (apply nth_error_None; lia).
  rewrite Ha. cbn [option_map].
  destruct (nth_error (repeat x00 n) (Z.to_nat j - length a)) as [b|] eqn:E;
    [|reflexivity].
  apply nth_error_In, repeat_spec in E. subst b. reflexivity.
Qed.

Lemma decodeLoop_ext (a b : Uint8Array) :
  (forall p, pixelOf a p = pixelOf b p) ->
  forall fuel pixelData outPtr inPtr,
    decodeLoop fuel a pixelData outPtr inPtr = decodeLoop fuel b pixelData outPtr inPtr.
Proof.
  intros Hp. induction fuel as [|fuel IH]; intros pixelData outPtr inPtr;
    cbn [decodeLoop]; [reflexivity|].
  destruct (outPtr <? length pixelData)%nat; [|reflexivity].
  rewrite Hp. apply IH.
Qed.

(** X3. Bytes missing at the end of a buffer that holds the whole
    9-byte header are read as zero: appending any number of 0x00 bytes
    changes nothing in the result (image or error), whatever the engine
    allocates. *)
Theorem missing_bytes_read_as_zero (allocates : Z -> bool) (input : Uint8Array)
        (n : nat) :
  (9 <= length input)%nat ->
  decode allocates (input ++ repeat x00 n) = decode allocates input.
Proof.
  intros Hl. unfold decode.
  rewrite badHeader_app by exact Hl.
  destruct (badHeader input); [reflexivity|].
  rewrite !int32At_zero_padded.
  destruct (newUint8Array _ _) as [e|pixelData]; [reflexivity|].
  f_equal. f_equal.
  apply decodeLoop_ext. intros p. unfold pixelOf.
  now rewrite int32At_zero_padded.
Qed.

Lemma rendered_ext (a b : Uint8Array) k : forall inPtr,
  (forall j, (j < k)%nat ->
             pixelOf a (inPtr + Z.of_nat j) = pixelOf b (inPtr + Z.of_nat j)) ->
  rendered a k inPtr = rendered b k inPtr.
Proof.
  induction k as [|k IH]; intros inPtr Hp; cbn [rendered]; [reflexivity|].
  pose proof (Hp 0%nat ltac:(lia)) as H0. rewrite Z.add_0_r in H0. rewrite H0.
  cbv zeta. do 4 f_equal. apply IH. intros j Hj.
  replace (inPtr + 1 + Z.of_nat j) with (inPtr + Z.of_nat (S j)) by lia.
  apply Hp. lia.
Qed.

(** X4. Bytes behind the pixel data are ignored: when the buffer holds
    the 9 header bytes and the [widthBytes * height] data bytes that the
    header declares, whatever follows does not change the result. *)
Theorem trailing_bytes_ignored (allocates : Z -> bool) (input extra : Uint8Array)
        (wB h : Z) :
  le16 input 4 = Some wB -> le16 input 6 = Some h ->
  9 + wB * h <= Z.of_nat (length input) ->
  decode allocates (input ++ extra) = decode allocates input.
Proof.
  intros Hw Hh Hlen.
  assert (H9 : (9 <= length input)%nat).
  { assert (Hr : 0 <= wB /\ 0 <= h).
    { unfold le16 in Hw, Hh.
      destruct (nth_error input 4) as [lo|], (nth_error input 5) as [hi|];
        try discriminate.
      destruct (nth_error input 6) as [lo'|], (nth_error input 7) as [hi'|];
        try discriminate.
      pose proof (u8_range lo). pose proof (u8_range hi).
      pose proof (u8_range lo'). pose proof (u8_range hi').
      assert (wB = u8 lo + 256 * u8 hi) by congruence.
      assert (h = u8 lo' + 256 * u8 hi') by congruence. lia. }
    assert (0 <= wB * h) by (apply Z.mul_nonneg_nonneg; tauto).
    lia. }
  destruct (badHeader input) eqn:Hb.
  { unfold decode. now rewrite badHeader_app, Hb by exact H9. }
  assert (Hm : magic input) by now apply badHeader_false.
  assert (Hm' : magic (input ++ extra)).
  { unfold magic in *. rewrite !nth_error_app1 by lia. exact Hm. }
  destruct (@decode_magic allocates input Hm)
    as (b4 & b5 & b6 & b7 & H4 & H5 & H6 & H7 & Hd).
  destruct (@decode_magic allocates (input ++ extra) Hm')
    as (c4 & c5 & c6 & c7 & G4 & G5 & G6 & G7 & Hd').
  rewrite nth_error_app1 in G4, G5, G6, G7 by lia.
  assert (c4 = b4) by congruence. assert (c5 = b5) by congruence.
  assert (c6 = b6) by congruence. assert (c7 = b7) by congruence. subst.
  cbv zeta in Hd, Hd'. rewrite Hd, Hd'.
  destruct (@le16_bytes input 4 _ _ H4 H5) as [Hw' Hwr].
  destruct (@le16_bytes input 6 _ _ H6 H7) as [Hh' Hhr].
  assert (wB = u8 b4 + 256 * u8 b5) by congruence.
  assert (h = u8 b6 + 256 * u8 b7) by congruence. subst wB h.
  set (wB := u8 b4 + 256 * u8 b5) in *. set (h := u8 b6 + 256 * u8 b7) in *.
  destruct (allocates _); [|reflexivity].
  do 2 f_equal. apply rendered_ext. intros k Hk.
  unfold pixelOf. destruct (inPtr_split k) as [-> _].
  assert (Hi : Z.of_nat (9 + k / 8) < 9 + wB * h).
  { rewrite Nat2Z.inj_add, Nat2Z.inj_div.
    change (Z.of_nat 9) with 9. change (Z.of_nat 8) with 8.
    assert (Z.of_nat k < wB * 8 * h) by lia.
    assert (Z.of_nat k / 8 < wB * h) by (apply Z.div_lt_upper_bound; lia).
    lia. }
  destruct (Z.lt_ge_cases (Z.of_nat (9 + k / 8)) (2 ^ 31)) as [Hs|Hs].
  - rewrite ToInt32_small by (split; [lia|exact Hs]).
    rewrite int32At_app_in by lia. reflexivity.
  - assert (Hn : ToInt32 (Z.of_nat (9 + k / 8)) < 0).
    { apply ToInt32_high. split; [exact Hs|].
      change (2 ^ 32) with 4294967296.
      assert (wB * h <= 65535 * 65535) by nia. lia. }
    unfold int32At. now rewrite !index_negative.
Qed.

Lemma decode_two_colours_witness :
  Forall (fun b => b = x00 \/ b = xff)
         (rendered Script.raster 16 (9 * 8)).
Proof.
  apply (@decode_two_colours
           Script.limited Script.raster
           {| data := rendered Script.raster 16 (9 * 8); width := 8; height := 2 |}).
  reflexivity.
Defined.


Lemma missing_bytes_read_as_zero_witness :
  decode Script.limited (Script.truncated ++ repeat x00 1)
  = decode Script.limited Script.truncated.
Proof.
  apply missing_bytes_read_as_zero. vm_compute. lia.
Defined.

Lemma trailing_bytes_ignored_witness :
  decode Script.limited (Script.raster ++ [xff; xff])
  = decode Script.limited Script.raster.
Proof.
  apply (@trailing_bytes_ignored Script.limited Script.raster [xff; xff] 1 2);
    [reflexivity|reflexivity|vm_compute; discriminate].
Defined.
End StarprntMore.

Section Always.
Variable World : Type.
Variable P : Event -> Prop.

Lemma always_ret A (a : A) : always P (@ret World A a).
Proof. intros s. constructor. Qed.

Lemma always_throw A e : always P (@throw World A e).
Proof. intros s. constructor. Qed.

Lemma always_lift A (r : result A) : always P (@lift World A r).
Proof. intros s. constructor. Qed.

Lemma always_set_code c : always P (@set_code World c).
Proof. intros s. constructor. Qed.

Lemma always_get_code : always P (@get_code World).
Proof. intros s. constructor. Qed.

Lemma always_emit e : P e -> always P (@emit World e).
Proof. intros H s. repeat constructor. exact H. Qed.

Lemma always_call A e (f : World -> result A * World) :
  P e -> always P (call e f).
Proof.
  intros H s. unfold call, trace_of. destruct (f (world s)).
  repeat constructor. exact H.
Qed.

Lemma always_bind A B (m : M World A) (f : A -> M World B) :
  always P m -> (forall a, always P (f a)) -> always P (bind m f).
Proof.
  intros Hm Hf s. unfold bind. specialize (Hm s).
  destruct (m s) as [[[e|a] s1] t1]; cbn [trace_of snd] in *; [exact Hm|].
  specialize (Hf a s1). destruct (f a s1) as [[r s2] t2]. cbn [trace_of snd] in *.
  apply Forall_app. split; assumption.
Qed.

Lemma always_try_catch A (m : M World A) (h : Exn -> M World A) :
  always P m -> (forall e, always P (h e)) -> always P (try_catch m h).
Proof.
  intros Hm Hh s. unfold try_catch. specialize (Hm s).
  destruct (m s) as [[[e|a] s1] t1]; cbn [trace_of snd] in *; [|exact Hm].
  specialize (Hh e s1). destruct (h e s1) as [[r s2] t2]. cbn [trace_of snd] in *.
  apply Forall_app. split; assumption.
Qed.

Lemma always_try_finally A (m : M World A) (fin : M World unit) :
  always P m -> always P fin -> always P (try_finally m fin).
Proof.
  intros Hm Hf s. unfold try_finally. specialize (Hm s).
  destruct (m s) as [[r s1] t1]. specialize (Hf s1).
  destruct (fin s1) as [[[e|u] s2] t2]; cbn [trace_of snd] in *;
    apply Forall_app; split; assumption.
Qed.
End Always.

(** Breaks a computation into its calls and events. *)
Ltac always_step :=
  first
    [ apply always_ret | apply always_throw | apply always_lift
    | apply always_set_code | apply always_get_code
    | apply always_bind; [|intros ?]
    | apply always_try_catch; [|intros ?]
    | apply always_try_finally
    | apply always_emit | apply always_call
    | match goal with
      | |- always _ (match ?x with _ => _ end) => destruct x
      | |- always _ (if ?x then _ else _) => destruct x
      end ].

Ltac always_auto := repeat always_step.

Lemma extends_refl u : extends u u.
Proof.
  repeat split. exists []. now rewrite app_nil_r.
Qed.

Lemma extends_append u v k x : extends u v -> extends u (append_param v k x).
Proof.
  intros (Ho & Hp & params & Hq). repeat split; cbn; try assumption.
  exists (params ++ [(k, x)]). now rewrite Hq, app_assoc.
Qed.

Lemma extends_withToken (withToken : Url -> option string -> Url) :
  (forall v tok, withToken v tok
                 = match tok with
                   | Some t => if truthy tok then append_param v "token" t else v
                   | None => v
                   end) ->
  forall u v tok, extends u v -> extends u (withToken v tok).
Proof.
  intros Hw u v tok Hv. rewrite Hw.
  destruct tok as [t|]; [|exact Hv].
  destruct (truthy (Some t)); [now apply extends_append|exact Hv].
Qed.



Section Negotiation.
Variables World Body : Type.
Variable env : Env World Body.

(** ** One attempt of [getServerSettings] *)

Lemma settingsLoop_value fuel settingsUrl attempt (s : St World) res w1 v :
  attempt <= 3 ->
  fetch env (Combined.settingsRequest settingsUrl) (world s) = (res, w1) ->
  attemptValue env res = Some v ->
  Combined.settingsLoop env (S fuel) settingsUrl attempt s
  = (inr (Some v), {| world := w1; code := code s |},
     [Fetch (Combined.settingsRequest settingsUrl)]).
Proof.
  intros Ha Hf Hv. cbn [Combined.settingsLoop].
  destruct (Z.leb_spec attempt 3); [|lia].
  unfold_monad. rewrite Hf. unfold attemptValue in Hv.
  destruct res as [e|response]; [discriminate|].
  destruct (statusOf response =? 404).
  { injection Hv as <-. reflexivity. }
  destruct (statusOf response =? 200); [|discriminate].
  destruct (json_settings env (bodyOf response)) as [e|settings]; [discriminate|].
  destruct (Combined.parseServerSettings settings) as [e|parsed]; [discriminate|].
  injection Hv as <-. reflexivity.
Qed.

Lemma attempt_fails fuel settingsUrl attempt (s : St World) res w1 e :
  attempt <= 3 ->
  fetch env (Combined.settingsRequest settingsUrl) (world s) = (res, w1) ->
  attemptError env res = Some e ->
  Combined.settingsLoop env (S fuel) settingsUrl attempt s
  = if attempt =? 3
    then (inl e, {| world := w1; code := code s |},
          [Fetch (Combined.settingsRequest settingsUrl)])
    else
      let '(r, s2, t2) :=
        Combined.settingsLoop env fuel settingsUrl (attempt + 1)
                              {| world := w1; code := code s |} in
      (r, s2, Fetch (Combined.settingsRequest settingsUrl) :: Sleep 5000 :: t2).
Proof.
  intros Ha Hf He. cbn [Combined.settingsLoop].
  destruct (Z.leb_spec attempt 3); [|lia].
  unfold_monad. rewrite Hf. unfold attemptError in He.
  assert (Hlt : (attempt <? 3) = negb (attempt =? 3)).
  { destruct (Z.ltb_spec attempt 3), (Z.eqb_spec attempt 3); try reflexivity; lia. }
  rewrite Hlt.
  destruct res as [e0|response].
  { injection He as <-. destruct (attempt =? 3); cbn [negb world code app];
      [reflexivity|].
    destruct (Combined.settingsLoop env fuel settingsUrl (attempt + 1) _)
      as [[r s2] t2]. reflexivity. }
  destruct (statusOf response =? 404); [discriminate|].
  destruct (statusOf response =? 200).
  { destruct (json_settings env (bodyOf response)) as [e0|settings].
    { injection He as <-. destruct (attempt =? 3); cbn [negb world code app];
        [reflexivity|].
      destruct (Combined.settingsLoop env fuel settingsUrl (attempt + 1) _)
        as [[r s2] t2]. reflexivity. }
    destruct (Combined.parseServerSettings settings) as [e0|parsed]; [|discriminate].
    injection He as <-. destruct (attempt =? 3); cbn [negb world code app];
      [reflexivity|].
    destruct (Combined.settingsLoop env fuel settingsUrl (attempt + 1) _)
      as [[r s2] t2]. reflexivity. }
  destruct (statusOf response >=? 500); injection He as <-;
    (destruct (attempt =? 3); cbn [negb world code app]; [reflexivity|]);
    destruct (Combined.settingsLoop env fuel settingsUrl (attempt + 1) _)
      as [[r s2] t2]; reflexivity.
Qed.

(** Every completion of [fetch] is a value or an error for the loop. *)
Lemma attempt_cases (res : result (Response Body)) :
  (exists v, attemptValue env res = Some v) \/ (exists e, attemptError env res = Some e).
Proof.
  unfold attemptValue, attemptError.
  destruct res as [e|response]; [right; eauto|].
  destruct (statusOf response =? 404); [left; eauto|].
  destruct (statusOf response =? 200).
  - destruct (json_settings env (bodyOf response)) as [e|settings]; [right; eauto|].
    destruct (Combined.parseServerSettings settings); [right|left]; eauto.
  - destruct (statusOf response >=? 500); right; eauto.
Qed.



(** X6. A 404 from the settings endpoint ends the negotiation at once:
    one request, no wait, and the answer [{ useMQTT: false }]. *)
Theorem settings_not_found (u : Url) (w w1 : World) (response : Response Body) :
  fetch env (Combined.settingsRequest (Combined.settingsUrlOf u)) w = (inr response, w1) ->
  statusOf response = 404 ->
  Combined.getServerSettings env u (initial w)
  = (inr (Some {| useMQTT := false; mqttSettings := None |}),
     initial w1,
     [Fetch (Combined.settingsRequest (Combined.settingsUrlOf u))]).
Proof.
  intros Hf Hs. unfold Combined.getServerSettings.
  apply (@settingsLoop_value 2 (Combined.settingsUrlOf u) 1 (initial w)
                             (inr response) w1); [lia|exact Hf|].
  unfold attemptValue. now rewrite Hs.
Qed.

(** X7. A 200 whose [serverSupportProtocol] is absent or does not list
    "MQTT" gives [{ useMQTT: false }] after one request, whatever
    [settingForMQTT] says (Trigger POST included). *)
Theorem settings_without_mqtt (u : Url) (w w1 : World) (response : Response Body)
        (settings : Settings) :
  fetch env (Combined.settingsRequest (Combined.settingsUrlOf u)) w = (inr response, w1) ->
  statusOf response = 200 ->
  json_settings env (bodyOf response) = inr settings ->
  match serverSupportProtocol settings with
  | Some protocols => includes protocols "MQTT"
  | None => false
  end = false ->
  Combined.getServerSettings env u (initial w)
  = (inr (Some {| useMQTT := false; mqttSettings := None |}),
     initial w1,
     [Fetch (Combined.settingsRequest (Combined.settingsUrlOf u))]).
Proof.
  intros Hf Hs Hj Hl. unfold Combined.getServerSettings.
  apply (@settingsLoop_value 2 (Combined.settingsUrlOf u) 1 (initial w)
                             (inr response) w1); [lia|exact Hf|].
  unfold attemptValue, Combined.parseServerSettings. rewrite Hs, Hj.
  cbn [Z.eqb Pos.eqb].
  destruct (serverSupportProtocol settings) as [protocols|]; [now rewrite Hl|reflexivity].
Qed.

(** X8. Three failed attempts (an error thrown by [fetch], a body that
    does not parse, an error of [parseServerSettings], a 5xx, or any
    other status than 200 and 404) end the negotiation: three requests
    with a 5 second wait between them, none after the last, and the
    error of the third attempt is the one thrown. *)
Theorem settings_failures_exhaust (u : Url) (w w1 w2 w3 : World)
        (res1 res2 res3 : result (Response Body)) (e1 e2 e3 : Exn) :
  let r := Combined.settingsRequest (Combined.settingsUrlOf u) in
  fetch env r w = (res1, w1) -> attemptError env res1 = Some e1 ->
  fetch env r w1 = (res2, w2) -> attemptError env res2 = Some e2 ->
  fetch env r w2 = (res3, w3) -> attemptError env res3 = Some e3 ->
  Combined.getServerSettings env u (initial w)
  = (inl e3, initial w3, [Fetch r; Sleep 5000; Fetch r; Sleep 5000; Fetch r]).
Proof.
  intros r F1 E1 F2 E2 F3 E3. unfold Combined.getServerSettings.
  rewrite (@attempt_fails 2 (Combined.settingsUrlOf u) 1 (initial w) res1 w1 e1);
    [|lia|exact F1|exact E1].
  cbn [Z.eqb Pos.eqb initial code]. change (1 + 1) with 2.
  rewrite (@attempt_fails 1 (Combined.settingsUrlOf u) 2
                          {| world := w1; code := "" |} res2 w2 e2);
    [|lia|exact F2|exact E2].
  cbn [Z.eqb Pos.eqb code]. change (2 + 1) with 3.
  rewrite (@attempt_fails 0 (Combined.settingsUrlOf u) 3
                          {| world := w2; code := "" |} res3 w3 e3);
    [|lia|exact F3|exact E3].
  reflexivity.
Qed.


(** X9. One failed attempt is forgiven: when the second attempt gives a
    value, that value is returned after two requests and one 5 second
    wait, and the first error is lost. *)
Theorem settings_retry_recovers (u : Url) (w w1 w2 : World)
        (res1 res2 : result (Response Body)) (e1 : Exn) (v : ServerSettings) :
  let r := Combined.settingsRequest (Combined.settingsUrlOf u) in
  fetch env r w = (res1, w1) -> attemptError env res1 = Some e1 ->
  fetch env r w1 = (res2, w2) -> attemptValue env res2 = Some v ->
  Combined.getServerSettings env u (initial w)
  = (inr (Some v), initial w2, [Fetch r; Sleep 5000; Fetch r]).
Proof.
  intros r F1 E1 F2 V2. unfold Combined.getServerSettings.
  rewrite (@attempt_fails 2 (Combined.settingsUrlOf u) 1 (initial w) res1 w1 e1);
    [|lia|exact F1|exact E1].
  cbn [Z.eqb Pos.eqb initial code]. change (1 + 1) with 2.
  rewrite (@settingsLoop_value 1 (Combined.settingsUrlOf u) 2
                               {| world := w1; code := "" |} res2 w2 v);
    [reflexivity|lia|exact F2|exact V2].
Qed.

(** X10. [getServerSettings] makes one, two or three requests to the
    settings endpoint, with a 5 second wait between two requests and
    nothing else, and it never falls out of its loop without a result
    (it never returns [undefined]). *)
Theorem settings_bounded (u : Url) (w : World) :
  let r := Combined.settingsRequest (Combined.settingsUrlOf u) in
  let x := Combined.getServerSettings env u (initial w) in
  completion_of x <> inr None /\
  (trace_of x = [Fetch r] \/
   trace_of x = [Fetch r; Sleep 5000; Fetch r] \/
   trace_of x = [Fetch r; Sleep 5000; Fetch r; Sleep 5000; Fetch r]).
Proof.
  intros r x. subst x. unfold Combined.getServerSettings.
  destruct (fetch env r (world (initial w))) as [res1 w1] eqn:F1.
  destruct (attempt_cases res1) as [[v V]|[e E]].
  { rewrite (@settingsLoop_value 2 (Combined.settingsUrlOf u) 1 (initial w) res1 w1 v);
      [|lia|exact F1|exact V].
    split; [discriminate|left; reflexivity]. }
  rewrite (@attempt_fails 2 (Combined.settingsUrlOf u) 1 (initial w) res1 w1 e);
    [|lia|exact F1|exact E].
  cbn [Z.eqb Pos.eqb initial code]. change (1 + 1) with 2.
  destruct (fetch env r w1) as [res2 w2] eqn:F2.
  destruct (attempt_cases res2) as [[v V]|[e2 E2]].
  { rewrite (@settingsLoop_value 1 (Combined.settingsUrlOf u) 2
                                 {| world := w1; code := "" |} res2 w2 v);
      [|lia|exact F2|exact V].
    split; [discriminate|right; left; reflexivity]. }
  rewrite (@attempt_fails 1 (Combined.settingsUrlOf u) 2
                          {| world := w1; code := "" |} res2 w2 e2);
    [|lia|exact F2|exact E2].
  cbn [Z.eqb Pos.eqb code]. change (2 + 1) with 3.
  destruct (fetch env r w2) as [res3 w3] eqn:F3.
  destruct (attempt_cases res3) as [[v V]|[e3 E3]].
  { rewrite (@settingsLoop_value 0 (Combined.settingsUrlOf u) 3
                                 {| world := w2; code := "" |} res3 w3 v);
      [|lia|exact F3|exact V].
    split; [discriminate|right; right; reflexivity]. }
  rewrite (@attempt_fails 0 (Combined.settingsUrlOf u) 3
                          {| world := w2; code := "" |} res3 w3 e3);
    [|lia|exact F3|exact E3].
  split; [discriminate|right; right; reflexivity].
Qed.
End Negotiation.

(** X5. The settings endpoint is the sibling cloudprnt-setting.json of
    the poll URL: same origin, the last non-empty path segment replaced,
    the query kept, then [mac] and [replaced_path] (the segment that was
    replaced) appended.  A poll URL with no path segment gives the root
    path and the text [undefined] as [replaced_path]. *)
Theorem settingsUrl_sibling (u : Url) :
  let segments := filter (fun s => negb (String.eqb s "")) (pathname u) in
  (forall dir last,
      segments = dir ++ [last] ->
      Combined.settingsUrlOf u
      = {| origin := origin u;
           pathname := dir ++ ["cloudprnt-setting.json"];
           query := query u ++ [("mac", Combined.PRINTER_MAC); ("replaced_path", last)] |}) /\
  (segments = [] ->
   Combined.settingsUrlOf u
   = {| origin := origin u;
        pathname := [""];
        query := query u ++ [("mac", Combined.PRINTER_MAC);
                             ("replaced_path", "undefined")] |}).
Proof.
  intros segments. unfold Combined.settingsUrlOf. fold segments. split.
  - intros dir last ->.
    rewrite removelast_last, last_last.
    unfold append_param. cbn [origin pathname query].
    rewrite <- app_assoc.
    destruct (dir ++ [last]) eqn:E; [now destruct dir|reflexivity].
  - intros ->. unfold append_param. cbn [origin pathname query].
    rewrite <- app_assoc. reflexivity.
Qed.


Section Polling.
Variables World Body : Type.
Variable env : Env World Body.

Lemma combined_requests_on_poll_url u :
  toPollUrl u None (Fetch (Combined.statusRequest u)) /\
  (forall tok type, toPollUrl u None (Fetch (Combined.jobRequest u tok type))) /\
  (forall c tok, toPollUrl u None (Fetch (Combined.ackRequest u c tok))).
Proof.
  split; [split; [apply extends_refl|reflexivity]|].
  split; intros; (split; [|reflexivity]); cbn [url Combined.jobRequest Combined.ackRequest];
    apply (@extends_withToken Combined.withToken); try reflexivity;
    do 2 apply extends_append; apply extends_refl.
Qed.

Lemma pollCycle_on_poll_url u delay rot :
  always (toPollUrl u None) (Combined.pollCycle env u delay rot).
Proof.
  destruct (combined_requests_on_poll_url u) as (Hs & Hj & Ha).
  unfold Combined.pollCycle, Combined.post, Combined.service, Combined.serviceBody,
    Combined.get, Combined.delete_, sleep.
  always_auto; try exact I; auto.
Qed.

(** X11. Every request of the HTTP polling loop goes to the poll URL:
    same origin and path, the query of the poll URL with parameters
    appended behind it, and no Authorization header. *)
Theorem polling_stays_on_poll_url (fuel : nat) (u : Url) (delay : Z) (rotate180 : bool)
        (s : St World) :
  Forall (toPollUrl u None)
         (trace_of (Combined.runHttpPolling env fuel u delay rotate180 s)).
Proof.
  revert s. change (always (toPollUrl u None)
                           (Combined.runHttpPolling env fuel u delay rotate180)).
  induction fuel as [|fuel IH]; cbn [Combined.runHttpPolling].
  - apply always_ret.
  - apply always_bind; [apply pollCycle_on_poll_url|intros _; exact IH].
Qed.


(** ** Turns of [runHttpPolling] *)

Lemma no_posts (t : list Event) :
  Forall (fun e => isMethod POST e = false) t -> posts t = [].
Proof.
  induction 1 as [|e t He _ IH]; [reflexivity|].
  unfold posts in *. cbn [filter]. now rewrite He.
Qed.

Lemma service_never_posts u rot status :
  always (fun e => isMethod POST e = false) (Combined.service env u rot status).
Proof.
  unfold Combined.service, Combined.serviceBody, Combined.get, Combined.delete_.
  always_auto; reflexivity.
Qed.

Lemma pollCycle_one_post u delay rot (s : St World) :
  posts (trace_of (Combined.pollCycle env u delay rot s))
  = [Fetch (Combined.statusRequest u)].
Proof.
  unfold Combined.pollCycle, Combined.post.
  unfold try_catch, bind at 1 2, call, lift, throw, emit, sleep.
  destruct (fetch env (Combined.statusRequest u) (world s)) as [[e|response] w1];
    [reflexivity|].
  destruct (ok response); cbn [negb]; [|reflexivity].
  destruct (json_status env (bodyOf response)) as [e|status]; [reflexivity|].
  destruct (jobReady status); cbn [negb]; [|reflexivity].
  pose proof (service_never_posts u rot status {| world := w1; code := code s |}) as Hn.
  apply no_posts in Hn.
  destruct (Combined.service env u rot status _) as [[[e|[]] s2] t2];
    cbn [trace_of snd app] in *; unfold bind, emit; cbn [trace_of snd app];
    unfold posts in *; cbn [filter isMethod method Combined.statusRequest];
    rewrite ?filter_app, ?Hn; reflexivity.
Qed.

(** X12. Every turn of the polling loop sends exactly one status POST,
    always the same request, and no error ends the loop: [fuel] turns
    send [fuel] POSTs and the loop goes on. *)
Theorem one_poll_per_turn (fuel : nat) (u : Url) (delay : Z) (rotate180 : bool)
        (s : St World) :
  posts (trace_of (Combined.runHttpPolling env fuel u delay rotate180 s))
  = repeat (Fetch (Combined.statusRequest u)) fuel /\
  completion_of (Combined.runHttpPolling env fuel u delay rotate180 s) = inr tt.
Proof.
  revert s. induction fuel as [|fuel IH]; intros s; [split; reflexivity|].
  cbn [Combined.runHttpPolling repeat]. unfold bind.
  pose proof (pollCycle_one_post u delay rotate180 s) as Hp.
  pose proof (@pollCycle_total _ _ env u delay rotate180 s) as Ht.
  destruct (Combined.pollCycle env u delay rotate180 s) as [[r s1] t1].
  cbn [trace_of completion_of fst snd] in Hp, Ht. subst r.
  destruct (IH s1) as [IHp IHc].
  destruct (Combined.runHttpPolling env fuel u delay rotate180 s1) as [[r2 s2] t2].
  cbn [trace_of completion_of fst snd] in *.
  split; [|exact IHc].
  unfold posts in *. now rewrite filter_app, Hp, IHp.
Qed.

(** X13. A turn whose poll answers [jobReady: false] sends the POST,
    waits for the poll interval and does nothing else. *)
Theorem idle_turn (u : Url) (delay : Z) (rotate180 : bool) (w w1 : World)
        (response : Response Body) (status : PollStatus) :
  fetch env (Combined.statusRequest u) w = (inr response, w1) ->
  ok response = true ->
  json_status env (bodyOf response) = inr status ->
  jobReady status = false ->
  Combined.pollCycle env u delay rotate180 (initial w)
  = (inr tt, initial w1, [Fetch (Combined.statusRequest u); Sleep delay]).
Proof.
  intros Hf Hok Hj Hr. unfold Combined.pollCycle, initial.
  unfold try_catch, bind.
  rewrite (@post_ok _ _ env u w response w1 status "" Hf Hok Hj), Hr.
  reflexivity.
Qed.

(** X14. A turn whose poll fails (error thrown by [fetch], status not
    2xx, body that does not parse) logs the error, waits for the poll
    interval and sends no GET and no DELETE. *)
Theorem failed_poll_logged (u : Url) (delay : Z) (rotate180 : bool) (w w1 : World)
        (res : result (Response Body)) (e : Exn) :
  fetch env (Combined.statusRequest u) w = (res, w1) ->
  pollError env res = Some e ->
  Combined.pollCycle env u delay rotate180 (initial w)
  = (inr tt, initial w1,
     [Fetch (Combined.statusRequest u); ConsoleError e; Sleep delay]).
Proof.
  intros Hf He. unfold Combined.pollCycle, Combined.post.
  unfold_monad. cbn [initial world code]. rewrite Hf.
  unfold pollError in He.
  destruct res as [e0|response]; [injection He as <-; reflexivity|].
  destruct (ok response); cbn [negb] in *; [|injection He as <-; reflexivity].
  destruct (json_status env (bodyOf response)) as [e0|status]; [|discriminate].
  injection He as <-. reflexivity.
Qed.


End Polling.

Section Mqtt.
Variables World Body : Type.
Variable env : Env World Body.

(** X17. An MQTT message that is not JSON, or whose title is not
    "print-job", is logged and dropped: nothing is published, nothing is
    written, and the connection promise is not rejected. *)
Theorem unsupported_message_logged (rotate180 : bool) (topic : string)
        (parsed : result Payload) (s : St World) :
  (forall e, parsed = inl e ->
             Combined.deliver env rotate180 (Combined.OnMessage topic parsed) s
             = (inr None, s, [ConsoleError e])) /\
  (forall payload, parsed = inr payload -> title payload <> Some "print-job" ->
                   Combined.deliver env rotate180 (Combined.OnMessage topic parsed) s
                   = (inr None, s,
                      [ConsoleError (UnsupportedMessageType (title payload))])).
Proof.
  split.
  - intros e ->. reflexivity.
  - intros payload -> Ht. unfold Combined.deliver, Combined.handleMqttMessage.
    unfold_monad. cbv beta iota.
    destruct (title payload) as [t|]; [|reflexivity].
    destruct (String.eqb_spec t "print-job") as [->|Hne]; [now destruct Ht|].
    reflexivity.
Qed.

(** [acceptable] is the test [handlePrintJob] makes. *)
Lemma acceptable_spec payload :
  acceptable payload = true
  <-> jobType payload = Some "raw" /\ mediaTypesOf payload = Some [starprntType].
Proof.
  unfold acceptable. split.
  - destruct (jobType payload) as [t|]; [|discriminate].
    destruct (mediaTypesOf payload) as [[|type [|]]|]; try discriminate.
    intros H. apply andb_true_iff in H. destruct H as [H1 H2].
    apply String.eqb_eq in H1, H2. now subst.
  - intros [-> ->]. reflexivity.
Qed.

(** X18. A print job that is not raw, or whose media types are not
    exactly the StarPRNT type, writes no file and is reported once, with
    success false and code 500 or 510. *)
Theorem rejected_job_writes_nothing (payload : Payload) (rotate180 : bool)
        (s : St World) :
  acceptable payload = false ->
  let t := trace_of (Combined.handlePrintJob env payload rotate180 s) in
  filter isWrite t = [] /\
  exists c, (c = "500" \/ c = "510") /\
            printResults t
            = [Publish Combined.printResultTopic (PrintResult (jobTokenOf payload) false c)].
Proof.
  intros Ha t. subst t.
  rewrite handlePrintJob_trace.
  set (body := Combined.printJobBody env payload rotate180
                                     {| world := world s; code := "500" |}).
  assert (Hb : filter isWrite (trace_of body) = [] /\
               printResults (trace_of body) = [] /\
               (code (state_of body) = "500" \/ code (state_of body) = "510")).
  { subst body. unfold Combined.printJobBody, printResults. unfold_monad.
    cbn [world code].
    destruct (publishAsync env Combined.clientStatusTopic (ClientStatus true) (world s))
      as [[e|[]] w1]; cbn; [auto|].
    destruct (jobType payload) as [jt|] eqn:Hj; cbn; [|auto].
    destruct (String.eqb_spec jt "raw") as [->|Hne]; cbn; [|auto].
    destruct (mediaTypesOf payload) as [types|] eqn:Hm; cbn; [|auto].
    destruct (negb (Nat.eqb (length types) 1) || negb (includes types starprntType))
      eqn:Ht; cbn; [auto|].
    apply single_starprnt in Ht. subst types.
    exfalso. assert (acceptable payload = true)
      by (apply acceptable_spec; split; assumption).
    congruence. }
  destruct Hb as (Hw & Hp & Hc).
  split.
  - rewrite filter_app, Hw. cbn [filter isWrite app].
    destruct (fst _); reflexivity.
  - exists (code (state_of body)). split; [exact Hc|].
    unfold printResults in *. rewrite filter_app, Hp. cbn [filter isPrintResult app].
    assert (Hf : String.prefix "200" (code (state_of body)) = false)
      by (destruct Hc as [-> | ->]; reflexivity).
    rewrite Hf. destruct (fst _); reflexivity.
Qed.

(** What the [try] of [handlePrintJob] has done when it leaves the
    code at 200: the status was published, the data decoded, and
    [writeFileSync] returned without an exception. *)
Lemma printJobBody_written payload rot (s : St World) :
  let body := Combined.printJobBody env payload rot
                                    {| world := world s; code := "500" |} in
  code (state_of body) = "200" ->
  acceptable payload = true /\
  exists d png w1 w2,
    printData payload = Some d /\
    Combined.convertStarprntToPng env (base64 env d) rot = inr png /\
    publishAsync env Combined.clientStatusTopic (ClientStatus true) (world s)
    = (inr tt, w1) /\
    writeFileSync env "img-" png w1 = (inr tt, w2) /\
    body = (inr tt, {| world := w2; code := "200" |},
            [Publish Combined.clientStatusTopic (ClientStatus true);
             WriteFile "img-" png]).
Proof.
  intros body Hc. subst body.
  unfold Combined.printJobBody in *. unfold acceptable. unfold_monad.
  cbn [world code] in *.
  destruct (publishAsync env Combined.clientStatusTopic (ClientStatus true) (world s))
    as [[e|[]] w1] eqn:Ep; cbn in Hc |- *; [discriminate|].
  destruct (jobType payload) as [jt|]; cbn in Hc |- *; [|discriminate].
  destruct (String.eqb jt "raw") eqn:Ejt; cbn in Hc |- *; [|discriminate].
  destruct (mediaTypesOf payload) as [types|]; cbn in Hc |- *; [|discriminate].
  destruct (negb (Nat.eqb (length types) 1) || negb (includes types starprntType))
    eqn:Ht; cbn in Hc |- *; [discriminate|].
  apply single_starprnt in Ht. subst types.
  destruct (printData payload) as [d|]; cbn in Hc |- *; [|discriminate].
  destruct (Combined.convertStarprntToPng env (base64 env d) rot) as [e|png]
    eqn:Ecv; cbn in Hc |- *; [discriminate|].
  destruct (writeFileSync env "img-" png w1) as [[e|[]] w2] eqn:Ew;
    cbn in Hc |- *; [discriminate|].
  split; [reflexivity|]. exists d, png, w1, w2.
  split; [reflexivity|]. split; [exact Ecv|]. split; [reflexivity|].
  split; [exact Ew|reflexivity].
Qed.

(** X19. A print result with success true is never sent for a job that
    was not written: if [handlePrintJob] publishes one, it is on the
    print-result topic with the job's token and code 200, the job was
    acceptable, its data decoded to a PNG, [writeFileSync] was called
    with that PNG and returned without an exception, and this happened
    before the result was published. *)
Theorem reported_success_means_written (payload : Payload) (rotate180 : bool)
        (s : St World) (topic : string) (token : option string) (c : string) :
  let t := trace_of (Combined.handlePrintJob env payload rotate180 s) in
  In (Publish topic (PrintResult token true c)) t ->
  topic = Combined.printResultTopic /\ token = jobTokenOf payload /\ c = "200" /\
  acceptable payload = true /\
  exists d png w1 w2 rest,
    printData payload = Some d /\
    Combined.convertStarprntToPng env (base64 env d) rotate180 = inr png /\
    publishAsync env Combined.clientStatusTopic (ClientStatus true) (world s)
    = (inr tt, w1) /\
    writeFileSync env "img-" png w1 = (inr tt, w2) /\
    t = Publish Combined.clientStatusTopic (ClientStatus true)
        :: WriteFile "img-" png
        :: Publish Combined.printResultTopic (PrintResult (jobTokenOf payload) true "200")
        :: rest.
Proof.
  intros t Hin. subst t. rewrite handlePrintJob_trace in *.
  set (body := Combined.printJobBody env payload rotate180
                                     {| world := world s; code := "500" |}) in *.
  destruct (@printJobBody_spec _ _ env payload rotate180
                               {| world := world s; code := "500" |} eq_refl)
    as (Hnone & _ & _ & Hcodes & _).
  fold body in Hnone, Hcodes.
  apply in_app_or in Hin. destruct Hin as [Hin|[Hin|Hin]].
  - exfalso.
    assert (Hp : In (Publish topic (PrintResult token true c))
                    (printResults (trace_of body))).
    { unfold printResults. apply filter_In. split; [exact Hin|reflexivity]. }
    rewrite Hnone in Hp. destruct Hp.
  - injection Hin as Htopic Htoken Hflag Hcode.
    assert (Hc : code (state_of body) = "200").
    { destruct Hcodes as [E|[E|E]]; [exact E| |]; rewrite E in Hflag; discriminate. }
    destruct (printJobBody_written payload rotate180 s Hc)
      as (Hacc & d & png & w1 & w2 & Hd & Hcv & Hp & Hw & Hbody).
    fold body in Hbody.
    repeat split; try congruence.
    exists d, png, w1, w2. eexists.
    repeat (split; [assumption|]).
    rewrite Hbody. cbn [trace_of state_of fst snd code app]. reflexivity.
  - exfalso. destruct (fst _); [destruct Hin|].
    destruct Hin as [Hin|[]]. discriminate.
Qed.

(** X20. An acceptable print job whose data is missing or does not
    start with the raster header fails in the [try] with code 500 and
    after the printing-in-progress status only: no file is written. *)
Theorem undecodable_job_reported_500 (payload : Payload) (rotate180 : bool)
        (s : St World) (w1 : World) :
  publishAsync env Combined.clientStatusTopic (ClientStatus true) (world s)
  = (inr tt, w1) ->
  acceptable payload = true ->
  match printData payload with
  | Some d => Starprnt.badHeader (base64 env d) = true
  | None => True
  end ->
  Combined.printJobBody env payload rotate180 {| world := world s; code := "500" |}
  = (inl match printData payload with
         | Some _ => UnimplementedStarPRNT
         | None => TypeError
         end,
     {| world := w1; code := "500" |},
     [Publish Combined.clientStatusTopic (ClientStatus true)]).
Proof.
  intros Hp Ha Hd. apply acceptable_spec in Ha. destruct Ha as [Hj Hm].
  unfold Combined.printJobBody, Combined.convertStarprntToPng,
    Starprnt.convertStarprntToPng, Starprnt.decode.
  unfold_monad. cbn [world code]. rewrite Hp, Hj, Hm. cbn.
  destruct (printData payload) as [d|]; [|reflexivity].
  rewrite Hd. reflexivity.
Qed.

(** ** The orchestration *)

Lemma runHttpPolling_no_mqtt fuel u delay rot :
  always (fun e => isMqtt e = false) (Combined.runHttpPolling env fuel u delay rot).
Proof.
  induction fuel as [|fuel IH]; cbn [Combined.runHttpPolling].
  - apply always_ret.
  - apply always_bind; [|intros _; exact IH].
    unfold Combined.pollCycle, Combined.post, Combined.service, Combined.serviceBody,
      Combined.get, Combined.delete_, sleep.
    always_auto; reflexivity.
Qed.

Lemma no_mqtt (t : list Event) :
  Forall (fun e => isMqtt e = false) t -> filter isMqtt t = [].
Proof.
  induction 1 as [|e t He _ IH]; [reflexivity|].
  cbn [filter]. now rewrite He.
Qed.

(** X21. When the negotiation says [useMQTT: false], the program goes
    straight to HTTP polling, and the broker is never contacted. *)
Theorem http_only_server_never_connects (fuel : nat) (u : Url) (delay : Z)
        (rotate180 : bool) (w : World)
        (ss : ServerSettings) (s1 : St World) (t1 : list Event) :
  Combined.getServerSettings env u (initial w) = (inr (Some ss), s1, t1) ->
  useMQTT ss = false ->
  let polling := Combined.runHttpPolling env fuel u delay rotate180 s1 in
  Combined.main env fuel u delay rotate180 (initial w)
  = (inr InHttpPolling, state_of polling, t1 ++ trace_of polling) /\
  filter isMqtt (trace_of polling) = [].
Proof.
  intros Hs Hu polling. subst polling.
  pose proof (@runHttpPolling_total _ _ env fuel u delay rotate180 s1) as Ht.
  pose proof (runHttpPolling_no_mqtt fuel u delay rotate180 s1) as Hn.
  split; [|now apply no_mqtt].
  unfold Combined.main. unfold_monad. rewrite Hs, Hu.
  destruct (Combined.runHttpPolling env fuel u delay rotate180 s1) as [[r s2] t2].
  cbn [completion_of trace_of state_of fst snd] in *. subst r.
  now rewrite ?app_nil_r.
Qed.

(** X22. When the server lists MQTT but sends no
    [mqttConnectionSetting], [runMqttMode] fails on its first line (a
    TypeError), the error is logged and the program falls back to HTTP
    polling without contacting a broker. *)
Theorem missing_connection_setting_falls_back (fuel : nat) (u : Url) (delay : Z)
        (rotate180 : bool) (w : World)
        (ss : ServerSettings) (s1 : St World) (t1 : list Event) :
  Combined.getServerSettings env u (initial w) = (inr (Some ss), s1, t1) ->
  useMQTT ss = true ->
  mqttSettings ss = None ->
  let polling := Combined.runHttpPolling env fuel u delay rotate180 s1 in
  Combined.main env fuel u delay rotate180 (initial w)
  = (inr InHttpPolling, state_of polling,
     t1 ++ ConsoleError TypeError :: trace_of polling) /\
  filter isMqtt (trace_of polling) = [].
Proof.
  intros Hs Hu Hm polling. subst polling.
  pose proof (@runHttpPolling_total _ _ env fuel u delay rotate180 s1) as Ht.
  pose proof (runHttpPolling_no_mqtt fuel u delay rotate180 s1) as Hn.
  split; [|now apply no_mqtt].
  unfold Combined.main, Combined.runMqttMode. unfold_monad. rewrite Hs, Hu, Hm.
  destruct (Combined.runHttpPolling env fuel u delay rotate180 s1) as [[r s2] t2].
  cbn [completion_of trace_of state_of fst snd] in *. subst r.
  cbn [app]. now rewrite ?app_nil_r.
Qed.

(** X23. When the negotiation throws, the program logs the error and
    exits with code 1: no polling, no MQTT. *)
Theorem negotiation_failure_exits (fuel : nat) (u : Url) (delay : Z)
        (rotate180 : bool) (w : World)
        (e : Exn) (s1 : St World) (t1 : list Event) :
  Combined.getServerSettings env u (initial w) = (inl e, s1, t1) ->
  Combined.main env fuel u delay rotate180 (initial w)
  = (inr (Exited 1), s1, t1 ++ [ConsoleError e]).
Proof.
  intros Hs. unfold Combined.main.
  unfold try_catch at 1. unfold bind at 1. rewrite Hs. reflexivity.
Qed.
End Mqtt.

Section IndexMore.
Variables World Body : Type.
Variable env : Env World Body.

Lemma index_requests_on_poll_url u user pass :
  (forall custom,
      toPollUrl u (IndexJs.basic user pass)
                (Fetch (IndexJs.statusRequest u custom user pass))) /\
  (forall tok, toPollUrl u (IndexJs.basic user pass)
                         (Fetch (IndexJs.jobRequest u tok user pass))) /\
  (forall c tok, toPollUrl u (IndexJs.basic user pass)
                           (Fetch (IndexJs.ackRequest u c tok user pass))).
Proof.
  split; [intros; split; [apply extends_refl|reflexivity]|].
  split; intros; (split; [|reflexivity]);
    cbn [url IndexJs.jobRequest IndexJs.ackRequest];
    apply (@extends_withToken IndexJs.withToken); try reflexivity;
    do 2 apply extends_append; apply extends_refl.
Qed.

(** X24. Every request of the index.js loop goes to the poll URL (same
    origin and path, parameters appended) and carries the same
    Authorization: Basic credentials when both user and password are
    non-empty, and no Authorization header otherwise. *)
Theorem index_requests_authorized (user pass : option string) (fuel : nat)
        (u : Url) (delay : Z) (s : St World) :
  Forall (toPollUrl u (IndexJs.basic user pass))
         (trace_of (IndexJs.pollLoop env user pass fuel u delay s)) /\
  (forall a b, IndexJs.basic user pass = Some (a, b)
               <-> user = Some a /\ pass = Some b /\ a <> "" /\ b <> "").
Proof.
  split.
  - revert s. change (always (toPollUrl u (IndexJs.basic user pass))
                             (IndexJs.pollLoop env user pass fuel u delay)).
    destruct (index_requests_on_poll_url u user pass) as (Hs & Hj & Ha).
    induction fuel as [|fuel IH]; cbn [IndexJs.pollLoop]; [apply always_ret|].
    apply always_bind; [|intros _; exact IH].
    unfold IndexJs.pollCycle, IndexJs.idle, IndexJs.post, IndexJs.service,
      IndexJs.serviceBody, IndexJs.get, IndexJs.delete_, sleep.
    always_auto; try exact I; auto.
  - intros a b. unfold IndexJs.basic, truthy.
    destruct user as [x|], pass as [y|]; try (split; [discriminate|]);
      try (intros (? & ? & _); discriminate).
    destruct (String.eqb_spec x ""), (String.eqb_spec y ""); cbn [negb andb];
      (split; [try discriminate; intros [= <- <-]; auto
              |intros ([= <-] & [= <-] & ? & ?); try reflexivity; congruence]).
Qed.


(** X26. In index.js a poll with no job and no (or an empty)
    clientAction sends no second POST: the loop waits for the poll
    interval. *)
Theorem index_idle_without_actions (user pass : option string) (u : Url) (delay : Z)
        (w w1 : World) (response : Response Body) (status : PollStatus) :
  fetch env (IndexJs.statusRequest u None user pass) w = (inr response, w1) ->
  ok response = true ->
  json_status env (bodyOf response) = inr status ->
  jobReady status = false ->
  clientAction status = Missing \/ clientAction status = Present [] ->
  IndexJs.pollCycle env user pass u delay (initial w)
  = (inr tt, initial w1,
     [Fetch (IndexJs.statusRequest u None user pass); Sleep delay]).
Proof.
  intros Hf Hok Hj Hr Ha.
  unfold IndexJs.pollCycle, initial. unfold try_catch, bind at 1.
  rewrite (@index_post_ok _ _ env user pass u None w response w1 status "" Hf Hok Hj), Hr.
  cbn [negb]. unfold IndexJs.idle.
  destruct Ha as [-> | ->]; reflexivity.
Qed.

(** A null clientAction passes the [typeof] test; reading its [length]
    throws, the turn logs the TypeError and waits. *)
Lemma null_client_action_throws (user pass : option string) (u : Url) (delay : Z)
      (w w1 : World) (response : Response Body) (status : PollStatus) :
  fetch env (IndexJs.statusRequest u None user pass) w = (inr response, w1) ->
  ok response = true ->
  json_status env (bodyOf response) = inr status ->
  jobReady status = false ->
  clientAction status = Null ->
  IndexJs.pollCycle env user pass u delay (initial w)
  = (inr tt, initial w1,
     [Fetch (IndexJs.statusRequest u None user pass); ConsoleError TypeError;
      Sleep delay]).
Proof.
  intros Hf Hok Hj Hr Ha.
  unfold IndexJs.pollCycle, initial. unfold try_catch, bind at 1.
  rewrite (@index_post_ok _ _ env user pass u None w response w1 status "" Hf Hok Hj), Hr.
  cbn [negb]. unfold IndexJs.idle. rewrite Ha. reflexivity.
Qed.

Lemma answered_names delay requests :
  map answered (expectedAnswers delay requests) = filter recognized (requested requests).
Proof.
  induction requests as [|r rest IH]; [reflexivity|].
  rewrite expectedAnswers_cons, map_app, IH.
  unfold requested. cbn [flat_map]. rewrite filter_app. f_equal.
  unfold IndexJs.answer, recognized.
  destruct (request r) as [name|]; [|reflexivity].
  cbn [filter].
  destruct (String.eqb name "GetPollInterval") eqn:E1; cbn [orb].
  { apply String.eqb_eq in E1. now subst. }
  destruct (String.eqb name "Encodings") eqn:E2; cbn [orb].
  { apply String.eqb_eq in E2. now subst. }
  destruct (String.eqb name "ClientType") eqn:E3; cbn [orb].
  { apply String.eqb_eq in E3. now subst. }
  destruct (String.eqb name "ClientVersion") eqn:E4; [|reflexivity].
  apply String.eqb_eq in E4. now subst.
Qed.

(** X27. The clientAction answers are the recognized requests
    (GetPollInterval, Encodings, ClientType, ClientVersion), in the order
    asked and with repetitions kept; every answer carries the value
    index.js has for its name, and there are never more answers than
    requests. *)
Theorem answers_follow_requests (delay : Z) (requests : list ClientActionRequest) :
  let answers := IndexJs.answerAll delay requests [] in
  map answered answers = filter recognized (requested requests) /\
  (forall a, In a answers -> In (answered a, value a) (knownRequests delay)) /\
  (length answers <= length requests)%nat.
Proof.
  intros answers. subst answers. rewrite answerAll_expected. cbn [app].
  split; [apply answered_names|]. split.
  - induction requests as [|r rest IH]; [intros a []|].
    intros a. rewrite expectedAnswers_cons. intros Ha.
    apply in_app_or in Ha. destruct Ha as [Ha|Ha]; [|now apply IH].
    unfold IndexJs.answer in Ha. destruct (request r) as [name|]; [|destruct Ha].
    unfold knownRequests.
    repeat (destruct (String.eqb name _);
            [destruct Ha as [<-|[]]; cbn; tauto|]).
    destruct Ha.
  - induction requests as [|r rest IH]; [reflexivity|].
    rewrite expectedAnswers_cons, length_app. cbn [length].
    destruct (IndexJs.answer delay r); cbn [length]; lia.
Qed.

End IndexMore.


Section PngOnlyFacts.
Variables World Body : Type.
Variable env : Env World Body.




End PngOnlyFacts.


(* ================================================================== *)
(** * The properties above on scripted servers *)
(* ================================================================== *)

Lemma settingsUrl_sibling_witness :
  Combined.settingsUrlOf Script.pollUrl
  = {| origin := "http://localhost";
       pathname := ["cloudprnt"; "cloudprnt-setting.json"];
       query := [("mac", Combined.PRINTER_MAC); ("replaced_path", "poll")] |}.
Proof.
  pose proof (settingsUrl_sibling Script.pollUrl) as H. cbv zeta in H.
  destruct H as [H _]. exact (H ["cloudprnt"] "poll" eq_refl).
Defined.

Lemma settings_not_found_witness :
  Combined.getServerSettings Script.env Script.pollUrl (initial Cases.notFound)
  = (inr (Some {| useMQTT := false; mqttSettings := None |}),
     initial (Script.server []),
     [Fetch (Combined.settingsRequest (Combined.settingsUrlOf Script.pollUrl))]).
Proof.
  apply (@settings_not_found
           _ _ Script.env Script.pollUrl Cases.notFound (Script.server [])
           {| statusOf := 404; bodyOf := Script.Garbage |});
    reflexivity.
Defined.

Lemma settings_without_mqtt_witness :
  Combined.getServerSettings Script.env Script.pollUrl (initial Cases.plain)
  = (inr (Some {| useMQTT := false; mqttSettings := None |}),
     initial (Script.server []),
     [Fetch (Combined.settingsRequest (Combined.settingsUrlOf Script.pollUrl))]).
Proof.
  apply (@settings_without_mqtt
           _ _ Script.env Script.pollUrl Cases.plain (Script.server [])
           {| statusOf := 200; bodyOf := Cases.httpOnly |}
           {| serverSupportProtocol := Some ["HTTP"];
              settingForMQTT :=
                Some {| useTriggerPOST := Some true;
                        mqttConnectionSetting := None |} |});
    reflexivity.
Defined.

Lemma settings_failures_exhaust_witness :
  let r := Combined.settingsRequest (Combined.settingsUrlOf Script.pollUrl) in
  Combined.getServerSettings Script.env Script.pollUrl (initial Cases.failing)
  = (inl (UnexpectedResponse 302), initial (Script.server []),
     [Fetch r; Sleep 5000; Fetch r; Sleep 5000; Fetch r]).
Proof.
  apply (@settings_failures_exhaust
           _ _ Script.env Script.pollUrl Cases.failing
           (Script.server [Script.respond 503 Script.Garbage;
                           Script.respond 302 Script.Garbage])
           (Script.server [Script.respond 302 Script.Garbage])
           (Script.server [])
           (inl (External "timeout"))
           (Script.respond 503 Script.Garbage)
           (Script.respond 302 Script.Garbage)
           (External "timeout") (ServerError 503) (UnexpectedResponse 302));
    reflexivity.
Defined.

Lemma settings_retry_recovers_witness :
  let r := Combined.settingsRequest (Combined.settingsUrlOf Script.pollUrl) in
  Combined.getServerSettings Script.env Script.pollUrl (initial Cases.recovering)
  = (inr (Some {| useMQTT := false; mqttSettings := None |}),
     initial (Script.server []),
     [Fetch r; Sleep 5000; Fetch r]).
Proof.
  apply (@settings_retry_recovers
           _ _ Script.env Script.pollUrl Cases.recovering
           (Script.server [Script.respond 404 Script.Garbage])
           (Script.server [])
           (Script.respond 503 Script.Garbage)
           (Script.respond 404 Script.Garbage)
           (ServerError 503)
           {| useMQTT := false; mqttSettings := None |});
    reflexivity.
Defined.

Lemma idle_turn_witness :
  Combined.pollCycle Script.env Script.pollUrl 5000 false (initial Script.quiet)
  = (inr tt, initial (Script.server []),
     [Fetch (Combined.statusRequest Script.pollUrl); Sleep 5000]).
Proof.
  apply (@idle_turn
           _ _ Script.env Script.pollUrl 5000 false Script.quiet (Script.server [])
           (Script.answerOf (Script.asking [])) (Script.asking []));
    reflexivity.
Defined.

Lemma failed_poll_logged_witness :
  Combined.pollCycle Script.env Script.pollUrl 5000 false (initial Cases.down)
  = (inr tt, initial (Script.server []),
     [Fetch (Combined.statusRequest Script.pollUrl);
      ConsoleError (RequestFailed POST 500); Sleep 5000]).
Proof.
  apply (@failed_poll_logged
           _ _ Script.env Script.pollUrl 5000 false Cases.down (Script.server [])
           (Script.respond 500 Script.Garbage) (RequestFailed POST 500));
    reflexivity.
Defined.



Lemma unsupported_message_logged_witness :
  Combined.deliver Script.env false
                   (Combined.OnMessage "star/cloudprnt/to-device/x" (inr Cases.ping))
                   (initial Script.takesAll)
  = (inr None, initial Script.takesAll,
     [ConsoleError (UnsupportedMessageType (Some "ping"))]).
Proof.
  destruct (@unsupported_message_logged
              _ _ Script.env false "star/cloudprnt/to-device/x" (inr Cases.ping)
              (initial Script.takesAll)) as [_ H].
  apply (H Cases.ping eq_refl). vm_compute. discriminate.
Defined.

Lemma rejected_job_writes_nothing_witness :
  filter isWrite
         (trace_of (Combined.handlePrintJob
                      Script.env (Script.printJob "pdf" [starprntType]) false
                      (initial Script.takesAll)))
  = [].
Proof.
  pose proof (@rejected_job_writes_nothing
                _ _ Script.env (Script.printJob "pdf" [starprntType]) false
                (initial Script.takesAll) eq_refl) as H.
  cbv zeta in H. exact (proj1 H).
Defined.

Lemma reported_success_means_written_witness :
  exists d png w1 w2 rest,
    printData (Script.printJob "raw" [starprntType]) = Some d /\
    Combined.convertStarprntToPng Script.env (base64 Script.env d) false = inr png /\
    publishAsync Script.env Combined.clientStatusTopic (ClientStatus true)
                 Script.takesAll = (inr tt, w1) /\
    writeFileSync Script.env "img-" png w1 = (inr tt, w2) /\
    trace_of (Combined.handlePrintJob
                Script.env (Script.printJob "raw" [starprntType]) false
                (initial Script.takesAll))
    = Publish Combined.clientStatusTopic (ClientStatus true)
      :: WriteFile "img-" png
      :: Publish Combined.printResultTopic (PrintResult (Some "abc") true "200")
      :: rest.
Proof.
  pose proof (@reported_success_means_written
                _ _ Script.env (Script.printJob "raw" [starprntType]) false
                (initial Script.takesAll)
                Combined.printResultTopic (Some "abc") "200") as H.
  cbv zeta in H.
  assert (Hin : In (Publish Combined.printResultTopic (PrintResult (Some "abc") true "200"))
                   (trace_of (Combined.handlePrintJob
                                Script.env (Script.printJob "raw" [starprntType]) false
                                (initial Script.takesAll)))).
  { vm_compute. right. right. left. reflexivity. }
  exact (proj2 (proj2 (proj2 (proj2 (H Hin))))).
Defined.

Lemma undecodable_job_reported_500_witness :
  Combined.printJobBody Script.env Cases.junkJob false
                        {| world := Script.takesAll; code := "500" |}
  = (inl UnimplementedStarPRNT,
     {| world := Script.broker [inr tt; inr tt]; code := "500" |},
     [Publish Combined.clientStatusTopic (ClientStatus true)]).
Proof.
  apply (@undecodable_job_reported_500
           _ _ Script.env Cases.junkJob false (initial Script.takesAll)
           (Script.broker [inr tt; inr tt]));
    reflexivity.
Defined.

Lemma http_only_server_never_connects_witness :
  completion_of (Combined.main Script.env 1 Script.pollUrl 5000 false
                               (initial Cases.notFound))
  = inr InHttpPolling.
Proof.
  pose (x := Combined.getServerSettings Script.env Script.pollUrl
                                          (initial Cases.notFound)).
  pose proof (@http_only_server_never_connects
                _ _ Script.env 1 Script.pollUrl 5000 false Cases.notFound
                {| useMQTT := false; mqttSettings := None |}
                (state_of x) (trace_of x) eq_refl eq_refl) as H.
  cbv zeta in H. destruct H as [H _]. rewrite H. reflexivity.
Defined.

Lemma missing_connection_setting_falls_back_witness :
  completion_of (Combined.main Script.env 1 Script.pollUrl 5000 false
                               (initial Cases.unset))
  = inr InHttpPolling.
Proof.
  pose (x := Combined.getServerSettings Script.env Script.pollUrl
                                          (initial Cases.unset)).
  pose proof (@missing_connection_setting_falls_back
                _ _ Script.env 1 Script.pollUrl 5000 false Cases.unset
                {| useMQTT := true; mqttSettings := None |}
                (state_of x) (trace_of x) eq_refl eq_refl eq_refl) as H.
  cbv zeta in H. destruct H as [H _]. rewrite H. reflexivity.
Defined.

Lemma negotiation_failure_exits_witness :
  completion_of (Combined.main Script.env 1 Script.pollUrl 5000 false
                               (initial Script.insists))
  = inr (Exited 1).
Proof.
  pose (x := Combined.getServerSettings Script.env Script.pollUrl
                                          (initial Script.insists)).
  rewrite (@negotiation_failure_exits
             _ _ Script.env 1 Script.pollUrl 5000 false Script.insists
             TriggerPostUnsupported (state_of x) (trace_of x) eq_refl).
  reflexivity.
Defined.


Lemma index_idle_without_actions_witness :
  IndexJs.pollCycle Script.env None None Script.pollUrl 5000 (initial Script.quiet)
  = (inr tt, initial (Script.server []),
     [Fetch (IndexJs.statusRequest Script.pollUrl None None None); Sleep 5000]).
Proof.
  apply (@index_idle_without_actions
           _ _ Script.env None None Script.pollUrl 5000 Script.quiet (Script.server [])
           (Script.answerOf (Script.asking [])) (Script.asking []));
    try reflexivity.
  right. reflexivity.
Defined.



